(** * archr: the QEMU tracer bow ([archr/arsenal/qemu_tracer.py])

    A shallow embedding of [QEMUTracerBow] and of the Python primitives its
    methods call, followed by the properties of the tracer that the
    specification states.

    Conventions.
    - Python [bytes] are [list byte]; Python [str] used as paths and command
      arguments are [string]; Python [int] is [Z].
    - A class attribute that defaults to [None] is an [option] field.
    - An exception is a value of [exn]; code that can raise returns
      [result].
    - The execution environment (the target's file system, the local file
      system) is an explicit [World] threaded through the session. *)

From Stdlib Require Import ZArith List Lia Bool.
From Stdlib Require Import Strings.String Strings.Ascii Strings.Byte.
From Stdlib Require Import Numbers.DecimalString.
From Stdlib Require DecimalNat.
From stdpp Require Import base option list gmap strings fin_maps.
Import ListNotations.

Local Open Scope Z_scope.
Local Open Scope list_scope.

(** ** Bytes *)

Abbreviation bytes := (list byte).

(** [b"..."] literals. *)
Definition B (s : string) : bytes := list_byte_of_string s.

(** ** Exceptions and results *)

Inductive exn : Type :=
| ArchrError (msg : string)
| IndexError
| ValueError
| AttributeError
| StopIteration
| TypeError
| NotFound (path : string)
| UnicodeEncodeError
| RuntimeError
| OSError.

Inductive result (A : Type) : Type :=
| Ok (a : A)
| Raise (e : exn).
Arguments Ok {A} a.
Arguments Raise {A} e.

Definition rbind {A C : Type} (m : result A) (k : A -> result C) : result C :=
  match m with
  | Ok a => k a
  | Raise e => Raise e
  end.

Definition is_ok {A : Type} (m : result A) : bool :=
  match m with Ok _ => true | Raise _ => false end.

(** ** Python built-ins on [bytes] *)

Module Py.

Definition NL : byte := x0a.
Definition CR : byte := x0d.

(** [Py_ISSPACE]: space, \t, \n, \v, \f, \r. *)
Definition isspace (c : byte) : bool :=
  match c with
  | x20 | x09 | x0a | x0b | x0c | x0d => true
  | _ => false
  end.

(** [s.startswith(prefix)] *)
Fixpoint startswith (prefix s : bytes) : bool :=
  match prefix, s with
  | [], _ => true
  | p :: prefix', c :: s' => Byte.eqb p c && startswith prefix' s'
  | _ :: _, [] => false
  end.

(** The rest of [s] after [prefix], when [s] starts with it. *)
Fixpoint strip_prefix (prefix s : bytes) : option bytes :=
  match prefix, s with
  | [], _ => Some s
  | p :: prefix', c :: s' =>
      if Byte.eqb p c then strip_prefix prefix' s' else None
  | _ :: _, [] => None
  end.

(** [bytes.splitlines()]: lines end at \n, \r or \r\n; the terminators
    are dropped and a trailing terminator opens no further line. [cur] is
    the line being read, reversed. *)
Fixpoint splitlines_from (cur s : bytes) : list bytes :=
  match s with
  | [] => match cur with [] => [] | _ :: _ => [rev cur] end
  | c :: s' =>
      if Byte.eqb c NL then rev cur :: splitlines_from [] s'
      else if Byte.eqb c CR then
        match s' with
        | c' :: s'' =>
            if Byte.eqb c' NL then rev cur :: splitlines_from [] s''
            else rev cur :: splitlines_from [] s'
        | [] => rev cur :: splitlines_from [] s'
        end
      else splitlines_from (c :: cur) s'
  end.

Definition splitlines (s : bytes) : list bytes := splitlines_from [] s.

(** [bytes.split()] without arguments: the maximal runs of
    non-whitespace bytes. [cur] is the field being read, reversed. *)
Fixpoint split_from (cur s : bytes) : list bytes :=
  match s with
  | [] => match cur with [] => [] | _ :: _ => [rev cur] end
  | c :: s' =>
      if isspace c then
        match cur with
        | [] => split_from [] s'
        | _ :: _ => rev cur :: split_from [] s'
        end
      else split_from (c :: cur) s'
  end.

Definition split (s : bytes) : list bytes := split_from [] s.

(** [l[i]] for a non-negative literal index. *)
Definition index {A : Type} (l : list A) (i : nat) : result A :=
  match nth_error l i with
  | Some a => Ok a
  | None => Raise IndexError
  end.

(** [l[-1]] *)
Definition index_last {A : Type} (l : list A) : result A :=
  match rev l with
  | a :: _ => Ok a
  | [] => Raise IndexError
  end.

(** The value of a digit in base 16 ([_PyLong_DigitValue] below 16). *)
Definition hexval (c : byte) : option Z :=
  match c with
  | "0"%byte => Some 0 | "1"%byte => Some 1 | "2"%byte => Some 2
  | "3"%byte => Some 3 | "4"%byte => Some 4 | "5"%byte => Some 5
  | "6"%byte => Some 6 | "7"%byte => Some 7 | "8"%byte => Some 8
  | "9"%byte => Some 9
  | "a"%byte | "A"%byte => Some 10
  | "b"%byte | "B"%byte => Some 11
  | "c"%byte | "C"%byte => Some 12
  | "d"%byte | "D"%byte => Some 13
  | "e"%byte | "E"%byte => Some 14
  | "f"%byte | "F"%byte => Some 15
  | _ => None
  end.

Definition UNDERSCORE : byte := "_"%byte.

Fixpoint lstrip (s : bytes) : bytes :=
  match s with
  | c :: s' => if isspace c then lstrip s' else s
  | [] => []
  end.

(** The digit loop of [long_from_binary_base]: digits and single
    underscores between them. [prev_us] says that the previous byte was
    an underscore, [n] counts the digits read. Returns the value and the
    unread rest. *)
Fixpoint scan_digits (prev_us : bool) (n : nat) (acc : Z) (s : bytes)
  : option (Z * bytes) :=
  let stop :=
    if prev_us then None
    else match n with O => None | S _ => Some (acc, s) end in
  match s with
  | [] => stop
  | c :: s' =>
      if Byte.eqb c UNDERSCORE then
        if prev_us then None else scan_digits true n acc s'
      else
        match hexval c with
        | Some d => scan_digits false (S n) (acc * 16 + d) s'
        | None => stop
        end
  end.

(** [PyLong_FromString] at base 16, after the sign: an optional [0x] or
    [0X] with one underscore allowed behind it, no leading underscore,
    the digits, trailing whitespace, end of input. *)
Definition skip_0x (s : bytes) : bytes :=
  match s with
  | c0 :: c1 :: r =>
      if Byte.eqb c0 "0"%byte && (Byte.eqb c1 "x"%byte || Byte.eqb c1 "X"%byte)
      then match r with
           | c :: r' => if Byte.eqb c UNDERSCORE then r' else r
           | [] => r
           end
      else s
  | _ => s
  end.

Definition int16_magnitude (s : bytes) : option Z :=
  let s1 := skip_0x s in
  match s1 with
  | c :: _ =>
      if Byte.eqb c UNDERSCORE then None
      else
        match scan_digits false O 0 s1 with
        | Some (v, rest) =>
            match lstrip rest with [] => Some v | _ :: _ => None end
        | None => None
        end
  | [] => None
  end.

(** The sign in front of the digits. *)
Definition take_sign (s : bytes) : bool * bytes :=
  match s with
  | c :: r =>
      if Byte.eqb c "+"%byte then (false, r)
      else if Byte.eqb c "-"%byte then (true, r)
      else (false, s)
  | [] => (false, s)
  end.

(** [int(s, 16)] on [bytes]. *)
Definition int16 (s : bytes) : result Z :=
  let '(neg, s1) := take_sign (lstrip s) in
  match int16_magnitude s1 with
  | Some v => Ok (if neg then - v else v)
  | None => Raise ValueError
  end.

End Py.

(** ** Regular expressions ([re]), as far as the tracer's patterns go

    A pattern is a sequence of literals, greedy [.*] (captured under a name
    or not) and the end anchor. Matching backtracks the way [re] does: each
    [.*] first takes as much as it can and gives back one character at a
    time until the rest of the pattern matches. *)

Module Re.
Section Engine.

Context {C : Type}.
(** Equality of characters, and the characters [.] matches. *)
Variable ceq : C -> C -> bool.
Variable dot : C -> bool.

Inductive item : Type :=
| Lit (l : list C)
| DotStar (group : option string)
| Eos.

Definition groups : Type := list (string * list C).

Fixpoint strip (l s : list C) : option (list C) :=
  match l, s with
  | [], _ => Some s
  | p :: l', c :: s' => if ceq p c then strip l' s' else None
  | _ :: _, [] => None
  end.

(** Greedy [.*] followed by the continuation [k]: the captured text and
    what [k] returned at the first position, from the right, where [k]
    succeeds. *)
Fixpoint dotstar (k : list C -> option groups) (s : list C)
  : option (list C * groups) :=
  match s with
  | [] => option_map (pair []) (k [])
  | c :: s' =>
      if dot c then
        match dotstar k s' with
        | Some (cap, gs) => Some (c :: cap, gs)
        | None => option_map (pair []) (k s)
        end
      else option_map (pair []) (k s)
  end.

(** [pattern.match(s)]: anchored at the start of [s] only. *)
Fixpoint rmatch (p : list item) (s : list C) {struct p} : option groups :=
  match p with
  | [] => Some []
  | Lit l :: p' =>
      match strip l s with
      | Some s' => rmatch p' s'
      | None => None
      end
  | DotStar g :: p' =>
      match dotstar (rmatch p') s with
      | Some (cap, gs) =>
          Some (match g with Some name => (name, cap) :: gs | None => gs end)
      | None => None
      end
  | Eos :: p' =>
      match s with
      | [] => rmatch p' []
      | _ :: _ => None
      end
  end.

(** [m.group(name)] *)
Fixpoint group (name : string) (gs : groups) : option (list C) :=
  match gs with
  | [] => None
  | (n, v) :: gs' => if String.eqb n name then Some v else group name gs'
  end.

(** A continuation that fails at [v] and behind every position of [v]:
    nothing for a star to backtrack to. *)
Fixpoint dead_all (k : list C -> option groups) (v : list C) : Prop :=
  k v = None /\
  match v with
  | [] => True
  | _ :: v' => dead_all k v'
  end.

(** A continuation that fails behind every position of [v] but the
    first. *)
Definition dead (k : list C -> option groups) (v : list C) : Prop :=
  match v with
  | [] => True
  | _ :: v' => dead_all k v'
  end.

End Engine.
End Re.

Arguments Re.Lit {C} l.
Arguments Re.DotStar {C} group.
Arguments Re.Eos {C}.

(** On [bytes], without [re.DOTALL]: [.] is any byte but \n. *)
Definition bytes_dot (c : byte) : bool := negb (Byte.eqb c Py.NL).

Definition re_match (p : list (Re.item (C:=byte))) (s : bytes)
  : option (Re.groups (C:=byte)) :=
  Re.rmatch Byte.eqb bytes_dot p s.

(** [_trace_old_re]: the pattern
    [Trace ( .* ) \[(?P<addr> .* )\] .*] (the source has no blanks around
    the three [.*]); its unnamed first group is group 1. *)
Definition _trace_old_re : list (Re.item (C:=byte)) :=
  [ Re.Lit (B "Trace "); Re.DotStar (Some "1"%string);
    Re.Lit (B " ["); Re.DotStar (Some "addr"%string);
    Re.Lit (B "]"); Re.DotStar None ].

(** [_trace_new_re]: the pattern
    [Trace ( .* ) \[(?P<something1> .* )\/(?P<addr> .* )\/(?P<flags> .* )\] .*]
    (again without the blanks around each [.*]). *)
Definition _trace_new_re : list (Re.item (C:=byte)) :=
  [ Re.Lit (B "Trace "); Re.DotStar (Some "1"%string);
    Re.Lit (B " ["); Re.DotStar (Some "something1"%string);
    Re.Lit (B "/"); Re.DotStar (Some "addr"%string);
    Re.Lit (B "/"); Re.DotStar (Some "flags"%string);
    Re.Lit (B "]"); Re.DotStar None ].

(** The tail of both patterns: the closing bracket and the rest of the
    line. *)
Definition tail_re : list (Re.item (C:=byte)) :=
  [Re.Lit (B "]"); Re.DotStar None].

(** ** Python [str]: truthiness, containment, paths *)

Module Str.
Local Open Scope string_scope.

Definition SLASH : ascii := "/"%char.

(** [s.startswith(prefix)] *)
Fixpoint startswith (prefix s : string) : bool :=
  match prefix, s with
  | EmptyString, _ => true
  | String p prefix', String c s' => Ascii.eqb p c && startswith prefix' s'
  | String _ _, EmptyString => false
  end.

(** [needle in s] *)
Fixpoint contains (needle s : string) : bool :=
  startswith needle s
  || match s with
     | String _ s' => contains needle s'
     | EmptyString => false
     end.

(** [bool(s)] *)
Definition truthy (s : string) : bool :=
  match s with EmptyString => false | String _ _ => true end.

(** [bool(x)] for [x] a [str] or [None] *)
Definition opt_truthy (x : option string) : bool :=
  match x with Some s => truthy s | None => false end.

Fixpoint has_slash (s : string) : bool :=
  match s with
  | EmptyString => false
  | String c s' => Ascii.eqb c SLASH || has_slash s'
  end.

Fixpoint all_slash (s : string) : bool :=
  match s with
  | EmptyString => true
  | String c s' => Ascii.eqb c SLASH && all_slash s'
  end.

Fixpoint endswith_slash (s : string) : bool :=
  match s with
  | EmptyString => false
  | String c EmptyString => Ascii.eqb c SLASH
  | String _ s' => endswith_slash s'
  end.

(** [s.rstrip('/')] *)
Fixpoint rstrip_slash (s : string) : string :=
  match s with
  | EmptyString => EmptyString
  | String c s' =>
      match rstrip_slash s' with
      | EmptyString => if Ascii.eqb c SLASH then EmptyString else String c EmptyString
      | r => String c r
      end
  end.

(** [(p[:i], p[i:])] for [i = p.rfind('/') + 1] *)
Fixpoint split_last (p : string) : string * string :=
  match p with
  | EmptyString => (EmptyString, EmptyString)
  | String c p' =>
      if has_slash p' then
        let '(h, t) := split_last p' in (String c h, t)
      else if Ascii.eqb c SLASH then (String c EmptyString, p')
      else (EmptyString, p)
  end.

(** [os.path.split] (posixpath) *)
Definition os_path_split (p : string) : string * string :=
  let '(head, tail) := split_last p in
  (if truthy head && negb (all_slash head) then rstrip_slash head else head,
   tail).

(** [os.path.basename] *)
Definition os_path_basename (p : string) : string := snd (split_last p).

(** [os.path.join(a, b)] (posixpath, two arguments) *)
Definition os_path_join (a b : string) : string :=
  if startswith "/" b then b
  else if negb (truthy a) || endswith_slash a then a ++ b
  else a ++ "/" ++ b.

(** A directory part as [os.path.join] leaves it in front of a name: empty,
    or ending in a slash. *)
Definition slashed (x : string) : Prop := x = "" \/ endswith_slash x = true.

(** The remainder of [s] after [prefix]. *)
Fixpoint strip_prefix (prefix s : string) : option string :=
  match prefix, s with
  | EmptyString, _ => Some s
  | String p prefix', String c s' =>
      if Ascii.eqb p c then strip_prefix prefix' s' else None
  | String _ _, EmptyString => None
  end.

(** [str(n)] for an [int] *)
Definition of_Z (n : Z) : string := NilZero.string_of_int (Z.to_int n).

(** ["%d" % n] for a length *)
Definition of_nat (n : nat) : string := NilZero.string_of_uint (Nat.to_uint n).

End Str.

(** ** File systems

    A file system is a finite map from absolute paths to the contents of
    regular files; a directory exists through the files below it. *)

Module FS.
Local Open Scope string_scope.

Abbreviation t := (gmap string bytes).

(** [fnmatch.translate] for patterns of literal characters and [*]
    (all the tracer uses): [*] becomes [.*], the whole is compiled with
    [re.DOTALL] and anchored at the end. *)
Fixpoint translate (pat : list ascii) : list (Re.item (C:=ascii)) :=
  match pat with
  | [] => [Re.Eos]
  | c :: pat' =>
      if Ascii.eqb c "*"%char then Re.DotStar None :: translate pat'
      else Re.Lit [c] :: translate pat'
  end.

(** [fnmatch.fnmatch(name, pat)] on POSIX *)
Definition fnmatch (name pat : string) : bool :=
  match Re.rmatch Ascii.eqb (fun _ => true)
          (translate (list_ascii_of_string pat)) (list_ascii_of_string name) with
  | Some _ => true
  | None => false
  end.

(** The name under which [path] is an entry of directory [dir]: what
    follows [dir] and its slash, when that is one component. *)
Definition entry_name (dir path : string) : option string :=
  match Str.strip_prefix (Str.os_path_join dir "") path with
  | Some n =>
      if Str.truthy n && negb (Str.has_slash n) then Some n else None
  | None => None
  end.

(** [os.listdir(dir)], in the order of the map. *)
Definition listdir (fs : gmap string bytes) (dir : string) : list string :=
  omap (entry_name dir) (map_to_list fs).*1.

(** [glob.glob(pattern)] for a pattern whose directory part is literal:
    the entries of that directory whose names match the last component,
    joined back to the directory. *)
Definition glob (fs : gmap string bytes) (pattern : string) : list string :=
  let '(dirname, basename) := Str.os_path_split pattern in
  map (Str.os_path_join dirname)
      (filter (fun name => fnmatch name basename = true) (listdir fs dirname)).

(** Everything at or below [dir]. *)
Definition below (dir path : string) : bool :=
  String.eqb path dir || Str.startswith (dir ++ "/") path.

(** [shutil.rmtree(dir)] *)
Definition rmtree (fs : gmap string bytes) (dir : string) : gmap string bytes :=
  filter (fun kv => below dir (fst kv) = false) fs.

End FS.

(** ** The world of a session

    [target_files] is the file system of the execution environment as the
    emulator left it, [local_files] the local one. *)

Record World : Type := mkWorld {
  target_files : gmap string bytes;
  local_files : gmap string bytes
}.

Definition set_local (w : World) (fs : gmap string bytes) : World :=
  {| target_files := target_files w; local_files := fs |}.

(** Computations over the world that may raise. *)
Definition M (A : Type) : Type := World -> result A * World.

Definition ret {A : Type} (a : A) : M A := fun w => (Ok a, w).
Definition raise {A : Type} (e : exn) : M A := fun w => (Raise e, w).
Definition bind {A C : Type} (m : M A) (k : A -> M C) : M C :=
  fun w =>
    match m w with
    | (Ok a, w') => k a w'
    | (Raise e, w') => (Raise e, w')
    end.
(** [try: m finally: cleanup] *)
Definition finally {A : Type} (m : M A) (cleanup : World -> World) : M A :=
  fun w => let '(r, w') := m w in (r, cleanup w').
Definition lift {A : Type} (r : result A) : M A := fun w => (r, w).

#[global] Instance M_ret : MRet M := @ret.
#[global] Instance M_bind : MBind M := fun A C k m => bind m k.
#[global] Instance result_ret : MRet result := @Ok.
#[global] Instance result_bind : MBind result := fun A C k m => rbind m k.

(** *** The execution target interface *)

Module Target.
(** Modelled from the spec: [Target.resolve_glob] is not part of the
    sources at hand; it resolves a path glob within the execution
    environment's file system. *)
Definition resolve_glob (pattern : string) : M (list string) :=
  fun w => (Ok (FS.glob (target_files w) pattern), w).

(** Modelled from the spec: [Target.retrieve_contents] is not part of the
    sources at hand; it is a whole-file read from the execution
    environment. *)
Definition retrieve_contents (path : string) : M bytes :=
  fun w =>
    match target_files w !! path with
    | Some c => (Ok c, w)
    | None => (Raise (NotFound path), w)
    end.

(** Modelled from the spec: [Target.retrieve_into] is not part of the
    sources at hand; it is a whole-file copy from the execution
    environment into a local directory, under the file's own name. *)
Definition retrieve_into (path local_dir : string) : M unit :=
  fun w =>
    match target_files w !! path with
    | Some c =>
        (Ok tt,
         set_local w
           (<[Str.os_path_join local_dir (Str.os_path_basename path) := c]>
              (local_files w)))
    | None => (Raise (NotFound path), w)
    end.

End Target.

(** *** The local file system *)

Module Local.

(** [glob.glob(pattern)] *)
Definition glob (pattern : string) : M (list string) :=
  fun w => (Ok (FS.glob (local_files w) pattern), w).

(** [shutil.move(src, dst)] of a regular file onto a path that is not a
    directory. *)
Definition move (src dst : string) : M unit :=
  fun w =>
    match local_files w !! src with
    | Some c => (Ok tt, set_local w (<[dst := c]> (delete src (local_files w))))
    | None => (Raise (NotFound src), w)
    end.

(** [shutil.rmtree(dir)] under [contextlib.suppress(FileNotFoundError)] *)
Definition rmtree (dir : string) (w : World) : World :=
  set_local w (FS.rmtree (local_files w) dir).

End Local.

(** ** Python values, for comparisons across types *)

#[local] Set Warnings "-register-all".

Inductive pyval : Type :=
| PyNone
| PyInt (z : Z)
| PyList (l : list pyval).

(** [x == y]: an [int] equals an [int] of the same value, a [list] a
    [list] with equal elements, [None] only [None]. *)
Fixpoint py_eq (x y : pyval) {struct x} : bool :=
  match x, y with
  | PyNone, PyNone => true
  | PyInt a, PyInt c => Z.eqb a c
  | PyList l, PyList l' =>
      (fix all2 (l l' : list pyval) {struct l} : bool :=
         match l, l' with
         | [], [] => true
         | a :: l1, c :: l1' => py_eq a c && all2 l1 l1'
         | _, _ => false
         end) l l'
  | _, _ => false
  end.

(** [x in l] *)
Definition py_in (x : pyval) (l : list pyval) : bool := existsb (py_eq x) l.

Definition py_of_optZ (x : option Z) : pyval :=
  match x with Some z => PyInt z | None => PyNone end.

(** [bool(x)] for [x] a [bool] or [None] *)
Definition optb_truthy (x : option bool) : bool :=
  match x with Some c => c | None => false end.

(** ** [str.encode('utf-8')]

    A [str] whose encoding matters is its sequence of code points. *)

Abbreviation pystr := (list N).

Module Utf8.
Local Open Scope N_scope.

Definition byte_of (n : N) : byte :=
  match Byte.of_N n with Some c => c | None => x00 end.

Definition cont (n : N) : byte := byte_of (N.lor 128 (N.land n 63)).

(** One code point; lone surrogates and values beyond U+10FFFF have no
    encoding. *)
Definition encode_cp (cp : N) : option bytes :=
  if cp <? 128 then Some [byte_of cp]
  else if cp <? 2048 then
    Some [byte_of (N.lor 192 (N.shiftr cp 6)); cont cp]
  else if cp <? 65536 then
    if (55296 <=? cp) && (cp <=? 57343) then None
    else Some [byte_of (N.lor 224 (N.shiftr cp 12));
               cont (N.shiftr cp 6); cont cp]
  else if cp <? 1114112 then
    Some [byte_of (N.lor 240 (N.shiftr cp 18));
          cont (N.shiftr cp 12); cont (N.shiftr cp 6); cont cp]
  else None.

Fixpoint encode (s : pystr) : result bytes :=
  match s with
  | [] => Ok []
  | cp :: s' =>
      match encode_cp cp with
      | Some bs =>
          match encode s' with
          | Ok r => Ok (bs ++ r)
          | Raise e => Raise e
          end
      | None => Raise UnicodeEncodeError
      end
  end.
End Utf8.

(** ** The tracer's data *)

(** The members of [signal] that the tracer assigns. *)
Inductive Signal : Type := SIGSEGV | SIGILL.

(** The [subprocess.Popen] handle: the command it runs, what was written
    to its standard input, whether that stream was closed, and its
    [returncode]. *)
Record Process : Type := mkProcess {
  p_args : list string;
  p_stdin : list bytes;
  p_stdin_closed : bool;
  p_returncode : option Z
}.

(** [class TraceResults]; every attribute defaults to [None]. *)
Record TraceResults : Type := mkTraceResults {
  process : option Process;
  socket : option unit;
  returncode : option Z;
  signal : option Signal;
  crashed : option bool;
  timed_out : option bool;
  trace : option (list Z);
  crash_address : option Z;
  base_address : option Z;
  magic_contents : option bytes;
  core_path : option string
}.

(** [TraceResults()] *)
Definition TraceResults_new : TraceResults :=
  mkTraceResults None None None None None None None None None None None.

Definition set_process (r : TraceResults) (v : option Process) :=
  mkTraceResults v (socket r) (returncode r) (signal r) (crashed r)
    (timed_out r) (trace r) (crash_address r) (base_address r)
    (magic_contents r) (core_path r).
Definition set_returncode (r : TraceResults) (v : option Z) :=
  mkTraceResults (process r) (socket r) v (signal r) (crashed r)
    (timed_out r) (trace r) (crash_address r) (base_address r)
    (magic_contents r) (core_path r).
Definition set_signal (r : TraceResults) (v : option Signal) :=
  mkTraceResults (process r) (socket r) (returncode r) v (crashed r)
    (timed_out r) (trace r) (crash_address r) (base_address r)
    (magic_contents r) (core_path r).
Definition set_crashed (r : TraceResults) (v : option bool) :=
  mkTraceResults (process r) (socket r) (returncode r) (signal r) v
    (timed_out r) (trace r) (crash_address r) (base_address r)
    (magic_contents r) (core_path r).
Definition set_timed_out (r : TraceResults) (v : option bool) :=
  mkTraceResults (process r) (socket r) (returncode r) (signal r) (crashed r)
    v (trace r) (crash_address r) (base_address r)
    (magic_contents r) (core_path r).
Definition set_trace (r : TraceResults) (v : option (list Z)) :=
  mkTraceResults (process r) (socket r) (returncode r) (signal r) (crashed r)
    (timed_out r) v (crash_address r) (base_address r)
    (magic_contents r) (core_path r).
Definition set_crash_address (r : TraceResults) (v : option Z) :=
  mkTraceResults (process r) (socket r) (returncode r) (signal r) (crashed r)
    (timed_out r) (trace r) v (base_address r)
    (magic_contents r) (core_path r).
Definition set_base_address (r : TraceResults) (v : option Z) :=
  mkTraceResults (process r) (socket r) (returncode r) (signal r) (crashed r)
    (timed_out r) (trace r) (crash_address r) v
    (magic_contents r) (core_path r).
Definition set_magic_contents (r : TraceResults) (v : option bytes) :=
  mkTraceResults (process r) (socket r) (returncode r) (signal r) (crashed r)
    (timed_out r) (trace r) (crash_address r) (base_address r)
    v (core_path r).
Definition set_core_path (r : TraceResults) (v : option string) :=
  mkTraceResults (process r) (socket r) (returncode r) (signal r) (crashed r)
    (timed_out r) (trace r) (crash_address r) (base_address r)
    (magic_contents r) v.

(** The metadata of [self.target] that the bow reads. *)
Record TargetInfo : Type := mkTargetInfo {
  target_os : string;
  target_arch : string;
  target_env : list string;
  target_args : list string
}.

(** The keyword arguments of [fire_context]; [library_path],
    [report_bad_args] and [seed] are the [**kwargs] it hands on to
    [_build_command]. *)
Record FireOptions : Type := mkFireOptions {
  timeout : Z;
  record_trace : bool;
  record_magic : bool;
  save_core : bool;
  library_path : option string;
  report_bad_args : bool;
  seed : option Z
}.

(** [fire_context(timeout=10, record_trace=True, record_magic=False,
    save_core=False)] *)
Definition default_options : FireOptions :=
  mkFireOptions 10 true false false None false None.

(** What a session draws from outside the program: the random parts of the
    three [tempfile] names and the [returncode] the process handle shows
    once the run context has been left. *)
Record Env : Type := mkEnv {
  tmpdir_suffix : string;
  tmp_prefix_suffix : string;
  local_tmpdir_suffix : string;
  proc_returncode : option Z
}.

(** What an item of a test case is: a [str] or a [bytes]. *)
Inductive pyitem : Type :=
| PStr (s : pystr)
| PBytes (c : bytes).

(** The [testcase] argument of [fire]: one [str] or [bytes], or an
    iterable of them. *)
Inductive Testcase : Type :=
| One (x : pyitem)
| Many (l : list pyitem).

(** What the body of a [with fire_context(...) as r] block does with the
    live process and how it ends: normally, or by an exception, of which
    [subprocess.TimeoutExpired] is the one the context handles. *)
Inductive raised : Type :=
| TimeoutExpired
| Other (e : exn).

Definition Body : Type := Process -> Process * option raised.

(** ** [class QEMUTracerBow] *)

Module QEMUTracerBow.
Local Open Scope string_scope.
Local Open Scope list_scope.

Record t : Type := mk { target : TargetInfo }.

(** [tempfile.mktemp(prefix="/tmp/tracer_")] *)
Definition target_tmpdir (env : Env) : string :=
  "/tmp/tracer_" +:+ tmpdir_suffix env.

(** [tempfile.mktemp(dir='/tmp', prefix="tracer-")] *)
Definition tmp_prefix (env : Env) : string :=
  "/tmp/tracer-" +:+ tmp_prefix_suffix env.

(** [tempfile.mkdtemp(prefix="/tmp/tracer_")] *)
Definition local_tmpdir (env : Env) : string :=
  "/tmp/tracer_" +:+ local_tmpdir_suffix env.

(** [_target_mk_tmpdir]: [mkdir] before and [rmdir] after the block, on
    the target; neither creates nor removes a file. *)
Definition _target_mk_tmpdir {A : Type} (tmpdir : string)
    (block : string -> M A) : M A :=
  finally (block tmpdir) (fun w => w).

(** [_local_mk_tmpdir]: the block runs with a new local directory, which
    is removed with all it holds when the block is left. *)
Definition _local_mk_tmpdir {A : Type} (tmpdir : string)
    (block : string -> M A) : M A :=
  finally (block tmpdir) (Local.rmtree tmpdir).

(** [qemu_variant(self, record_trace)] *)
Definition qemu_variant (self : t) (record_trace : bool) : string :=
  if String.eqb (target_os (target self)) "cgc" then
    let suffix := if record_trace then "tracer" else "base" in
    "shellphish-qemu-cgc-" +:+ suffix
  else
    "shellphish-qemu-linux-" +:+ target_arch (target self).

Definition is_some {A : Type} (x : option A) : bool :=
  match x with Some _ => true | None => false end.

(** [x in l] for a list of [str] *)
Definition str_in (x : string) (l : list string) : bool :=
  existsb (String.eqb x) l.

(** [_build_command(self, trace_filename=None, library_path=None,
    magic_filename=None, coredump_dir=".", report_bad_args=False,
    seed=None)] *)
Definition _build_command (self : t)
    (trace_filename library_path magic_filename : option string)
    (coredump_dir : string) (report_bad_args : bool) (seed : option Z)
  : list string :=
  let qemu_variant := qemu_variant self (is_some trace_filename) in
  let cmd_args := ["/tmp/shellphish_qemu/fire"; qemu_variant] in
  let cmd_args := cmd_args ++ ["-C"; coredump_dir] in
  (* record trace *)
  let cmd_args :=
    match trace_filename with
    | Some f =>
        if Str.truthy f then
          cmd_args ++
            (if negb (Str.contains "cgc" qemu_variant)
             then ["-d"; "nochain,exec,page"; "-D"; f]
             else ["-d"; "exec"; "-D"; f])
        else cmd_args ++ ["-enable_double_empty_exiting"]
    | None => cmd_args ++ ["-enable_double_empty_exiting"]
    end in
  (* save CGC magic page *)
  let cmd_args :=
    match magic_filename with
    | Some f =>
        if Str.truthy f then cmd_args ++ ["-magicdump"; f] else cmd_args
    | None => cmd_args
    end in
  let cmd_args :=
    match seed with
    | Some n => (cmd_args ++ ["-seed"]) ++ [Str.of_Z n]
    | None => cmd_args
    end in
  let cmd_args :=
    if report_bad_args then cmd_args ++ ["-report_bad_args"] else cmd_args in
  (* Memory limit option is only available in shellphish-qemu-cgc-* *)
  let cmd_args :=
    if Str.contains "cgc" qemu_variant then cmd_args ++ ["-m"; "8G"]
    else cmd_args in
  let cmd_args :=
    if negb (Str.contains "cgc" qemu_variant)
       && negb (str_in "LD_BIND_NOW=1" (target_env (target self)))
    then cmd_args ++ ["-E"; "LD_BIND_NOW=1"]
    else cmd_args in
  let cmd_args :=
    match library_path with
    | Some lp =>
        if Str.truthy lp then cmd_args ++ ["-E"; "LD_LIBRARY_PATH=" +:+ lp]
        else cmd_args
    | None => cmd_args
    end in
  (* Now, we add the program arguments. *)
  cmd_args ++ target_args (target self).

(** Lines 93-99: did a crash occur? *)
Definition classify (r : TraceResults) : TraceResults :=
  if py_in (py_of_optZ (returncode r)) [PyInt 139; PyInt (-11)] then
    set_signal (set_crashed r (Some true)) (Some SIGSEGV)
  else if py_eq (py_of_optZ (returncode r)) (PyList [PyInt 132; PyInt (-9)]) then
    set_signal (set_crashed r (Some true)) (Some SIGILL)
  else r.

(** The statuses that are taken for a segmentation violation. *)
Definition segv (rc : option Z) : Prop := rc = Some 139 \/ rc = Some (-11).

(** Lines 90-99, after the run context is left. *)
Definition status_stage (p : Process) (r : TraceResults) : TraceResults :=
  if negb (optb_truthy (timed_out r)) then
    classify (set_returncode r (p_returncode p))
  else r.

(** Lines 106-109: the block under [_local_mk_tmpdir]. The one path that
    the glob resolved to is [target_cores[0]]. *)
Definition core_block (target_cores : list string) (f : string)
    (r : TraceResults) (local_tmpdir : string) : M TraceResults :=
  core ← lift (Py.index target_cores 0);
  Target.retrieve_into core local_tmpdir;;
  cores ← Local.glob (Str.os_path_join local_tmpdir "qemu_*.core");
  src ← lift (Py.index cores 0);
  Local.move src f;;
  mret (set_core_path r (Some f)).

(** Lines 101-109: the core dump. *)
Definition core_stage (env : Env) (tmpdir : string)
    (local_core_filename : option string) (r : TraceResults)
  : M TraceResults :=
  match local_core_filename with
  | Some f =>
      if Str.truthy f then
        target_cores ← Target.resolve_glob (Str.os_path_join tmpdir "qemu_*.core");
        if negb (Nat.eqb (length target_cores) 1) then
          raise (ArchrError ("expected 1 core file but found "
                             +:+ Str.of_nat (length target_cores)))
        else
          _local_mk_tmpdir (local_tmpdir env) (core_block target_cores f r)
      else mret r
  | None => mret r
  end.

(** Line 116: [next(t.split()[1] for t in trace_iter
    if t.startswith(b"start_code"))]; returns the field and the iterator
    behind the line it came from. *)
Fixpoint next_start_code (trace_iter : list bytes) : result (bytes * list bytes) :=
  match trace_iter with
  | [] => Raise StopIteration
  | t :: rest =>
      if Py.startswith (B "start_code") t then
        match Py.index (Py.split t) 1 with
        | Ok field => Ok (field, rest)
        | Raise e => Raise e
        end
      else next_start_code rest
  end.

(** Lines 120-122: [[int(_trace_re.match(t).group('addr'), 16)
    for t in trace_iter if t.startswith(b"Trace ")]] *)
Fixpoint trace_entries (_trace_re : list (Re.item (C:=byte)))
    (trace_iter : list bytes) : result (list Z) :=
  match trace_iter with
  | [] => Ok []
  | t :: rest =>
      if Py.startswith (B "Trace ") t then
        match re_match _trace_re t with
        | None => Raise AttributeError
        | Some m =>
            match Re.group "addr" m with
            | None => Raise IndexError
            | Some a =>
                match Py.int16 a with
                | Raise e => Raise e
                | Ok v =>
                    match trace_entries _trace_re rest with
                    | Ok vs => Ok (v :: vs)
                    | Raise e => Raise e
                    end
                end
            end
        end
      else trace_entries _trace_re rest
  end.

(** Line 119 *)
Definition select_trace_re (self : t) : list (Re.item (C:=byte)) :=
  if String.eqb (target_os (target self)) "cgc" then _trace_old_re
  else _trace_new_re.

(** Lines 113-122 on the retrieved contents of the trace file: the load
    base and the addresses of the executed blocks. *)
Definition read_trace (self : t) (contents : bytes) : result (Z * list Z) :=
  let trace_iter := Py.splitlines contents in
  '(field, trace_iter) ← next_start_code trace_iter;
  base ← Py.int16 field;
  entries ← trace_entries (select_trace_re self) trace_iter;
  mret (base, entries).

(** Lines 116 and 120: [r.base_address] and [r.trace]. *)
Definition parse_trace (self : t) (contents : bytes) (r : TraceResults)
  : result TraceResults :=
  '(base, entries) ← read_trace self contents;
  mret (set_trace (set_base_address r (Some base)) (Some entries)).

(** Lines 124-126: grab the faulting address. *)
Definition fault_address (r : TraceResults) : result TraceResults :=
  if optb_truthy (crashed r) then
    match trace r with
    | Some entries =>
        last ← Py.index_last entries;
        mret (set_crash_address r (Some last))
    | None => Raise TypeError
    end
  else mret r.

(** Lines 111-128: the trace. *)
Definition trace_stage (self : t) (target_trace_filename : option string)
    (r : TraceResults) : M TraceResults :=
  match target_trace_filename with
  | Some f =>
      if Str.truthy f then
        contents ← Target.retrieve_contents f;
        r ← lift (parse_trace self contents r);
        lift (fault_address r)
      else mret r
  | None => mret r
  end.

(** Lines 130-133: the magic page. *)
Definition magic_stage (target_magic_filename : option string)
    (r : TraceResults) : M TraceResults :=
  match target_magic_filename with
  | Some f =>
      if Str.truthy f then
        contents ← Target.retrieve_contents f;
        let r := set_magic_contents r (Some contents) in
        if negb (Nat.eqb (length contents) 4096) then
          raise (ArchrError
            "Magic content read from QEMU improper size, should be a page in length")
        else mret r
      else mret r
  | None => mret r
  end.

Definition target_trace_filename (o : FireOptions) (env : Env) : option string :=
  if record_trace o then Some (tmp_prefix env +:+ ".trace") else None.
Definition target_magic_filename (o : FireOptions) (env : Env) : option string :=
  if record_magic o then Some (tmp_prefix env +:+ ".magic") else None.
Definition local_core_filename (o : FireOptions) (env : Env) : option string :=
  if save_core o then Some (tmp_prefix env +:+ ".core") else None.

(** Line 78 *)
Definition target_cmd (self : t) (o : FireOptions) (env : Env) : list string :=
  _build_command self (target_trace_filename o env) (library_path o)
    (target_magic_filename o env) (target_tmpdir env)
    (report_bad_args o) (seed o).

(** What follows the trace flags in the command, option by option: the
    magic dump, the seed, the report of bad arguments, the memory limit of
    the CGC emulators, the early binding forced on the others, the library
    path, and the arguments of the target. *)
Definition later_options (self : t) (o : FireOptions) (env : Env) : list string :=
  let variant := qemu_variant self (record_trace o) in
  (if record_magic o then ["-magicdump"; tmp_prefix env +:+ ".magic"] else [])
  ++ (match seed o with Some n => ["-seed"; Str.of_Z n] | None => [] end)
  ++ (if report_bad_args o then ["-report_bad_args"] else [])
  ++ (if Str.contains "cgc" variant then ["-m"; "8G"] else [])
  ++ (if negb (Str.contains "cgc" variant)
         && negb (str_in "LD_BIND_NOW=1" (target_env (target self)))
      then ["-E"; "LD_BIND_NOW=1"] else [])
  ++ (match library_path o with
      | Some lp => if Str.truthy lp then ["-E"; "LD_LIBRARY_PATH=" +:+ lp] else []
      | None => []
      end)
  ++ target_args (target self).

(** Modelled from the spec: [Target.run_context] is not part of the
    sources at hand; it starts the process and hands out its live handle,
    and bounds the wait for the process by [timeout]. This is the handle
    at the start: nothing written, the input stream open, no status. *)
Definition started (cmd : list string) : Process :=
  mkProcess cmd [] false None.

(** Lines 90-133: what the session does once the run context is left. *)
Definition conclude (self : t) (o : FireOptions) (env : Env)
    (tmpdir : string) (p : Process) (r : TraceResults) : M TraceResults :=
  let r := status_stage p r in
  r ← core_stage env tmpdir (local_core_filename o env) r;
  r ← trace_stage self (target_trace_filename o env) r;
  magic_stage (target_magic_filename o env) r.

(** The handle once the run context is left: [returncode] is what the
    environment reports for the process ([None] while it has not been
    waited for). *)
Definition reaped (env : Env) (p : Process) : Process :=
  mkProcess (p_args p) (p_stdin p) (p_stdin_closed p) (proc_returncode env).

(** PEP 479: [fire_context] is a generator, and a [StopIteration] raised in
    the body of a generator does not leave it as such: the caller gets a
    [RuntimeError]. *)
Definition pep479 {A : Type} (m : M A) : M A :=
  fun w =>
    match m w with
    | (Raise StopIteration, w') => (Raise RuntimeError, w')
    | other => other
    end.

(** [fire_context]: the session around the [body] of the caller's [with]
    block. The world is the one found when the body is left. What follows
    the [yield] runs in the generator; an exception of the body that the
    generator does not handle goes back to the caller as it is. *)
Definition fire_context (self : t) (o : FireOptions) (env : Env)
    (body : Body) : M TraceResults :=
  _target_mk_tmpdir (target_tmpdir env) (fun tmpdir =>
    let p := started (target_cmd self o env) in
    let r := set_process TraceResults_new (Some p) in
    let '(p, exc) := body p in
    r ← match exc with
        | None => mret (set_timed_out r (Some false))
        | Some TimeoutExpired => mret (set_timed_out r (Some true))
        | Some (Other e) => raise e
        end;
    let p := reaped env p in
    pep479 (conclude self o env tmpdir p (set_process r (Some p)))).

(** The result object when the run context has been left: the handle,
    and whether the body timed out. *)
Definition at_exit (env : Env) (p : Process) (timed : bool) : TraceResults :=
  set_process (set_timed_out TraceResults_new (Some timed))
    (Some (reaped env p)).

(** How the body of the caller's block ended in a session. *)
Definition body_outcome (self : t) (o : FireOptions) (env : Env)
    (body : Body) : option raised :=
  snd (body (started (target_cmd self o env))).

(** [r.process.stdin.write(data)] *)
Definition stdin_write (data : bytes) (p : Process) : result Process :=
  if p_stdin_closed p then Raise ValueError
  else Ok (mkProcess (p_args p) (p_stdin p ++ [data]) false (p_returncode p)).

(** [r.process.stdin.close()] *)
Definition stdin_close (p : Process) : Process :=
  mkProcess (p_args p) (p_stdin p) true (p_returncode p).

(** [t.encode('utf-8') if type(t) is str else t] *)
Definition encoded (x : pyitem) : result bytes :=
  match x with
  | PStr s => Utf8.encode s
  | PBytes c => Ok c
  end.

(** The data of every item of a test case, in order. *)
Fixpoint encoded_all (l : list pyitem) : result (list bytes) :=
  match l with
  | [] => Ok []
  | x :: l' =>
      match encoded x with
      | Ok d =>
          match encoded_all l' with
          | Ok ds => Ok (d :: ds)
          | Raise e => Raise e
          end
      | Raise e => Raise e
      end
  end.

(** Lines 63-65; [time.sleep(0.01)] leaves no trace on the handle. *)
Fixpoint write_all (testcase : list pyitem) (p : Process) : Process * option raised :=
  match testcase with
  | [] => (p, None)
  | x :: rest =>
      match encoded x with
      | Raise e => (p, Some (Other e))
      | Ok data =>
          match stdin_write data p with
          | Raise e => (p, Some (Other e))
          | Ok p' => write_all rest p'
          end
      end
  end.

(** Lines 59-60 *)
Definition as_list (testcase : Testcase) : list pyitem :=
  match testcase with
  | One x => [x]
  | Many l => l
  end.

(** Lines 63-66: the body of the [with] block of [fire]. *)
Definition fire_body (testcase : list pyitem) : Body :=
  fun p =>
    match write_all testcase p with
    | (p', None) => (stdin_close p', None)
    | (p', Some e) => (p', Some e)
    end.

(** [fire(self, testcase=(), **kwargs)] *)
Definition fire (self : t) (o : FireOptions) (env : Env)
    (testcase : Testcase) : M TraceResults :=
  let testcase := as_list testcase in
  fire_context self o env (fire_body testcase).

End QEMUTracerBow.

(** ** Trace logs as the emulator writes them

    The text of a trace file, built from what it is to say: a line that
    gives the load base, and one line per executed block in the format of
    the emulator variant. *)

Module TraceLog.

Definition hexchars : bytes := B "0123456789abcdef".

Definition hexdigit (d : Z) : byte := nth (Z.to_nat d) hexchars "0"%byte.

(** The base-16 digits of [n], least significant first. *)
Fixpoint hex_lsd (fuel : nat) (n : Z) : list Z :=
  match fuel with
  | O => []
  | S fuel' =>
      if n <? 16 then [n] else (n mod 16) :: hex_lsd fuel' (n / 16)
  end.

Definition hex_digits (n : Z) : list Z :=
  rev (hex_lsd (S (Z.to_nat (Z.log2 n))) n).

(** How a number is printed: with or without [0x], and with how many
    zeros in front. *)
Record hexfmt : Type := mkFmt { with_0x : bool; zero_pad : nat }.

Definition hex (f : hexfmt) (n : Z) : bytes :=
  (if with_0x f then B "0x" else [])
    ++ repeat "0"%byte (zero_pad f) ++ map hexdigit (hex_digits n).

(** The bytes a printed number is made of. *)
Definition hexish (c : byte) : bool :=
  existsb (Byte.eqb c) (B "0123456789abcdefx").

Definition digit (d : Z) : Prop := 0 <= d < 16.

(** The number that digits stand for, most significant first. *)
Definition value (ds : list Z) (acc : Z) : Z :=
  fold_left (fun a d => a * 16 + d) ds acc.

(** The digits, with zeros in front. *)
Definition padded (f : hexfmt) (n : Z) : list Z :=
  repeat 0 (zero_pad f) ++ hex_digits n.

(** The load-base line: the marker, a run of blanks, the address. *)
Definition start_code_line (blanks : nat) (f : hexfmt) (base : Z) : bytes :=
  B "start_code" ++ repeat " "%byte (S blanks) ++ hex f base.

(** What a trace-entry line says. The fields around the address are free
    text: [pre] between the marker and the bracket, [something1] and
    [flags] around the address in the three-part group of the general
    format, [post] behind the bracket. *)
Record entry : Type := mkEntry {
  pre : bytes;
  something1 : bytes;
  addr_fmt : hexfmt;
  addr : Z;
  flags : bytes;
  post : bytes
}.

(** The line of the CGC emulator: [Trace <pre> [<addr>]<post>]. *)
Definition render_old (e : entry) : bytes :=
  B "Trace " ++ pre e ++ B " [" ++ hex (addr_fmt e) (addr e) ++ B "]" ++ post e.

(** The line of the other emulators:
    [Trace <pre> [<something1>/<addr>/<flags>]<post>]. *)
Definition render_new (e : entry) : bytes :=
  B "Trace " ++ pre e ++ B " [" ++ something1 e ++ B "/"
    ++ hex (addr_fmt e) (addr e) ++ B "/" ++ flags e ++ B "]" ++ post e.

Definition render (cgc : bool) (e : entry) : bytes :=
  if cgc then render_old e else render_new e.

Definition absent (c : byte) (s : bytes) : bool :=
  forallb (fun x => negb (Byte.eqb x c)) s.

(** Free text that stays on one line. *)
Definition one_line (s : bytes) : bool := absent Py.NL s && absent Py.CR s.

(** A well-formed entry: a non-negative address; every field on one
    line; no closing bracket behind the address group; and, in the
    three-part group, no blank in front of the address part and no slash
    behind it. *)
Definition well_formed (cgc : bool) (e : entry) : bool :=
  (0 <=? addr e)
  && one_line (pre e) && one_line (post e)
  && absent "]"%byte (post e)
  && (cgc
      || (one_line (something1 e) && one_line (flags e)
          && absent " "%byte (something1 e)
          && absent "/"%byte (flags e) && absent "/"%byte (post e))).

(** Each line followed by a newline. *)
Definition unlines (ls : list bytes) : bytes :=
  concat (map (fun l => l ++ [Py.NL]) ls).

(** A trace file: the load-base line, then the entries. *)
Definition trace_file (cgc : bool) (blanks : nat) (f : hexfmt) (base : Z)
    (es : list entry) : bytes :=
  unlines (start_code_line blanks f base :: map (render cgc) es).

End TraceLog.

(** [self.target.target_os == 'cgc'] *)
Definition is_cgc (self : QEMUTracerBow.t) : bool :=
  String.eqb (target_os (QEMUTracerBow.target self)) "cgc".

(** ** The core dump, relocated *)

Module CoreDump.
Local Open Scope string_scope.

(** The glob pattern of the emulator's core files. *)
Definition PATTERN : string := "qemu_*.core".

(** The local file system once the one core file [p], of contents [c], has
    been fetched into the temporary directory, moved to [f], and the
    directory removed. *)
Definition relocated (env : Env) (p f : string) (c : bytes)
    (fs : gmap string bytes) : gmap string bytes :=
  let copy :=
    Str.os_path_join (QEMUTracerBow.local_tmpdir env) (Str.os_path_basename p) in
  FS.rmtree (<[f := c]> (delete copy (<[copy := c]> fs)))
    (QEMUTracerBow.local_tmpdir env).

End CoreDump.

(** ** Sessions to run the tracer on *)

Module Scenario.
Import QEMUTracerBow TraceLog.
Local Open Scope string_scope.

Definition linux : QEMUTracerBow.t :=
  mk (mkTargetInfo "linux" "x86_64" ["PATH=/bin"] ["/bin/target"; "-v"]).

Definition cgc : QEMUTracerBow.t :=
  mk (mkTargetInfo "cgc" "i386" [] ["/bin/challenge"]).

(** A non-CGC target whose architecture tag holds the letters "cgc". *)
Definition odd_arch : QEMUTracerBow.t :=
  mk (mkTargetInfo "linux" "cgc" [] ["/bin/target"]).

Definition env (rc : option Z) : Env := mkEnv "k3v_9qza" "x0h2m_ab" "p7_wq1zz" rc.

(** A body that does nothing and returns. *)
Definition idle : Body := fun p => (p, None).

(** A body left by [subprocess.TimeoutExpired]. *)
Definition overrun : Body := fun p => (p, Some TimeoutExpired).

Definition fmt16 : hexfmt := mkFmt false 10.
Definition fmt0x : hexfmt := mkFmt true 0.

Definition block (a : Z) : entry :=
  mkEntry (B "0: 0x7f3c00000100") (B "0000000000000000") fmt16 a
    (B "0x40b0") (B " ").

Definition two_blocks : list entry := [block 4198400; block 4198416].

Definition ten_blocks : list entry :=
  map (fun i => block (4198400 + 16 * Z.of_nat i)) (seq 0 10).

(** The target's files after a run that traced [es] from base
    [0x400000]. *)
Definition traced (self : QEMUTracerBow.t) (es : list entry) : World :=
  mkWorld
    {[ "/tmp/tracer-x0h2m_ab.trace" := trace_file (is_cgc self) 1 fmt0x 4194304 es ]}
    ∅.

(** A run that left a magic page of [n] bytes. *)
Definition with_magic (n : nat) : World :=
  mkWorld {[ "/tmp/tracer-x0h2m_ab.magic" := repeat x00 n ]} ∅.

(** A run that left the core files [names] in the scratch directory. *)
Definition with_cores (names : list string) : World :=
  mkWorld
    (list_to_map
       (map (fun n => ("/tmp/tracer_k3v_9qza/" +:+ n, B "CORE")) names))
    ∅.

Definition only_trace : FireOptions := default_options.
Definition no_trace : FireOptions :=
  mkFireOptions 10 false false false None false None.
Definition only_magic : FireOptions :=
  mkFireOptions 10 false true false None false None.
Definition only_core : FireOptions :=
  mkFireOptions 10 false false true None false None.

End Scenario.

(** * archr: the Docker image target ([archr/targets/docker_target.py])

    [DockerImageTarget] describes a target in the form of a Docker image:
    what to run in it, under which environment, and how commands reach
    the running container. *)

(** ** Python built-ins on [str]

    A [str] is the sequence of its code points, all below 256 here. *)

Module PyStr.
Local Open Scope string_scope.

(** [s.lstrip("/")] *)
Fixpoint lstrip_slash (s : string) : string :=
  match s with
  | String c s' => if Ascii.eqb c Str.SLASH then lstrip_slash s' else s
  | EmptyString => EmptyString
  end.

(** [s.split(sep)] for a separator of one character: the pieces between
    the separators, at least one. *)
Fixpoint split (sep : ascii) (s : string) : list string :=
  match s with
  | EmptyString => [EmptyString]
  | String c s' =>
      if Ascii.eqb c sep then EmptyString :: split sep s'
      else
        match split sep s' with
        | piece :: rest => String c piece :: rest
        | [] => [String c EmptyString]
        end
  end.

(** How [int] sees a code point ([_PyUnicode_TransformDecimalAndSpaceToASCII]):
    the two spaces beyond ASCII, U+0085 and U+00A0, become a blank; no
    code point from 127 to 255 is a decimal digit. *)
Definition to_ascii (c : ascii) : ascii :=
  if Ascii.eqb c "133"%char || Ascii.eqb c "160"%char then " "%char else c.

Fixpoint transform (s : string) : string :=
  match s with
  | String c s' => String (to_ascii c) (transform s')
  | EmptyString => EmptyString
  end.

(** [Py_ISSPACE]: space, \t, \n, \v, \f, \r. *)
Definition isspace (c : ascii) : bool :=
  Ascii.eqb c " "%char || Ascii.eqb c "009"%char || Ascii.eqb c "010"%char
  || Ascii.eqb c "011"%char || Ascii.eqb c "012"%char || Ascii.eqb c "013"%char.

(** The value of a digit in base 10 ([_PyLong_DigitValue] below 10): the
    code points from 48 to 57 stand for 0 to 9. *)
Definition digitval (c : ascii) : option Z :=
  let n := Z.of_N (N_of_ascii c) in
  if ((48 <=? n) && (n <? 58))%Z then Some (n - 48) else None.

Definition UNDERSCORE : ascii := "_"%char.

Fixpoint lstrip (s : string) : string :=
  match s with
  | String c s' => if isspace c then lstrip s' else s
  | EmptyString => EmptyString
  end.

(** The digit scan of [PyLong_FromString] at base 10: digits and single
    underscores between them. [prev_us] says that the previous code point
    was an underscore, [n] counts the digits read. Returns the value, the
    number of digits and the unread rest. *)
Fixpoint scan_digits (prev_us : bool) (n : nat) (acc : Z) (s : string)
  : option (Z * nat * string) :=
  let stop :=
    if prev_us then None
    else match n with O => None | S _ => Some (acc, n, s) end in
  match s with
  | EmptyString => stop
  | String c s' =>
      if Ascii.eqb c UNDERSCORE then
        if prev_us then None else scan_digits true n acc s'
      else
        match digitval c with
        | Some d => scan_digits false (S n) (acc * 10 + d) s'
        | None => stop
        end
  end.

(** [sys.get_int_max_str_digits()], as CPython 3.11 and later set it. *)
Definition MAX_STR_DIGITS : nat := 4300.

(** After the sign: no leading underscore, the digits, no more of them
    than the limit, trailing whitespace, end of input. *)
Definition int_magnitude (s : string) : option Z :=
  match s with
  | String c _ =>
      if Ascii.eqb c UNDERSCORE then None
      else
        match scan_digits false O 0 s with
        | Some (v, n, rest) =>
            if Nat.ltb MAX_STR_DIGITS n then None
            else match lstrip rest with EmptyString => Some v | String _ _ => None end
        | None => None
        end
  | EmptyString => None
  end.

(** The sign in front of the digits. *)
Definition take_sign (s : string) : bool * string :=
  match s with
  | String c r =>
      if Ascii.eqb c "+"%char then (false, r)
      else if Ascii.eqb c "-"%char then (true, r)
      else (false, s)
  | EmptyString => (false, s)
  end.

(** [int(s)] on a [str]. *)
Definition int (s : string) : result Z :=
  let '(neg, s1) := take_sign (lstrip (transform s)) in
  match int_magnitude s1 with
  | Some v => Ok (if neg then - v else v)
  | None => Raise ValueError
  end.

(** [x or y] for lists that may be [None]: [x] when it is a list with an
    element, else [y]. *)
Definition list_or {A : Type} (x y : option (list A)) : option (list A) :=
  match x with
  | Some (_ :: _) => x
  | _ => y
  end.

(** [x or []] *)
Definition or_empty {A : Type} (x : option (list A)) : list A :=
  match x with
  | Some l => l
  | None => []
  end.

End PyStr.

(** ** [class DockerImageTarget] *)

Module DockerImageTarget.
Local Open Scope string_scope.
Local Open Scope list_scope.

(** [image.attrs['Config']], as far as the target reads it; each of the
    three values is a list of [str] or null. *)
Record Config : Type := mkConfig {
  Entrypoint : option (list string);
  Cmd : option (list string);
  Env : option (list string)
}.

(** [image.attrs['ContainerConfig']['ExposedPorts']]: either key may be
    missing; the value of either is null or a dict; of the dict of the
    ports the keys count, in their order. *)
Inductive ExposedPorts : Type :=
| NoContainerConfig
| NullContainerConfig
| NoExposedPorts
| Null
| Keys (keys : list string).

(** What [self._client.images.get] hands out. *)
Record Image : Type := mkImage {
  config : Config;
  exposed_ports : ExposedPorts
}.

(** The running container. *)
Record Container : Type := mkContainer { id : string }.

Record t : Type := mk {
  image_id : string;
  target_args : option (list string);
  target_path : option string;
  target_env : option (list string);
  image : option Image;
  container : option Container
}.

(** [__init__(self, image_name, pull=False, target_args=None,
    target_path=None, target_env=None)] *)
Definition __init__ (image_name : string) (target_args : option (list string))
    (target_path : option string) (target_env : option (list string)) : t :=
  mk image_name target_args target_path target_env None None.



(** How a call of a method ends: it returns, it raises an exception, or
    an [assert] of it fails. *)
Inductive outcome (A : Type) : Type :=
| Returns (a : A)
| Raises (e : exn)
| AssertionError.
Arguments Returns {A} a.
Arguments Raises {A} e.
Arguments AssertionError {A}.

(** [bool(x)] for [x] a list or [None] *)
Definition list_truthy {A : Type} (x : option (list A)) : bool :=
  match x with
  | Some (_ :: _) => true
  | _ => false
  end.

(** [x + y] for a list [x] and a [y] that may be [None] *)
Definition list_add (x : list string) (y : option (list string))
  : result (list string) :=
  match y with
  | Some l => Ok (x ++ l)
  | None => Raise TypeError
  end.

(** [x + y] for an [x] that may be [None] and a list [y] *)
Definition add_list (x : option (list string)) (y : list string)
  : result (list string) :=
  match x with
  | Some l => Ok (l ++ y)
  | None => Raise TypeError
  end.

(** Lines 98-100: the loop over the environment. *)
Definition env_flags (env : list string) (docker_args : list string)
  : list string :=
  fold_left (fun docker_args e => docker_args ++ ["-e"; e]) env docker_args.

Section Popen.

(** [subprocess.Popen(argv, stdin=stdin, stdout=stdout, stderr=stderr,
    bufsize=0)], as the operating system answers it: with a handle on the
    started process, or with an exception ([ValueError] for an argument
    that holds a NUL, [OSError] where [docker] cannot be run). *)
Variable Handle : Type.
Variable Popen : list string -> outcome Handle.

(** [run_command(self, args=None, args_prefix=None, args_suffix=None,
    aslr=True)]: what it builds, and what [Popen] makes of it. *)
Definition run_command (self : t)
    (args args_prefix args_suffix : option (list string)) (aslr : bool)
  : outcome Handle :=
  match container self with
  | None => AssertionError
  | Some c =>
      let command_args := PyStr.list_or args (target_args self) in
      let argv : result (list string) :=
        command_args ←
          (if list_truthy args_prefix then
             l ← list_add (PyStr.or_empty args_prefix) command_args;
             Ok (Some l)
           else Ok command_args);
        command_args ←
          (if list_truthy args_suffix then
             l ← add_list command_args (PyStr.or_empty args_suffix);
             Ok (Some l)
           else Ok command_args);
        command_args ←
          (if negb aslr then
             l ← list_add ["setarch"; "x86_64"; "-R"] command_args;
             Ok (Some l)
           else Ok command_args);
        env ←
          (match target_env self with
           | Some env => Ok env
           | None => Raise TypeError
           end);
        let docker_args := env_flags env ["docker"; "exec"; "-i"] in
        let docker_args := docker_args ++ [id c] in
        list_add docker_args command_args
      in
      match argv with
      | Ok argv => Popen argv
      | Raise e => Raises e
      end
  end.

End Popen.
Arguments run_command {Handle} Popen self args args_prefix args_suffix aslr.

(** Lines 119 and 126: [[int(k.split('/')[0]) for k in keys
    if proto in k]] *)
Fixpoint ports (proto : string) (keys : list string) : result (list Z) :=
  match keys with
  | [] => Ok []
  | k :: rest =>
      if Str.contains proto k then
        match Py.index (PyStr.split Str.SLASH k) 0 with
        | Raise e => Raise e
        | Ok first =>
            match PyStr.int first with
            | Raise e => Raise e
            | Ok n =>
                match ports proto rest with
                | Ok ns => Ok (n :: ns)
                | Raise e => Raise e
                end
            end
        end
      else ports proto rest
  end.

(** The body of [tcp_ports] and [udp_ports]: a key that is missing ends
    in [KeyError], which is caught; nothing else is, neither the
    [TypeError] of indexing null nor the [AttributeError] of asking null
    for its keys. *)
Definition exposed (proto : string) (self : t) : result (list Z) :=
  match image self with
  | None => Raise AttributeError
  | Some im =>
      match exposed_ports im with
      | NoContainerConfig | NoExposedPorts => Ok []
      | NullContainerConfig => Raise TypeError
      | Null => Raise AttributeError
      | Keys keys => ports proto keys
      end
  end.

(** [tcp_ports] *)
Definition tcp_ports (self : t) : result (list Z) := exposed "tcp" self.

(** [udp_ports] *)
Definition udp_ports (self : t) : result (list Z) := exposed "udp" self.

(** [local_path] *)
Definition local_path (self : t) : result string :=
  match container self with
  | Some c => Ok ("/tmp/archr_mounts/" +:+ id c)
  | None => Raise AttributeError
  end.

Section Realpath.

(** [os.path.realpath], as the local file system resolves paths. *)
Variable realpath : string -> string.

(** [resolve_local_path] *)
Definition resolve_local_path (self : t) (path : string) : result string :=
  mount ← local_path self;
  let path :=
    if negb (Str.startswith mount path)
    then Str.os_path_join mount (PyStr.lstrip_slash path)
    else path in
  let real := realpath path in
  if negb (Str.startswith mount real)
  then Ok (Str.os_path_join mount (PyStr.lstrip_slash real))
  else Ok real.

End Realpath.

End DockerImageTarget.

(** ** Exposed ports as the Docker Engine names them *)

Module PortKeys.
Local Open Scope string_scope.

Inductive proto : Type := TCP | UDP | SCTP.

Definition name (p : proto) : string :=
  match p with
  | TCP => "tcp"
  | UDP => "udp"
  | SCTP => "sctp"
  end.

Definition is_tcp (p : proto) : bool :=
  match p with TCP => true | _ => false end.

Definition is_udp (p : proto) : bool :=
  match p with UDP => true | _ => false end.

(** The key of a port: its number, a slash, the protocol. *)
Definition key (e : nat * proto) : string :=
  Str.of_nat (fst e) +:+ "/" +:+ name (snd e).

(** The numbers of the ports of one kind, in order. *)
Definition numbers (kind : proto -> bool) (es : list (nat * proto)) : list Z :=
  map (fun e => Z.of_nat (fst e)) (List.filter (fun e => kind (snd e)) es).

End PortKeys.

(** * Properties *)

(** ** The matcher *)

Module ReFacts.
Section Facts.

Context {C : Type}.
Variable ceq : C -> C -> bool.
Variable dot : C -> bool.
Hypothesis ceq_eq : forall a c, ceq a c = true <-> a = c.

Abbreviation rmatch := (Re.rmatch ceq dot).
Abbreviation dotstar := (Re.dotstar (C:=C) dot).
Abbreviation strip := (Re.strip ceq).
Abbreviation dead_all := (Re.dead_all (C:=C)).
Abbreviation dead := (Re.dead (C:=C)).

Lemma strip_app l s : strip l (l ++ s) = Some s.
Proof.
  induction l as [|a l IH]; simpl; [reflexivity|].
  rewrite (proj2 (ceq_eq a a) eq_refl). exact IH.
Qed.

Lemma strip_inv l s s' : strip l s = Some s' -> s = l ++ s'.
Proof.
  revert s. induction l as [|a l IH]; intros s H; simpl in *.
  - congruence.
  - destruct s as [|c s]; [discriminate|].
    destruct (ceq a c) eqn:E; [|discriminate].
    apply ceq_eq in E. subst c. f_equal. auto.
Qed.

Lemma strip_head_ne a l c s : a <> c -> strip (a :: l) (c :: s) = None.
Proof.
  intros Hne. simpl. destruct (ceq a c) eqn:E; [|reflexivity].
  apply ceq_eq in E. contradiction.
Qed.

Lemma dotstar_inv k s cap gs :
  dotstar k s = Some (cap, gs) ->
  exists s', s = cap ++ s' /\ k s' = Some gs.
Proof.
  revert cap. induction s as [|c s IH]; intros cap H; simpl in H.
  - destruct (k []) eqn:E; simpl in H; [|discriminate].
    injection H as <- <-. exists []. auto.
  - assert (Hstop : option_map (pair []) (k (c :: s)) = Some (cap, gs) ->
                    exists s', c :: s = cap ++ s' /\ k s' = Some gs).
    { destruct (k (c :: s)) eqn:E; simpl; [|discriminate].
      intros [= <- <-]. exists (c :: s). auto. }
    destruct (dot c); [|auto].
    destruct (dotstar k s) as [[cap' gs']|] eqn:E; [|auto].
    injection H as <- <-.
    destruct (IH _ eq_refl) as (s' & -> & Hk).
    exists s'. auto.
Qed.

(** Where the continuation is dead, the star finds nothing. *)
Lemma dotstar_dead k v : dead_all k v -> dotstar k v = None.
Proof.
  induction v as [|c v IH]; simpl; intros [Hk Hd].
  - rewrite Hk. reflexivity.
  - rewrite (IH Hd), Hk. destruct (dot c); reflexivity.
Qed.

(** The greedy choice: the star takes [u] when the continuation accepts
    what follows and nothing behind. *)
Lemma dotstar_greedy k u v gs :
  forallb dot u = true -> k v = Some gs -> dead k v ->
  dotstar k (u ++ v) = Some (u, gs).
Proof.
  intros Hu Hk Hd. induction u as [|c u IH]; simpl in *.
  - destruct v as [|c v]; simpl.
    + rewrite Hk. reflexivity.
    + rewrite (dotstar_dead k v Hd), Hk. destruct (dot c); reflexivity.
  - apply andb_true_iff in Hu as [Hc Hu]. rewrite Hc, (IH Hu). reflexivity.
Qed.

(** A match needs every character of every literal of the pattern. *)
Lemma rmatch_needs p : forall s gs l c,
  rmatch p s = Some gs -> In (Re.Lit l) p -> In c l -> In c s.
Proof.
  induction p as [|it p IH]; intros s gs l c Hm Hin Hc; [destruct Hin|].
  destruct it as [l0|g|]; simpl in Hm.
  - destruct (strip l0 s) as [s'|] eqn:E; [|discriminate].
    apply strip_inv in E. subst s. apply in_or_app.
    destruct Hin as [[= ->]|Hin]; [left; exact Hc|].
    right. eapply IH; eauto.
  - destruct (dotstar (rmatch p) s) as [[cap gs']|] eqn:E; [|discriminate].
    apply dotstar_inv in E as (s' & -> & Hk).
    destruct Hin as [Hin|Hin]; [discriminate|].
    apply in_or_app. right. eapply IH; eauto.
  - destruct s; [|discriminate].
    destruct Hin as [Hin|Hin]; [discriminate|].
    eapply IH; eauto.
Qed.

Lemma rmatch_lacks p s l c :
  In (Re.Lit l) p -> In c l -> ~ In c s -> rmatch p s = None.
Proof.
  intros Hin Hc Hs. destruct (rmatch p s) eqn:E; [|reflexivity].
  exfalso. apply Hs. eapply rmatch_needs; eauto.
Qed.

(** A pattern that needs [c] is dead on text without [c]. *)
Lemma dead_all_lacks p l c v :
  In (Re.Lit l) p -> In c l -> ~ In c v -> dead_all (rmatch p) v.
Proof.
  intros Hin Hc. induction v as [|a v IH]; intros Hv; simpl.
  - split; [|exact I]. eapply rmatch_lacks; eauto.
  - split; [eapply rmatch_lacks; eauto|].
    apply IH. intros H. apply Hv. right. exact H.
Qed.

(** A pattern that starts with the character [a] is dead on text whose
    characters all differ from [a], up to where that text ends. *)
Lemma dead_all_heads a l p u v :
  Forall (fun c => a <> c) u ->
  dead_all (rmatch (Re.Lit (a :: l) :: p)) v ->
  dead_all (rmatch (Re.Lit (a :: l) :: p)) (u ++ v).
Proof.
  intros Hu Hv. induction Hu as [|c u Hc Hu IH]; [exact Hv|].
  split; [|exact IH].
  simpl. destruct (ceq a c) eqn:E; [|reflexivity].
  apply ceq_eq in E. contradiction.
Qed.

Lemma dead_cons k c v : dead_all k v -> dead k (c :: v).
Proof. intros H. exact H. Qed.

Lemma dead_all_cons k c v :
  k (c :: v) = None -> dead_all k v -> dead_all k (c :: v).
Proof. intros H1 H2. split; assumption. Qed.

Lemma rmatch_head_ne a l p c s :
  a <> c -> rmatch (Re.Lit (a :: l) :: p) (c :: s) = None.
Proof.
  intros Hne. simpl. destruct (ceq a c) eqn:E; [|reflexivity].
  apply ceq_eq in E. contradiction.
Qed.

Lemma rmatch_lit l p s : rmatch (Re.Lit l :: p) (l ++ s) = rmatch p s.
Proof. simpl. rewrite strip_app. reflexivity. Qed.

Lemma rmatch_star g p u v gs :
  forallb dot u = true -> rmatch p v = Some gs -> dead (rmatch p) v ->
  rmatch (Re.DotStar g :: p) (u ++ v)
  = Some (match g with Some name => (name, u) :: gs | None => gs end).
Proof.
  intros Hu Hk Hd. simpl.
  rewrite (dotstar_greedy (rmatch p) u v gs Hu Hk Hd). reflexivity.
Qed.

End Facts.
End ReFacts.

(** ** Bytes *)

Module BytesFacts.
Import TraceLog.

Lemma byte_eqb_eq (a c : byte) : Byte.eqb a c = true <-> a = c.
Proof.
  split; [apply Byte.byte_dec_bl|apply Byte.byte_dec_lb].
Qed.

Lemma byte_eqb_refl (a : byte) : Byte.eqb a a = true.
Proof. apply byte_eqb_eq. reflexivity. Qed.

Lemma absent_not_In c s : absent c s = true -> ~ In c s.
Proof.
  unfold absent. intros H Hin.
  rewrite forallb_forall in H. specialize (H c Hin).
  rewrite byte_eqb_refl in H. discriminate.
Qed.

Lemma absent_Forall c s : absent c s = true -> Forall (fun x => c <> x) s.
Proof.
  intros H. apply List.Forall_forall. intros x Hx ->.
  exact (absent_not_In _ _ H Hx).
Qed.

Lemma absent_app c s s' : absent c (s ++ s') = absent c s && absent c s'.
Proof. unfold absent. apply forallb_app. Qed.

Lemma absent_dot s : absent Py.NL s = true -> forallb bytes_dot s = true.
Proof. intros H. exact H. Qed.

Lemma one_line_dot s : one_line s = true -> forallb bytes_dot s = true.
Proof.
  unfold one_line. intros H. apply andb_true_iff in H as [H _]. exact H.
Qed.

Lemma hexdigit_hexish d : hexish (hexdigit d) = true.
Proof.
  unfold hexdigit. generalize (Z.to_nat d). intros n.
  do 17 (destruct n as [|n]; [reflexivity|]). reflexivity.
Qed.

Lemma hex_hexish f n : forallb hexish (hex f n) = true.
Proof.
  unfold hex. rewrite !forallb_app. repeat (apply andb_true_iff; split).
  - destruct (with_0x f); reflexivity.
  - induction (zero_pad f) as [|k IH]; simpl; [reflexivity|exact IH].
  - induction (hex_digits n) as [|d ds IH]; simpl; [reflexivity|].
    rewrite hexdigit_hexish. exact IH.
Qed.

(** Text of such bytes holds no byte of another kind. *)
Lemma hexish_absent c s :
  hexish c = false -> forallb hexish s = true -> absent c s = true.
Proof.
  intros Hc Hs. unfold absent. rewrite forallb_forall in *.
  intros x Hx. specialize (Hs x Hx).
  destruct (Byte.eqb x c) eqn:E; [|reflexivity].
  apply byte_eqb_eq in E. subst x. congruence.
Qed.

Lemma hex_absent c f n : hexish c = false -> absent c (hex f n) = true.
Proof. intros Hc. apply hexish_absent; [exact Hc|apply hex_hexish]. Qed.

End BytesFacts.

(** ** The two trace patterns on the lines of the emulator *)

Module PatternFacts.
Import TraceLog BytesFacts.

Abbreviation dead_all := (Re.dead_all (C:=byte)).
Abbreviation dead := (Re.dead (C:=byte)).
Abbreviation brmatch := (Re.rmatch Byte.eqb bytes_dot).

Lemma lit l p s : brmatch (Re.Lit l :: p) (l ++ s) = brmatch p s.
Proof. apply ReFacts.rmatch_lit, byte_eqb_eq. Qed.

Lemma star g p u v gs :
  forallb bytes_dot u = true -> brmatch p v = Some gs ->
  dead (brmatch p) v ->
  brmatch (Re.DotStar g :: p) (u ++ v)
  = Some (match g with Some name => (name, u) :: gs | None => gs end).
Proof. apply ReFacts.rmatch_star. Qed.

Lemma lacks p l c v :
  In (Re.Lit l) p -> In c l -> absent c v = true -> dead_all (brmatch p) v.
Proof.
  intros Hin Hc Hv.
  apply (ReFacts.dead_all_lacks Byte.eqb bytes_dot byte_eqb_eq p l c);
    auto using absent_not_In.
Qed.

Lemma heads a l p u v :
  absent a u = true ->
  dead_all (brmatch (Re.Lit (a :: l) :: p)) v ->
  dead_all (brmatch (Re.Lit (a :: l) :: p)) (u ++ v).
Proof.
  intros Hu. apply ReFacts.dead_all_heads; auto using byte_eqb_eq, absent_Forall.
Qed.

Lemma tail_match post :
  one_line post = true -> brmatch tail_re (B "]" ++ post) = Some [].
Proof.
  intros Hp. unfold tail_re. rewrite lit.
  rewrite <- (app_nil_r post).
  apply (star None [] post [] []); auto using one_line_dot.
  exact I.
Qed.

Lemma well_formed_inv cgc e :
  well_formed cgc e = true ->
  0 <= addr e /\ one_line (pre e) = true /\ one_line (post e) = true
  /\ absent "]"%byte (post e) = true
  /\ (cgc = false ->
      one_line (something1 e) = true /\ one_line (flags e) = true
      /\ absent " "%byte (something1 e) = true
      /\ absent "/"%byte (flags e) = true
      /\ absent "/"%byte (post e) = true).
Proof.
  unfold well_formed. intros H.
  repeat (apply andb_true_iff in H as [H ?]).
  apply Z.leb_le in H. repeat (split; [assumption|]).
  intros ->. simpl in *.
  repeat match goal with
         | X : _ && _ = true |- _ => apply andb_true_iff in X as [X ?]
         end.
  auto.
Qed.

Lemma head_ne a l p c s :
  Byte.eqb a c = false -> brmatch (Re.Lit (a :: l) :: p) (c :: s) = None.
Proof.
  intros H. apply ReFacts.rmatch_head_ne; [apply byte_eqb_eq|].
  intros ->. rewrite byte_eqb_refl in H. discriminate.
Qed.

Ltac expose :=
  change (B "]") with ["]"%byte];
  change (B "/") with ["/"%byte];
  change (B " [") with [" "%byte; "["%byte];
  cbn [app].

Ltac needs_lit := repeat (first [left; reflexivity | right]).

Lemma old_match e :
  well_formed true e = true ->
  exists m, re_match _trace_old_re (render_old e) = Some m
            /\ Re.group "addr" m = Some (hex (addr_fmt e) (addr e)).
Proof.
  intros H. apply well_formed_inv in H as (_ & Hpre & Hpost & Hbr & _).
  set (h := hex (addr_fmt e) (addr e)).
  exists [("1"%string, pre e); ("addr"%string, h)].
  split; [|reflexivity].
  unfold re_match, _trace_old_re, render_old. fold h.
  rewrite lit.
  apply (star (Some "1"%string)); [auto using one_line_dot| |].
  - rewrite lit. apply (star (Some "addr"%string)).
    + apply absent_dot, hex_absent. reflexivity.
    + apply tail_match, Hpost.
    + expose. apply ReFacts.dead_cons.
      apply (lacks _ ["]"%byte] "]"%byte); [needs_lit|needs_lit|exact Hbr].
  - expose. apply ReFacts.dead_cons.
    apply ReFacts.dead_all_cons; [apply head_ne; reflexivity|].
    apply heads; [apply hex_absent; reflexivity|].
    apply ReFacts.dead_all_cons; [apply head_ne; reflexivity|].
    apply (lacks _ ["]"%byte] "]"%byte); [needs_lit|needs_lit|exact Hbr].
Qed.

Lemma new_match e :
  well_formed false e = true ->
  exists m, re_match _trace_new_re (render_new e) = Some m
            /\ Re.group "addr" m = Some (hex (addr_fmt e) (addr e)).
Proof.
  intros H.
  apply well_formed_inv in H as (_ & Hpre & Hpost & Hbr & H).
  destruct (H eq_refl) as (Hs1 & Hfl & Hsp & Hfs & Hps). clear H.
  set (h := hex (addr_fmt e) (addr e)).
  assert (Hslash : absent "/"%byte (flags e ++ "]"%byte :: post e) = true).
  { rewrite absent_app, Hfs. simpl. exact Hps. }
  exists [("1"%string, pre e); ("something1"%string, something1 e);
          ("addr"%string, h); ("flags"%string, flags e)].
  split; [|reflexivity].
  unfold re_match, _trace_new_re, render_new. fold h.
  rewrite lit.
  apply (star (Some "1"%string)); [auto using one_line_dot| |].
  - rewrite lit. apply (star (Some "something1"%string));
      [auto using one_line_dot| |].
    + rewrite lit. apply (star (Some "addr"%string)).
      * apply absent_dot, hex_absent. reflexivity.
      * rewrite lit. apply (star (Some "flags"%string));
          [auto using one_line_dot|apply tail_match, Hpost|].
        expose. apply ReFacts.dead_cons.
        apply (lacks _ ["]"%byte] "]"%byte); [needs_lit|needs_lit|exact Hbr].
      * expose. apply ReFacts.dead_cons.
        apply (lacks _ ["/"%byte] "/"%byte); [needs_lit|needs_lit|exact Hslash].
    + expose. apply ReFacts.dead_cons.
      apply heads; [apply hex_absent; reflexivity|].
      apply ReFacts.dead_all_cons.
      * change ("/"%byte :: flags e ++ "]"%byte :: post e)
          with (["/"%byte] ++ flags e ++ "]"%byte :: post e).
        rewrite lit.
        apply (ReFacts.rmatch_lacks Byte.eqb bytes_dot byte_eqb_eq _ _ ["/"%byte] "/"%byte);
          [needs_lit|needs_lit|apply absent_not_In, Hslash].
      * apply (lacks _ ["/"%byte] "/"%byte); [needs_lit|needs_lit|exact Hslash].
  - expose. apply ReFacts.dead_cons.
    apply ReFacts.dead_all_cons; [apply head_ne; reflexivity|].
    apply heads; [exact Hsp|].
    apply ReFacts.dead_all_cons; [apply head_ne; reflexivity|].
    apply heads; [apply hex_absent; reflexivity|].
    apply ReFacts.dead_all_cons; [apply head_ne; reflexivity|].
    apply (lacks _ ["/"%byte] "/"%byte); [needs_lit|needs_lit|exact Hslash].
Qed.

End PatternFacts.

(** ** Printed numbers read back *)

Module HexFacts.
Import TraceLog BytesFacts.

Lemma digit_cases d :
  digit d ->
  d = 0 \/ d = 1 \/ d = 2 \/ d = 3 \/ d = 4 \/ d = 5 \/ d = 6 \/ d = 7 \/
  d = 8 \/ d = 9 \/ d = 10 \/ d = 11 \/ d = 12 \/ d = 13 \/ d = 14 \/ d = 15.
Proof. unfold digit. lia. Qed.

Lemma hexval_hexdigit d : digit d -> Py.hexval (hexdigit d) = Some d.
Proof.
  intros H. apply digit_cases in H.
  repeat (destruct H as [->|H]; [reflexivity|]). subst d. reflexivity.
Qed.

Lemma hexdigit_not_underscore d :
  Byte.eqb (hexdigit d) Py.UNDERSCORE = false.
Proof.
  pose proof (hexdigit_hexish d) as H.
  destruct (Byte.eqb (hexdigit d) Py.UNDERSCORE) eqn:E; [|reflexivity].
  apply byte_eqb_eq in E. rewrite E in H. discriminate.
Qed.

Lemma scan_digits_all ds : forall n acc,
  Forall digit ds ->
  Py.scan_digits false n acc (map hexdigit ds)
  = match (n + length ds)%nat with
    | O => None
    | S _ => Some (value ds acc, [])
    end.
Proof.
  induction ds as [|d ds IH]; intros n acc Hds; simpl.
  - rewrite Nat.add_0_r. reflexivity.
  - inversion Hds as [|? ? Hd Hds']; subst.
    rewrite hexdigit_not_underscore, (hexval_hexdigit d Hd), (IH _ _ Hds').
    rewrite Nat.add_succ_r. reflexivity.
Qed.

Lemma hex_lsd_value fuel : forall n,
  0 <= n < 2 ^ Z.of_nat fuel ->
  fold_right (fun d a => a * 16 + d) 0 (hex_lsd fuel n) = n
  /\ Forall digit (hex_lsd fuel n).
Proof.
  induction fuel as [|fuel IH]; intros n Hn.
  - simpl in *. split; [lia|constructor].
  - cbn [hex_lsd]. destruct (n <? 16) eqn:E.
    + apply Z.ltb_lt in E. simpl. split; [lia|].
      constructor; [unfold digit; lia|constructor].
    + apply Z.ltb_ge in E.
      assert (Hq : 0 <= n / 16 < 2 ^ Z.of_nat fuel).
      { split; [apply Z.div_pos; lia|].
        apply Z.div_lt_upper_bound; [lia|].
        rewrite Nat2Z.inj_succ, Z.pow_succ_r in Hn by lia.
        assert (0 < 2 ^ Z.of_nat fuel) by (apply Z.pow_pos_nonneg; lia).
        lia. }
      destruct (IH _ Hq) as [Hv Hd]. simpl. rewrite Hv. split.
      * pose proof (Z.div_mod n 16). lia.
      * constructor; [|exact Hd].
        unfold digit. apply Z.mod_pos_bound. lia.
Qed.

Lemma hex_digits_value n :
  0 <= n -> value (hex_digits n) 0 = n /\ Forall digit (hex_digits n).
Proof.
  intros Hn. unfold hex_digits, value.
  set (fuel := S (Z.to_nat (Z.log2 n))).
  assert (Hb : 0 <= n < 2 ^ Z.of_nat fuel).
  { split; [exact Hn|]. unfold fuel.
    rewrite Nat2Z.inj_succ, Z2Nat.id by apply Z.log2_nonneg.
    destruct (Z.eq_dec n 0) as [->|Hne]; [reflexivity|].
    apply Z.log2_spec. lia. }
  destruct (hex_lsd_value fuel n Hb) as [Hv Hd]. split.
  - rewrite <- Hv at 2. symmetry.
    rewrite <- (rev_involutive (hex_lsd fuel n)) at 1.
    apply fold_left_rev_right.
  - apply Forall_rev. exact Hd.
Qed.

Lemma hex_digits_nonempty n : hex_digits n <> [].
Proof.
  unfold hex_digits. cbn [hex_lsd].
  destruct (n <? 16); intros H; apply (f_equal (@length Z)) in H;
    rewrite length_rev in H; discriminate.
Qed.

Lemma value_zeros k ds : value (repeat 0 k ++ ds) 0 = value ds 0.
Proof.
  unfold value. rewrite fold_left_app. f_equal.
  induction k as [|k IH]; simpl; [reflexivity|exact IH].
Qed.

Lemma hexish_not_space c : hexish c = true -> Py.isspace c = false.
Proof. destruct c; try reflexivity; discriminate. Qed.

Lemma hexish_not_sign c :
  hexish c = true -> Byte.eqb c "+"%byte = false /\ Byte.eqb c "-"%byte = false.
Proof. destruct c; try (split; reflexivity); discriminate. Qed.

Lemma hexdigit_not_x d :
  Byte.eqb (hexdigit d) "x"%byte || Byte.eqb (hexdigit d) "X"%byte = false.
Proof.
  unfold hexdigit. generalize (Z.to_nat d). intros n.
  do 17 (destruct n as [|n]; [reflexivity|]). reflexivity.
Qed.

Lemma hex_padded f n :
  hex f n = (if with_0x f then B "0x" else []) ++ map hexdigit (padded f n).
Proof.
  unfold hex, padded. rewrite map_app. do 2 f_equal.
  induction (zero_pad f) as [|k IH]; simpl; [reflexivity|].
  f_equal. exact IH.
Qed.

Lemma padded_facts f n :
  0 <= n ->
  value (padded f n) 0 = n /\ Forall digit (padded f n) /\ padded f n <> [].
Proof.
  intros Hn. destruct (hex_digits_value n Hn) as [Hv Hd].
  unfold padded. rewrite value_zeros. split; [exact Hv|]. split.
  - apply Forall_app. split; [|exact Hd].
    induction (zero_pad f) as [|k IH]; simpl; constructor;
      [unfold digit; lia|exact IH].
  - intros H. apply app_eq_nil in H as [_ H].
    exact (hex_digits_nonempty n H).
Qed.

Lemma skip_0x_digits ds : Py.skip_0x (map hexdigit ds) = map hexdigit ds.
Proof.
  destruct ds as [|d0 [|d1 ds']]; try reflexivity.
  cbn [map Py.skip_0x]. rewrite hexdigit_not_x, andb_false_r. reflexivity.
Qed.

Lemma skip_0x_prefixed ds :
  ds <> [] -> Py.skip_0x (B "0x" ++ map hexdigit ds) = map hexdigit ds.
Proof.
  destruct ds as [|d ds']; [contradiction|]. intros _.
  change (B "0x") with ["0"%byte; "x"%byte].
  cbn [app map Py.skip_0x Byte.eqb]. cbn [andb orb].
  rewrite hexdigit_not_underscore. reflexivity.
Qed.

Lemma magnitude_skipped s ds :
  Py.skip_0x s = map hexdigit ds -> Forall digit ds -> ds <> [] ->
  Py.int16_magnitude s = Some (value ds 0).
Proof.
  intros Hs Hd Hne. unfold Py.int16_magnitude. rewrite Hs.
  destruct ds as [|d ds']; [contradiction|].
  cbn [map]. rewrite hexdigit_not_underscore.
  change (hexdigit d :: map hexdigit ds') with (map hexdigit (d :: ds')).
  rewrite (scan_digits_all _ _ _ Hd). reflexivity.
Qed.

Lemma magnitude_hex f n :
  0 <= n -> Py.int16_magnitude (hex f n) = Some n.
Proof.
  intros Hn. destruct (padded_facts f n Hn) as (Hv & Hd & Hne).
  rewrite <- Hv at 2. rewrite hex_padded.
  apply magnitude_skipped; try assumption.
  destruct (with_0x f).
  - apply skip_0x_prefixed. exact Hne.
  - apply skip_0x_digits.
Qed.

Lemma hex_nonempty f n : exists c s, hex f n = c :: s /\ hexish c = true.
Proof.
  pose proof (hex_hexish f n) as H.
  destruct (hex f n) as [|c s] eqn:E.
  - exfalso. unfold hex in E.
    apply app_eq_nil in E as [_ E]. apply app_eq_nil in E as [_ E].
    apply map_eq_nil in E. exact (hex_digits_nonempty n E).
  - exists c, s. simpl in H. apply andb_true_iff in H as [H _]. auto.
Qed.

(** [int(s, 16)] reads a printed number back. *)
Lemma int16_hex f n : 0 <= n -> Py.int16 (hex f n) = Ok n.
Proof.
  intros Hn. unfold Py.int16.
  destruct (hex_nonempty f n) as (c & s & E & Hc).
  pose proof (magnitude_hex f n Hn) as Hm. rewrite E in *.
  cbn [Py.lstrip]. rewrite (hexish_not_space c Hc).
  unfold Py.take_sign.
  destruct (hexish_not_sign c Hc) as [-> ->].
  rewrite Hm. reflexivity.
Qed.

End HexFacts.

(** ** Lines and fields *)

Module LineFacts.
Import TraceLog BytesFacts HexFacts.

Lemma one_line_inv_cons c s :
  one_line (c :: s) = true ->
  Byte.eqb c Py.NL = false /\ Byte.eqb c Py.CR = false /\ one_line s = true.
Proof.
  unfold one_line, absent. simpl. intros H.
  apply andb_true_iff in H as [H1 H2].
  apply andb_true_iff in H1 as [H1 H1'].
  apply andb_true_iff in H2 as [H2 H2'].
  apply negb_true_iff in H1, H2. rewrite H1', H2'. auto.
Qed.

Lemma one_line_app s s' : one_line (s ++ s') = one_line s && one_line s'.
Proof.
  unfold one_line. rewrite !absent_app.
  destruct (absent Py.NL s), (absent Py.NL s'), (absent Py.CR s); reflexivity.
Qed.

Lemma splitlines_from_line l : forall cur rest,
  one_line l = true ->
  Py.splitlines_from cur (l ++ Py.NL :: rest)
  = (rev cur ++ l) :: Py.splitlines_from [] rest.
Proof.
  induction l as [|c l IH]; intros cur rest Hl.
  - simpl. rewrite app_nil_r. reflexivity.
  - apply one_line_inv_cons in Hl as (Hn & Hc & Hl).
    cbn [app Py.splitlines_from]. rewrite Hn, Hc, (IH _ _ Hl).
    simpl. rewrite <- app_assoc. reflexivity.
Qed.

(** Splitting what was joined gives the lines back. *)
Lemma splitlines_unlines ls :
  Forall (fun l => one_line l = true) ls -> Py.splitlines (unlines ls) = ls.
Proof.
  unfold Py.splitlines, unlines.
  induction 1 as [|l ls Hl _ IH]; [reflexivity|].
  cbn [map concat]. rewrite <- app_assoc. cbn [app].
  rewrite (splitlines_from_line l [] _ Hl), IH. reflexivity.
Qed.

Lemma startswith_app l s : Py.startswith l (l ++ s) = true.
Proof.
  induction l as [|c l IH]; [reflexivity|].
  simpl. rewrite byte_eqb_refl. exact IH.
Qed.

Lemma split_from_field u : forall cur s,
  forallb (fun c => negb (Py.isspace c)) u = true ->
  Py.split_from cur (u ++ s) = Py.split_from (rev u ++ cur) s.
Proof.
  induction u as [|c u IH]; intros cur s Hu; [reflexivity|].
  simpl in Hu. apply andb_true_iff in Hu as [Hc Hu].
  apply negb_true_iff in Hc.
  cbn [app Py.split_from]. rewrite Hc, (IH _ _ Hu).
  simpl. rewrite <- app_assoc. reflexivity.
Qed.

Lemma split_from_blanks k s :
  Py.split_from [] (repeat " "%byte k ++ s) = Py.split_from [] s.
Proof. induction k as [|k IH]; [reflexivity|exact IH]. Qed.

Lemma hexish_field s :
  forallb hexish s = true -> forallb (fun c => negb (Py.isspace c)) s = true.
Proof.
  intros H. rewrite forallb_forall in *. intros c Hc.
  rewrite (hexish_not_space c (H c Hc)). reflexivity.
Qed.

Lemma split_from_blank cur s :
  cur <> [] ->
  Py.split_from cur (" "%byte :: s) = rev cur :: Py.split_from [] s.
Proof. destruct cur; [contradiction|reflexivity]. Qed.

Lemma split_from_end cur : cur <> [] -> Py.split_from cur [] = [rev cur].
Proof. destruct cur; [contradiction|reflexivity]. Qed.

Lemma rev_nonempty {A : Type} (l : list A) : l <> [] -> rev l <> [].
Proof.
  intros H E. apply H. rewrite <- (rev_involutive l), E. reflexivity.
Qed.

(** Two fields with blanks between them. *)
Lemma split_two_fields u v k :
  forallb (fun c => negb (Py.isspace c)) u = true -> u <> [] ->
  forallb (fun c => negb (Py.isspace c)) v = true -> v <> [] ->
  Py.split (u ++ repeat " "%byte (S k) ++ v) = [u; v].
Proof.
  intros Hu Hun Hv Hvn. unfold Py.split.
  rewrite (split_from_field u [] _ Hu), app_nil_r.
  cbn [repeat app].
  rewrite split_from_blank by (apply rev_nonempty, Hun).
  rewrite split_from_blanks, rev_involutive.
  rewrite <- (app_nil_r v) at 1.
  rewrite (split_from_field v [] _ Hv), app_nil_r.
  rewrite split_from_end by (apply rev_nonempty, Hvn).
  rewrite rev_involutive. reflexivity.
Qed.

(** The fields of the load-base line. *)
Lemma split_start_code_line k f base :
  Py.split (start_code_line k f base) = [B "start_code"; hex f base].
Proof.
  unfold start_code_line. apply split_two_fields.
  - reflexivity.
  - discriminate.
  - apply hexish_field, hex_hexish.
  - destruct (hex_nonempty f base) as (c & s & -> & _). discriminate.
Qed.

Lemma one_line_hex f n : one_line (hex f n) = true.
Proof.
  unfold one_line. rewrite !hex_absent by reflexivity. reflexivity.
Qed.

Lemma one_line_blanks k : one_line (repeat " "%byte k) = true.
Proof. induction k as [|k IH]; [reflexivity|exact IH]. Qed.

Lemma one_line_start_code_line k f base :
  one_line (start_code_line k f base) = true.
Proof.
  unfold start_code_line.
  rewrite !one_line_app, one_line_hex, one_line_blanks. reflexivity.
Qed.

Lemma one_line_render cgc e :
  well_formed cgc e = true -> one_line (render cgc e) = true.
Proof.
  intros H. apply PatternFacts.well_formed_inv in H as (_ & Hpre & Hpost & _ & H).
  destruct cgc; unfold render, render_old, render_new.
  - rewrite !one_line_app, one_line_hex, Hpre, Hpost. reflexivity.
  - destruct (H eq_refl) as (Hs & Hf & _).
    rewrite !one_line_app, one_line_hex, Hpre, Hpost, Hs, Hf. reflexivity.
Qed.

End LineFacts.

(** ** The parser on a trace file *)

Module ParseFacts.
Import TraceLog BytesFacts HexFacts LineFacts QEMUTracerBow.

Lemma select_trace_re_cgc self :
  select_trace_re self = if is_cgc self then _trace_old_re else _trace_new_re.
Proof. reflexivity. Qed.

Lemma render_startswith cgc e : Py.startswith (B "Trace ") (render cgc e) = true.
Proof. destruct cgc; apply startswith_app. Qed.

Lemma render_match self e :
  well_formed (is_cgc self) e = true ->
  exists m, re_match (select_trace_re self) (render (is_cgc self) e) = Some m
            /\ Re.group "addr" m = Some (hex (addr_fmt e) (addr e)).
Proof.
  rewrite select_trace_re_cgc. unfold render.
  destruct (is_cgc self).
  - apply PatternFacts.old_match.
  - apply PatternFacts.new_match.
Qed.

(** Every well-formed line yields its address, in order. *)
Lemma trace_entries_rendered self es :
  Forall (fun e => well_formed (is_cgc self) e = true) es ->
  trace_entries (select_trace_re self) (map (render (is_cgc self)) es)
  = Ok (map addr es).
Proof.
  induction 1 as [|e es He _ IH]; [reflexivity|].
  cbn [map trace_entries]. rewrite render_startswith.
  destruct (render_match self e He) as (m & -> & ->).
  apply PatternFacts.well_formed_inv in He as (Ha & _).
  rewrite (int16_hex _ _ Ha), IH. reflexivity.
Qed.

Lemma next_start_code_line k f base rest :
  next_start_code (start_code_line k f base :: rest) = Ok (hex f base, rest).
Proof.
  cbn [next_start_code].
  unfold start_code_line at 1. rewrite startswith_app.
  rewrite split_start_code_line. reflexivity.
Qed.

Lemma splitlines_trace_file cgc k f base es :
  Forall (fun e => well_formed cgc e = true) es ->
  Py.splitlines (trace_file cgc k f base es)
  = start_code_line k f base :: map (render cgc) es.
Proof.
  intros H. apply splitlines_unlines. constructor.
  - apply one_line_start_code_line.
  - apply Forall_map. eapply Forall_impl; [exact H|].
    intros e. apply one_line_render.
Qed.

(** The parser on a trace file of well-formed entries. *)
Lemma read_trace_file self k f base es :
  0 <= base ->
  Forall (fun e => well_formed (is_cgc self) e = true) es ->
  read_trace self (trace_file (is_cgc self) k f base es)
  = Ok (base, map addr es).
Proof.
  intros Hb Hes. unfold read_trace.
  rewrite (splitlines_trace_file _ _ _ _ _ Hes), next_start_code_line.
  cbn. rewrite (int16_hex _ _ Hb). cbn.
  rewrite (trace_entries_rendered self es Hes). reflexivity.
Qed.

Lemma parse_trace_file self k f base es r :
  0 <= base ->
  Forall (fun e => well_formed (is_cgc self) e = true) es ->
  parse_trace self (trace_file (is_cgc self) k f base es) r
  = Ok (set_trace (set_base_address r (Some base)) (Some (map addr es))).
Proof.
  intros Hb Hes. unfold parse_trace.
  rewrite (read_trace_file _ _ _ _ _ Hb Hes). reflexivity.
Qed.

End ParseFacts.

(** The parser where the trace file is not as expected. *)

(** Without a load-base line, [next] finds nothing (inside the generator
    [fire_context], Python 3.7 and later report this as a [RuntimeError]). *)
Example no_start_code_line :
  QEMUTracerBow.read_trace Scenario.linux
    (TraceLog.unlines [B "Trace 0: 0x7f3c [0000/0000000000401000/0x40b0] "])
  = Raise StopIteration.
Proof. vm_compute. reflexivity. Qed.

(** A load-base line without an address has no second field. *)
Example bare_start_code_line :
  QEMUTracerBow.read_trace Scenario.linux (TraceLog.unlines [B "start_code"])
  = Raise IndexError.
Proof. vm_compute. reflexivity. Qed.

(** A line of the CGC format under the general pattern does not match. *)
Example old_line_under_new_pattern :
  QEMUTracerBow.read_trace Scenario.linux
    (TraceLog.unlines [B "start_code 0x400000"; B "Trace 0x7f3c [0x401000]"])
  = Raise AttributeError.
Proof. vm_compute. reflexivity. Qed.

(** The same line under the pattern of the CGC emulator. *)
Example old_line_under_old_pattern :
  QEMUTracerBow.read_trace Scenario.cgc
    (TraceLog.unlines [B "start_code 0x400000"; B "Trace 0x7f3c [0x401000]"])
  = Ok (4194304, [4198400]).
Proof. vm_compute. reflexivity. Qed.

(** An address that is no number in base 16. *)
Example bad_address :
  QEMUTracerBow.read_trace Scenario.cgc
    (TraceLog.unlines [B "start_code 0x400000"; B "Trace 0x7f3c [here]"])
  = Raise ValueError.
Proof. vm_compute. reflexivity. Qed.

(** Trace lines in front of the load-base line are passed over, and so
    are lines that are no trace lines. *)
Example lines_passed_over :
  QEMUTracerBow.read_trace Scenario.cgc
    (TraceLog.unlines
       [ B "Trace 0x7f3c [0x400ff0]"; B "start_code 0x400000";
         B "host mmap_min_addr=0x10000"; B "Trace 0x7f3c [0x401000]" ])
  = Ok (4194304, [4198400]).
Proof. vm_compute. reflexivity. Qed.

(** ** The stages of a session *)

Module SessionFacts.
Import QEMUTracerBow.
Local Open Scope string_scope.

Lemma conclude_eq self o env tmpdir p r w :
  conclude self o env tmpdir p r w =
  match core_stage env tmpdir (local_core_filename o env) (status_stage p r) w with
  | (Ok r1, w1) =>
      match trace_stage self (target_trace_filename o env) r1 w1 with
      | (Ok r2, w2) => magic_stage (target_magic_filename o env) r2 w2
      | (Raise e, w2) => (Raise e, w2)
      end
  | (Raise e, w1) => (Raise e, w1)
  end.
Proof. reflexivity. Qed.

(** What leaves the generator. *)
Lemma pep479_ok {A : Type} (m : M A) w a w' :
  pep479 m w = (Ok a, w') <-> m w = (Ok a, w').
Proof.
  unfold pep479. destruct (m w) as [[a0|e] w0]; [reflexivity|].
  destruct e; split; discriminate.
Qed.

Lemma pep479_world {A : Type} (m : M A) w : snd (pep479 m w) = snd (m w).
Proof.
  unfold pep479. destruct (m w) as [[a0|e] w0]; [reflexivity|].
  destruct e; reflexivity.
Qed.

Lemma pep479_raise {A : Type} (m : M A) w e w' :
  m w = (Raise e, w') ->
  pep479 m w
  = (Raise (match e with StopIteration => RuntimeError | _ => e end), w').
Proof. unfold pep479. intros ->. destruct e; reflexivity. Qed.

(** The session, by how the body ended. *)
Lemma fire_context_eq self o env body w :
  fire_context self o env body w =
  let p := fst (body (started (target_cmd self o env))) in
  match body_outcome self o env body with
  | None =>
      pep479 (conclude self o env (target_tmpdir env) (reaped env p)
                (at_exit env p false)) w
  | Some TimeoutExpired =>
      pep479 (conclude self o env (target_tmpdir env) (reaped env p)
                (at_exit env p true)) w
  | Some (Other e) => (Raise e, w)
  end.
Proof.
  unfold fire_context, body_outcome, _target_mk_tmpdir, finally.
  unfold mbind, M_bind, bind, mret, M_ret, ret, raise.
  destruct (body (started (target_cmd self o env))) as [p [[|e]|]];
    cbn [fst snd].
  - change (set_process (set_timed_out (set_process TraceResults_new _) _) _)
      with (at_exit env p true).
    destruct (pep479 _ w); reflexivity.
  - reflexivity.
  - change (set_process (set_timed_out (set_process TraceResults_new _) _) _)
      with (at_exit env p false).
    destruct (pep479 _ w); reflexivity.
Qed.

Lemma trace_filename_truthy o env :
  record_trace o = true ->
  target_trace_filename o env = Some (tmp_prefix env +:+ ".trace")
  /\ Str.truthy (tmp_prefix env +:+ ".trace") = true.
Proof. unfold target_trace_filename. intros ->. split; reflexivity. Qed.

Lemma magic_filename_truthy o env :
  record_magic o = true ->
  target_magic_filename o env = Some (tmp_prefix env +:+ ".magic")
  /\ Str.truthy (tmp_prefix env +:+ ".magic") = true.
Proof. unfold target_magic_filename. intros ->. split; reflexivity. Qed.

Lemma core_filename_truthy o env :
  save_core o = true ->
  local_core_filename o env = Some (tmp_prefix env +:+ ".core")
  /\ Str.truthy (tmp_prefix env +:+ ".core") = true.
Proof. unfold local_core_filename. intros ->. split; reflexivity. Qed.

(** *** The trace stage *)

Lemma trace_stage_off self r w : trace_stage self None r w = (Ok r, w).
Proof. reflexivity. Qed.

Lemma trace_stage_on self f r w :
  Str.truthy f = true ->
  trace_stage self (Some f) r w =
  match target_files w !! f with
  | Some c => (rbind (parse_trace self c r) fault_address, w)
  | None => (Raise (NotFound f), w)
  end.
Proof.
  intros Hf. unfold trace_stage. rewrite Hf.
  unfold mbind, M_bind, bind, Target.retrieve_contents, lift.
  destruct (target_files w !! f) as [c|]; [|reflexivity].
  destruct (parse_trace self c r); reflexivity.
Qed.

Lemma trace_stage_world self tf r w : snd (trace_stage self tf r w) = w.
Proof.
  destruct tf as [f|]; [|reflexivity].
  destruct (Str.truthy f) eqn:Hf.
  - rewrite trace_stage_on by exact Hf.
    destruct (target_files w !! f); reflexivity.
  - unfold trace_stage. rewrite Hf. reflexivity.
Qed.

Lemma parse_trace_ok self c r r1 :
  parse_trace self c r = Ok r1 ->
  exists base entries,
    read_trace self c = Ok (base, entries)
    /\ r1 = set_trace (set_base_address r (Some base)) (Some entries).
Proof.
  unfold parse_trace, mbind, result_bind, rbind, mret, result_ret.
  destruct (read_trace self c) as [[base entries]|]; [|discriminate].
  intros [= <-]. eauto.
Qed.

Lemma fault_address_ok r1 r' :
  fault_address r1 = Ok r' ->
  (optb_truthy (crashed r1) = false /\ r' = r1)
  \/ (exists es last,
        optb_truthy (crashed r1) = true /\ trace r1 = Some es
        /\ Py.index_last es = Ok last
        /\ r' = set_crash_address r1 (Some last)).
Proof.
  unfold fault_address, mbind, result_bind, rbind, mret, result_ret.
  destruct (optb_truthy (crashed r1)); [|intros [= <-]; auto].
  destruct (trace r1) as [es|]; [|discriminate].
  destruct (Py.index_last es) as [last|] eqn:E; [|discriminate].
  intros [= <-]. right. exists es, last. auto.
Qed.

(** *** The magic stage *)

Lemma magic_stage_off r w : magic_stage None r w = (Ok r, w).
Proof. reflexivity. Qed.

Lemma magic_stage_on f r w :
  Str.truthy f = true ->
  magic_stage (Some f) r w =
  match target_files w !! f with
  | Some c =>
      if Nat.eqb (length c) 4096 then (Ok (set_magic_contents r (Some c)), w)
      else (Raise (ArchrError
             "Magic content read from QEMU improper size, should be a page in length"), w)
  | None => (Raise (NotFound f), w)
  end.
Proof.
  intros Hf. unfold magic_stage. rewrite Hf.
  unfold mbind, M_bind, bind, Target.retrieve_contents.
  destruct (target_files w !! f) as [c|]; [|reflexivity].
  destruct (Nat.eqb (length c) 4096); reflexivity.
Qed.

Lemma magic_stage_world mf r w : snd (magic_stage mf r w) = w.
Proof.
  destruct mf as [f|]; [|reflexivity].
  destruct (Str.truthy f) eqn:Hf.
  - rewrite magic_stage_on by exact Hf.
    destruct (target_files w !! f) as [c|]; [|reflexivity].
    destruct (Nat.eqb (length c) 4096); reflexivity.
  - unfold magic_stage. rewrite Hf. reflexivity.
Qed.

(** *** The core stage *)

Lemma core_stage_off env tmpdir r w : core_stage env tmpdir None r w = (Ok r, w).
Proof. reflexivity. Qed.

Lemma core_stage_on env tmpdir f r w :
  Str.truthy f = true ->
  core_stage env tmpdir (Some f) r w =
  let target_cores :=
    FS.glob (target_files w) (Str.os_path_join tmpdir "qemu_*.core") in
  if Nat.eqb (length target_cores) 1 then
    _local_mk_tmpdir (local_tmpdir env) (core_block target_cores f r) w
  else
    (Raise (ArchrError ("expected 1 core file but found "
                        +:+ Str.of_nat (length target_cores))), w).
Proof.
  intros Hf. unfold core_stage. rewrite Hf.
  unfold mbind at 1. unfold M_bind, bind at 1. unfold Target.resolve_glob.
  cbv zeta.
  destruct (Nat.eqb (length (FS.glob _ _)) 1); reflexivity.
Qed.

Lemma core_block_frame cores f r ltmp w r' w' :
  core_block cores f r ltmp w = (Ok r', w') ->
  r' = set_core_path r (Some f).
Proof.
  unfold core_block, mbind, M_bind, bind, lift, mret, M_ret, ret.
  destruct (Py.index cores 0) as [core|]; [|discriminate].
  destruct (Target.retrieve_into core ltmp w) as [[[]|] w1]; [|discriminate].
  unfold Local.glob.
  destruct (Py.index _ 0) as [src|]; [|discriminate].
  destruct (Local.move src f w1) as [[[]|] w2]; [|discriminate].
  intros [= <- <-]. reflexivity.
Qed.

Lemma retrieve_into_target p d w : target_files (snd (Target.retrieve_into p d w)) = target_files w.
Proof.
  unfold Target.retrieve_into. destruct (target_files w !! p); reflexivity.
Qed.

Lemma move_target a c w : target_files (snd (Local.move a c w)) = target_files w.
Proof.
  unfold Local.move. destruct (local_files w !! a); reflexivity.
Qed.

Lemma core_block_target cores f r ltmp w :
  target_files (snd (core_block cores f r ltmp w)) = target_files w.
Proof.
  unfold core_block, mbind, M_bind, bind, lift, mret, M_ret, ret.
  destruct (Py.index cores 0) as [core|]; [|reflexivity].
  pose proof (retrieve_into_target core ltmp w) as H1.
  destruct (Target.retrieve_into core ltmp w) as [[[]|] w1]; [|exact H1].
  unfold Local.glob.
  destruct (Py.index _ 0) as [src|]; [|exact H1].
  pose proof (move_target src f w1) as H2.
  destruct (Local.move src f w1) as [[[]|] w2]; simpl in *; congruence.
Qed.

Lemma core_stage_target env tmpdir lcf r w :
  target_files (snd (core_stage env tmpdir lcf r w)) = target_files w.
Proof.
  destruct lcf as [f|]; [|reflexivity].
  destruct (Str.truthy f) eqn:Hf.
  - rewrite core_stage_on by exact Hf. cbv zeta.
    destruct (Nat.eqb _ 1); [|reflexivity].
    unfold _local_mk_tmpdir, finally.
    pose proof (core_block_target (FS.glob (target_files w)
                  (Str.os_path_join tmpdir "qemu_*.core")) f r (local_tmpdir env) w) as H.
    destruct (core_block _ f r (local_tmpdir env) w) as [x w1]. exact H.
  - unfold core_stage. rewrite Hf. reflexivity.
Qed.

Lemma core_stage_frame env tmpdir lcf r w r' w' :
  core_stage env tmpdir lcf r w = (Ok r', w') ->
  r' = set_core_path r (core_path r')
  /\ target_files w' = target_files w.
Proof.
  intros H. split.
  - destruct lcf as [f|]; [|injection H as <- <-; destruct r; reflexivity].
    destruct (Str.truthy f) eqn:Hf.
    + rewrite core_stage_on in H by exact Hf. cbv zeta in H.
      destruct (Nat.eqb _ 1); [|discriminate].
      unfold _local_mk_tmpdir, finally in H.
      destruct (core_block _ f r (local_tmpdir env) w) as [x w1] eqn:E.
      injection H as -> <-.
      apply core_block_frame in E. subst r'. reflexivity.
    + unfold core_stage in H. rewrite Hf in H.
      injection H as <- <-. destruct r; reflexivity.
  - pose proof (core_stage_target env tmpdir lcf r w) as Ht.
    rewrite H in Ht. exact Ht.
Qed.

(** *** What a stage that returns has done *)

Lemma trace_stage_ok self tf r1 w r2 w2 :
  trace_stage self tf r1 w = (Ok r2, w2) ->
  w2 = w /\
  ((Str.opt_truthy tf = false /\ r2 = r1)
   \/ (exists f c base es,
         tf = Some f /\ Str.truthy f = true
         /\ target_files w !! f = Some c
         /\ read_trace self c = Ok (base, es)
         /\ ((optb_truthy (crashed r1) = false
              /\ r2 = set_trace (set_base_address r1 (Some base)) (Some es))
             \/ (exists last,
                   optb_truthy (crashed r1) = true
                   /\ Py.index_last es = Ok last
                   /\ r2 = set_crash_address
                             (set_trace (set_base_address r1 (Some base)) (Some es))
                             (Some last))))).
Proof.
  intros H. pose proof (trace_stage_world self tf r1 w) as Hw.
  rewrite H in Hw. simpl in Hw. split; [exact Hw|]. subst w2.
  destruct tf as [f|]; [|left; injection H as <-; auto].
  destruct (Str.truthy f) eqn:Hf;
    [|unfold trace_stage in H; rewrite Hf in H; left;
      injection H as <-; simpl; auto].
  rewrite trace_stage_on in H by exact Hf.
  destruct (target_files w !! f) as [c|] eqn:Hc; [|discriminate].
  destruct (parse_trace self c r1) as [r1'|] eqn:Hp; [|discriminate].
  simpl in H. injection H as H.
  destruct (parse_trace_ok _ _ _ _ Hp) as (base & es & Hrd & ->).
  right. exists f, c, base, es. repeat (split; [auto; fail|]).
  apply fault_address_ok in H as [[Hn ->]|(es' & last & Hy & Ht & Hl & ->)].
  - left. auto.
  - right. simpl in Ht. injection Ht as <-. exists last. auto.
Qed.

Lemma magic_stage_ok mf r2 w r w' :
  magic_stage mf r2 w = (Ok r, w') ->
  w' = w /\
  ((Str.opt_truthy mf = false /\ r = r2)
   \/ (exists f c,
         mf = Some f /\ Str.truthy f = true
         /\ target_files w !! f = Some c /\ length c = 4096%nat
         /\ r = set_magic_contents r2 (Some c))).
Proof.
  intros H. pose proof (magic_stage_world mf r2 w) as Hw.
  rewrite H in Hw. simpl in Hw. split; [exact Hw|]. subst w'.
  destruct mf as [f|]; [|left; injection H as <-; auto].
  destruct (Str.truthy f) eqn:Hf;
    [|unfold magic_stage in H; rewrite Hf in H; left;
      injection H as <-; simpl; auto].
  rewrite magic_stage_on in H by exact Hf.
  destruct (target_files w !! f) as [c|] eqn:Hc; [|discriminate].
  destruct (Nat.eqb (length c) 4096) eqn:El; [|discriminate].
  injection H as <-. apply Nat.eqb_eq in El.
  right. exists f, c. auto.
Qed.

Lemma conclude_ok self o env tmpdir p r0 w r w' :
  conclude self o env tmpdir p r0 w = (Ok r, w') ->
  exists r1 r2,
    core_stage env tmpdir (local_core_filename o env) (status_stage p r0) w
    = (Ok r1, w')
    /\ trace_stage self (target_trace_filename o env) r1 w' = (Ok r2, w')
    /\ magic_stage (target_magic_filename o env) r2 w' = (Ok r, w').
Proof.
  rewrite conclude_eq.
  destruct (core_stage _ _ _ _ w) as [[r1|] w1] eqn:Hc; [|discriminate].
  destruct (trace_stage _ _ r1 w1) as [[r2|] w2] eqn:Ht; [|discriminate].
  intros Hm.
  pose proof (trace_stage_world self (target_trace_filename o env) r1 w1) as E1.
  rewrite Ht in E1. simpl in E1. subst w2.
  pose proof (magic_stage_world (target_magic_filename o env) r2 w1) as E2.
  rewrite Hm in E2. simpl in E2. subst w'.
  exists r1, r2. auto.
Qed.

Lemma fire_context_ok self o env body w r w' :
  fire_context self o env body w = (Ok r, w') ->
  exists timed : bool,
    body_outcome self o env body
    = (if timed then Some TimeoutExpired else None)
    /\ conclude self o env (target_tmpdir env)
         (reaped env (fst (body (started (target_cmd self o env)))))
         (at_exit env (fst (body (started (target_cmd self o env)))) timed) w
       = (Ok r, w').
Proof.
  rewrite fire_context_eq. cbv zeta.
  destruct (body_outcome self o env body) as [[|e]|].
  - intros H. apply (proj1 (pep479_ok _ _ _ _)) in H. exists true. auto.
  - discriminate.
  - intros H. apply (proj1 (pep479_ok _ _ _ _)) in H. exists false. auto.
Qed.

(** *** The status stage *)

Lemma py_in_segv rc :
  py_in (py_of_optZ rc) [PyInt 139; PyInt (-11)] = true
  <-> rc = Some 139 \/ rc = Some (-11).
Proof.
  destruct rc as [z|]; simpl.
  - rewrite orb_false_r, orb_true_iff, !Z.eqb_eq.
    split; intros [H|H]; first [left; congruence | right; congruence].
  - split; [discriminate|intros [H|H]; discriminate].
Qed.

(** An [int] or [None] never equals a list. *)
Lemma py_eq_list rc l : py_eq (py_of_optZ rc) (PyList l) = false.
Proof. destruct rc; reflexivity. Qed.

Lemma classify_segv r :
  returncode r = Some 139 \/ returncode r = Some (-11) ->
  classify r = set_signal (set_crashed r (Some true)) (Some SIGSEGV).
Proof.
  intros H. apply py_in_segv in H. unfold classify. rewrite H. reflexivity.
Qed.

Lemma classify_other r :
  returncode r <> Some 139 -> returncode r <> Some (-11) -> classify r = r.
Proof.
  intros H1 H2. unfold classify. rewrite py_eq_list.
  destruct (py_in _ _) eqn:E; [|reflexivity].
  apply py_in_segv in E as [E|E]; contradiction.
Qed.

Lemma status_stage_timed p env p' :
  status_stage p (at_exit env p' true) = at_exit env p' true.
Proof. reflexivity. Qed.

Lemma status_stage_completed p env p' :
  status_stage p (at_exit env p' false)
  = classify (set_returncode (at_exit env p' false) (p_returncode p)).
Proof. reflexivity. Qed.

End SessionFacts.

(** ** Exit-status classification *)

Module StatusFacts.
Import QEMUTracerBow SessionFacts.

(** What the status stage set stays as it is to the end of the session. *)
Lemma conclude_status self o env tmpdir p r0 w r w' :
  conclude self o env tmpdir p r0 w = (Ok r, w') ->
  let s := status_stage p r0 in
  returncode r = returncode s /\ signal r = signal s
  /\ crashed r = crashed s /\ timed_out r = timed_out s
  /\ process r = process s.
Proof.
  intros H. apply conclude_ok in H as (r1 & r2 & Hc & Ht & Hm).
  apply core_stage_frame in Hc as [Hc _].
  apply trace_stage_ok in Ht as [_ Ht].
  apply magic_stage_ok in Hm as [_ Hm].
  assert (E2 : returncode r = returncode r2 /\ signal r = signal r2
               /\ crashed r = crashed r2 /\ timed_out r = timed_out r2
               /\ process r = process r2).
  { destruct Hm as [[_ ->]|(f & c & _ & _ & _ & _ & ->)]; auto 10. }
  assert (E1 : returncode r2 = returncode r1 /\ signal r2 = signal r1
               /\ crashed r2 = crashed r1 /\ timed_out r2 = timed_out r1
               /\ process r2 = process r1).
  { destruct Ht as [[_ ->]|(f & c & base & es & _ & _ & _ & _ & Ht)];
      [auto 10|].
    destruct Ht as [[_ ->]|(last & _ & _ & ->)]; auto 10. }
  rewrite Hc in E1. simpl in E1. cbv zeta.
  intuition congruence.
Qed.

Lemma classify_cases r0 :
  (segv (returncode r0)
   /\ classify r0 = set_signal (set_crashed r0 (Some true)) (Some SIGSEGV))
  \/ (~ segv (returncode r0) /\ classify r0 = r0).
Proof.
  unfold classify. rewrite py_eq_list.
  destruct (py_in _ _) eqn:E.
  - left. split; [apply py_in_segv, E|reflexivity].
  - right. split; [|reflexivity].
    intros H. apply py_in_segv in H. congruence.
Qed.

(** The status of a session that returns a result: absent after a
    timeout; else the return code, and a crash with SIGSEGV exactly for
    139 and -11. *)
Lemma fire_context_status self o env body w r w' :
  fire_context self o env body w = (Ok r, w') ->
  exists timed : bool,
    body_outcome self o env body
    = (if timed then Some TimeoutExpired else None)
    /\ timed_out r = Some timed
    /\ (timed = true ->
        returncode r = None /\ signal r = None /\ crashed r = None)
    /\ (timed = false ->
        returncode r = proc_returncode env
        /\ ((segv (proc_returncode env)
             /\ crashed r = Some true /\ signal r = Some SIGSEGV)
            \/ (~ segv (proc_returncode env)
                /\ crashed r = None /\ signal r = None))).
Proof.
  intros H. apply fire_context_ok in H as (timed & Hb & H).
  apply conclude_status in H. cbv zeta in H.
  destruct H as (H1 & H2 & H3 & H4 & _).
  exists timed. split; [exact Hb|].
  destruct timed.
  - rewrite status_stage_timed in *. simpl in *.
    repeat split; auto; discriminate.
  - rewrite status_stage_completed in *.
    set (r0 := set_returncode _ _) in *.
    destruct (classify_cases r0) as [[Hs E]|[Hs E]]; rewrite E in *;
      simpl in *; (split; [exact H4|split; [discriminate|]]);
      intros _; (split; [exact H1|]); [left|right]; auto.
Qed.

End StatusFacts.

(** ** What the trace stage leaves in the result *)

Module TraceFacts.
Import QEMUTracerBow SessionFacts StatusFacts.
Local Open Scope string_scope.
Local Open Scope list_scope.

Lemma index_last_ok {A : Type} (l : list A) x :
  Py.index_last l = Ok x -> exists l', l = l' ++ [x].
Proof.
  unfold Py.index_last. destruct (rev l) as [|a t] eqn:E; [discriminate|].
  intros [= ->]. exists (rev t).
  rewrite <- (rev_involutive l), E. reflexivity.
Qed.

Lemma classify_keeps r0 :
  trace (classify r0) = trace r0
  /\ base_address (classify r0) = base_address r0
  /\ crash_address (classify r0) = crash_address r0
  /\ magic_contents (classify r0) = magic_contents r0.
Proof.
  destruct (classify_cases r0) as [[_ ->]|[_ ->]]; auto.
Qed.

Lemma status_stage_keeps p env p' timed :
  let s := status_stage p (at_exit env p' timed) in
  trace s = None /\ base_address s = None /\ crash_address s = None
  /\ magic_contents s = None.
Proof.
  destruct timed; cbv zeta.
  - rewrite status_stage_timed. auto.
  - rewrite status_stage_completed.
    destruct (classify_keeps (set_returncode (at_exit env p' false) (p_returncode p)))
      as (-> & -> & -> & ->). auto.
Qed.

(** The trace fields of a session that returns a result. *)
Lemma fire_context_trace self o env body w r w' :
  fire_context self o env body w = (Ok r, w') ->
  (record_trace o = false /\ trace r = None /\ base_address r = None
   /\ crash_address r = None)
  \/ (exists c base es,
        record_trace o = true
        /\ target_files w !! (tmp_prefix env +:+ ".trace") = Some c
        /\ read_trace self c = Ok (base, es)
        /\ trace r = Some es /\ base_address r = Some base
        /\ ((optb_truthy (crashed r) = false /\ crash_address r = None)
            \/ (exists last,
                  optb_truthy (crashed r) = true
                  /\ Py.index_last es = Ok last
                  /\ crash_address r = Some last))).
Proof.
  intros H. apply fire_context_ok in H as (timed & _ & H).
  apply conclude_ok in H as (r1 & r2 & Hc & Ht & Hm).
  pose proof (status_stage_keeps
                (reaped env (fst (body (started (target_cmd self o env)))))
                env (fst (body (started (target_cmd self o env)))) timed) as Hs.
  cbv zeta in Hs. destruct Hs as (Hs1 & Hs2 & Hs3 & _).
  apply core_stage_frame in Hc as [Hc Htf].
  assert (K1 : trace r1 = None /\ base_address r1 = None /\ crash_address r1 = None).
  { rewrite Hc. simpl. auto. }
  destruct K1 as (K1 & K2 & K3).
  apply trace_stage_ok in Ht as [_ Ht].
  apply magic_stage_ok in Hm as [_ Hm].
  assert (E : trace r = trace r2 /\ base_address r = base_address r2
              /\ crash_address r = crash_address r2 /\ crashed r = crashed r2).
  { destruct Hm as [[_ ->]|(f & c & _ & _ & _ & _ & ->)]; auto. }
  destruct E as (-> & -> & -> & ->).
  destruct Ht as [[Hoff ->]|(f & c & base & es & Hf & _ & Hc' & Hrd & Ht)].
  - left. unfold target_trace_filename in Hoff.
    destruct (record_trace o); [discriminate|]. auto.
  - right. unfold target_trace_filename in Hf.
    destruct (record_trace o); [|discriminate].
    injection Hf as <-. rewrite Htf in Hc'.
    exists c, base, es. repeat (split; [auto; fail|]).
    destruct Ht as [[Hn ->]|(last & Hy & Hl & ->)]; simpl.
    + repeat (split; [reflexivity|]). left. auto.
    + repeat (split; [reflexivity|]). right. exists last. auto.
Qed.

End TraceFacts.

(** ** The specification on the exit status *)

(** C5. A completed session whose process shows return code 139 or -11 is
    classified as a crash by a segmentation violation: the status stage
    sets [crashed = True] and [signal = SIGSEGV], and so they stand in
    every result the session returns. *)
Theorem C5_segv_is_a_crash
    (self : QEMUTracerBow.t) (o : FireOptions) (env : Env) (body : Body)
    (w : World) :
  QEMUTracerBow.body_outcome self o env body = None ->
  QEMUTracerBow.segv (proc_returncode env) ->
  (forall p,
     let s := QEMUTracerBow.status_stage (QEMUTracerBow.reaped env p)
                (QEMUTracerBow.at_exit env p false) in
     returncode s = proc_returncode env
     /\ crashed s = Some true /\ signal s = Some SIGSEGV)
  /\ (forall r w',
        QEMUTracerBow.fire_context self o env body w = (Ok r, w') ->
        timed_out r = Some false
        /\ crashed r = Some true /\ signal r = Some SIGSEGV).
Proof.
  intros Hb Hrc. split.
  - intros p. cbv zeta. rewrite SessionFacts.status_stage_completed.
    rewrite SessionFacts.classify_segv by exact Hrc. auto.
  - intros r w' H.
    apply StatusFacts.fire_context_status in H as (timed & Hb' & Ht & _ & H).
    rewrite Hb in Hb'. destruct timed; [discriminate|].
    destruct (H eq_refl) as (_ & [(_ & Hc & Hs)|(Hn & _)]); [auto|].
    contradiction.
Qed.

Lemma C5_segv_is_a_crash_witness :
  QEMUTracerBow.body_outcome Scenario.linux Scenario.only_trace
    (Scenario.env (Some 139)) Scenario.idle = None
  /\ QEMUTracerBow.segv (proc_returncode (Scenario.env (Some 139)))
  /\ exists r w',
       QEMUTracerBow.fire_context Scenario.linux Scenario.only_trace
         (Scenario.env (Some 139)) Scenario.idle
         (Scenario.traced Scenario.linux Scenario.two_blocks) = (Ok r, w')
       /\ timed_out r = Some false
       /\ crashed r = Some true /\ signal r = Some SIGSEGV.
Proof.
  split; [reflexivity|]. split; [left; reflexivity|].
  destruct (QEMUTracerBow.fire_context Scenario.linux Scenario.only_trace
              (Scenario.env (Some 139)) Scenario.idle
              (Scenario.traced Scenario.linux Scenario.two_blocks))
    as [[r|e] w'] eqn:E; [|vm_compute in E; discriminate].
  exists r, w'. split; [reflexivity|].
  exact (proj2 (C5_segv_is_a_crash Scenario.linux Scenario.only_trace
                  (Scenario.env (Some 139)) Scenario.idle
                  (Scenario.traced Scenario.linux Scenario.two_blocks)
                  eq_refl (or_introl eq_refl)) r w' E).
Defined.

(** C1, as the code has it. The comparison [r.returncode == [132, -9]]
    holds for no return code, so a completed session whose process shows
    132 or -9 is not classified: [crashed] and [signal] stay unset. *)
Theorem C1_sigill_is_never_assigned
    (self : QEMUTracerBow.t) (o : FireOptions) (env : Env) (body : Body)
    (w : World) :
  QEMUTracerBow.body_outcome self o env body = None ->
  proc_returncode env = Some 132 \/ proc_returncode env = Some (-9) ->
  (forall p,
     let s := QEMUTracerBow.status_stage (QEMUTracerBow.reaped env p)
                (QEMUTracerBow.at_exit env p false) in
     crashed s = None /\ signal s = None)
  /\ (forall r w',
        QEMUTracerBow.fire_context self o env body w = (Ok r, w') ->
        crashed r = None /\ signal r = None).
Proof.
  intros Hb Hrc.
  assert (Hn : ~ QEMUTracerBow.segv (proc_returncode env)).
  { unfold QEMUTracerBow.segv. destruct Hrc as [-> | ->]; intros [H|H]; discriminate. }
  split.
  - intros p. cbv zeta. rewrite SessionFacts.status_stage_completed.
    rewrite SessionFacts.classify_other; simpl; auto;
      intros H; apply Hn; [left|right]; exact H.
  - intros r w' H.
    apply StatusFacts.fire_context_status in H as (timed & Hb' & Ht & _ & H).
    rewrite Hb in Hb'. destruct timed; [discriminate|].
    destruct (H eq_refl) as (_ & [(Hs & _)|(_ & Hc & Hs)]); [contradiction|auto].
Qed.

Lemma C1_sigill_is_never_assigned_witness :
  QEMUTracerBow.body_outcome Scenario.linux Scenario.no_trace
    (Scenario.env (Some 132)) Scenario.idle = None
  /\ (proc_returncode (Scenario.env (Some 132)) = Some 132
      \/ proc_returncode (Scenario.env (Some 132)) = Some (-9))
  /\ exists r w',
       QEMUTracerBow.fire_context Scenario.linux Scenario.no_trace
         (Scenario.env (Some 132)) Scenario.idle (mkWorld ∅ ∅) = (Ok r, w')
       /\ returncode r = Some 132 /\ crashed r = None /\ signal r = None.
Proof.
  split; [reflexivity|]. split; [left; reflexivity|].
  destruct (QEMUTracerBow.fire_context Scenario.linux Scenario.no_trace
              (Scenario.env (Some 132)) Scenario.idle (mkWorld ∅ ∅))
    as [[r|e] w'] eqn:E; [|vm_compute in E; discriminate].
  exists r, w'. split; [reflexivity|]. split.
  - vm_compute in E. injection E as <- _. reflexivity.
  - exact (proj2 (C1_sigill_is_never_assigned Scenario.linux Scenario.no_trace
                    (Scenario.env (Some 132)) Scenario.idle (mkWorld ∅ ∅)
                    eq_refl (or_introl eq_refl)) r w' E).
Defined.

(** ** The specification on timeouts and the trace *)

(** C2, as the claim states it, fails: a session that timed out and was
    asked to record a trace still retrieves and parses the trace file, so
    its result holds a trace and a base address. *)
Lemma C2_timed_out_session_has_a_trace :
  exists r w',
    QEMUTracerBow.fire_context Scenario.linux Scenario.only_trace
      (Scenario.env None) Scenario.overrun
      (Scenario.traced Scenario.linux Scenario.two_blocks) = (Ok r, w')
    /\ timed_out r = Some true
    /\ trace r = Some [4198400; 4198416]
    /\ base_address r = Some 4194304.
Proof.
  destruct (QEMUTracerBow.fire_context Scenario.linux Scenario.only_trace
              (Scenario.env None) Scenario.overrun
              (Scenario.traced Scenario.linux Scenario.two_blocks))
    as [[r|e] w'] eqn:E; vm_compute in E; [|discriminate].
  exists r, w'. injection E as <- _. repeat split; reflexivity.
Qed.

(** C2, amended. In every result with [timed_out = True] the return code,
    the crash flag, the signal and the crash address are absent; the trace
    and the base address are present exactly when trace recording was
    requested, after a timeout as well. *)
Theorem C2_what_a_timeout_leaves_absent
    (self : QEMUTracerBow.t) (o : FireOptions) (env : Env) (body : Body)
    (w w' : World) (r : TraceResults) :
  QEMUTracerBow.fire_context self o env body w = (Ok r, w') ->
  (timed_out r = Some true ->
   returncode r = None /\ crashed r = None /\ signal r = None
   /\ crash_address r = None)
  /\ (trace r <> None <-> record_trace o = true)
  /\ (base_address r <> None <-> record_trace o = true).
Proof.
  intros H.
  pose proof (StatusFacts.fire_context_status _ _ _ _ _ _ _ H)
    as (timed & _ & Ht & Htimed & _).
  pose proof (TraceFacts.fire_context_trace _ _ _ _ _ _ _ H) as Htr.
  split; [|split].
  - intros Hto. rewrite Ht in Hto. injection Hto as ->.
    destruct (Htimed eq_refl) as (Hrc & Hs & Hc).
    repeat (split; [assumption|]).
    destruct Htr as [(_ & _ & _ & Ha)|(c & base & es & _ & _ & _ & _ & _ & Ha)];
      [exact Ha|].
    destruct Ha as [[_ Ha]|(last & Hy & _)]; [exact Ha|].
    rewrite Hc in Hy. discriminate.
  - destruct Htr as [(Ho & -> & _)|(c & base & es & Ho & _ & _ & -> & _)];
      rewrite Ho; split; congruence.
  - destruct Htr as [(Ho & _ & -> & _)|(c & base & es & Ho & _ & _ & _ & -> & _)];
      rewrite Ho; split; congruence.
Qed.

Lemma C2_what_a_timeout_leaves_absent_witness :
  exists r w',
    QEMUTracerBow.fire_context Scenario.linux Scenario.only_trace
      (Scenario.env None) Scenario.overrun
      (Scenario.traced Scenario.linux Scenario.two_blocks) = (Ok r, w')
    /\ (timed_out r = Some true ->
        returncode r = None /\ crashed r = None /\ signal r = None
        /\ crash_address r = None)
    /\ (trace r <> None <-> record_trace Scenario.only_trace = true)
    /\ (base_address r <> None <-> record_trace Scenario.only_trace = true).
Proof.
  destruct (QEMUTracerBow.fire_context Scenario.linux Scenario.only_trace
              (Scenario.env None) Scenario.overrun
              (Scenario.traced Scenario.linux Scenario.two_blocks))
    as [[r|e] w'] eqn:E; [|vm_compute in E; discriminate].
  exists r, w'. split; [reflexivity|].
  exact (C2_what_a_timeout_leaves_absent Scenario.linux Scenario.only_trace
           (Scenario.env None) Scenario.overrun
           (Scenario.traced Scenario.linux Scenario.two_blocks) w' r E).
Defined.

(** C3. In every result of a session with trace recording in which a crash
    was detected, the trace is not empty and the crash address is its last
    element. A crash with an empty trace is no result: indexing the empty
    trace raises [IndexError], and the session raises. *)
Theorem C3_crash_address_is_the_last_block
    (self : QEMUTracerBow.t) (o : FireOptions) (env : Env) (body : Body)
    (w : World) :
  record_trace o = true ->
  (forall r w',
     QEMUTracerBow.fire_context self o env body w = (Ok r, w') ->
     crashed r = Some true ->
     exists init last,
       trace r = Some (init ++ [last]) /\ crash_address r = Some last)
  /\ (forall r1,
        crashed r1 = Some true -> trace r1 = Some [] ->
        QEMUTracerBow.fault_address r1 = Raise IndexError)
  /\ (forall c base,
        QEMUTracerBow.body_outcome self o env body = None ->
        QEMUTracerBow.segv (proc_returncode env) ->
        target_files w !! (QEMUTracerBow.tmp_prefix env +:+ ".trace")%string = Some c ->
        QEMUTracerBow.read_trace self c = Ok (base, []) ->
        is_ok (fst (QEMUTracerBow.fire_context self o env body w)) = false).
Proof.
  intros Ho. split; [|split].
  - intros r w' H Hc.
    apply TraceFacts.fire_context_trace in H
      as [(Ho' & _)|(c & base & es & _ & _ & _ & Ht & _ & Ha)];
      [congruence|].
    destruct Ha as [[Hn _]|(last & _ & Hl & Ha)];
      [rewrite Hc in Hn; discriminate|].
    apply TraceFacts.index_last_ok in Hl as (init & ->).
    exists init, last. auto.
  - intros r1 Hc Ht. unfold QEMUTracerBow.fault_address.
    rewrite Hc, Ht. reflexivity.
  - intros c base Hb Hrc Hf Hrd.
    destruct (QEMUTracerBow.fire_context self o env body w) as [[r|e] w'] eqn:E;
      [|reflexivity].
    exfalso.
    pose proof (StatusFacts.fire_context_status _ _ _ _ _ _ _ E)
      as (timed & Hb' & _ & _ & Hs).
    rewrite Hb in Hb'. destruct timed; [discriminate|].
    destruct (Hs eq_refl) as (_ & [(_ & Hc & _)|(Hn & _)]); [|contradiction].
    apply TraceFacts.fire_context_trace in E
      as [(Ho' & _)|(c' & base' & es & _ & Hf' & Hrd' & _ & _ & Ha)];
      [congruence|].
    rewrite Hf in Hf'. injection Hf' as <-.
    rewrite Hrd in Hrd'. injection Hrd' as <- <-.
    destruct Ha as [[Hn _]|(last & _ & Hl & _)];
      [rewrite Hc in Hn; discriminate|discriminate].
Qed.

Lemma C3_crash_address_is_the_last_block_witness :
  record_trace Scenario.only_trace = true
  /\ exists r w',
       QEMUTracerBow.fire_context Scenario.linux Scenario.only_trace
         (Scenario.env (Some 139)) Scenario.idle
         (Scenario.traced Scenario.linux Scenario.two_blocks) = (Ok r, w')
       /\ crashed r = Some true
       /\ exists init last,
            trace r = Some (init ++ [last]) /\ crash_address r = Some last.
Proof.
  split; [reflexivity|].
  destruct (QEMUTracerBow.fire_context Scenario.linux Scenario.only_trace
              (Scenario.env (Some 139)) Scenario.idle
              (Scenario.traced Scenario.linux Scenario.two_blocks))
    as [[r|e] w'] eqn:E; [|vm_compute in E; discriminate].
  assert (Hc : crashed r = Some true).
  { vm_compute in E. injection E as <- _. reflexivity. }
  exists r, w'. split; [reflexivity|]. split; [exact Hc|].
  exact (proj1 (C3_crash_address_is_the_last_block Scenario.linux
                  Scenario.only_trace (Scenario.env (Some 139)) Scenario.idle
                  (Scenario.traced Scenario.linux Scenario.two_blocks) eq_refl)
           r w' E Hc).
Defined.

(** C4. A trace file made of a load-base line for [base] and of [N]
    well-formed entry lines in the format of the target's OS family parses
    to [base] and to the [N] addresses of the entries, in the order of the
    lines. *)
Theorem C4_trace_file_round_trip
    (self : QEMUTracerBow.t) (blanks : nat) (f : TraceLog.hexfmt) (base : Z)
    (es : list TraceLog.entry) (r : TraceResults) :
  0 <= base ->
  Forall (fun e => TraceLog.well_formed (is_cgc self) e = true) es ->
  let contents := TraceLog.trace_file (is_cgc self) blanks f base es in
  QEMUTracerBow.read_trace self contents = Ok (base, map TraceLog.addr es)
  /\ length (map TraceLog.addr es) = length es
  /\ exists r',
       QEMUTracerBow.parse_trace self contents r = Ok r'
       /\ base_address r' = Some base
       /\ trace r' = Some (map TraceLog.addr es).
Proof.
  intros Hb Hes. cbv zeta. split; [|split].
  - apply ParseFacts.read_trace_file; assumption.
  - apply length_map.
  - eexists. split; [apply ParseFacts.parse_trace_file; assumption|].
    split; reflexivity.
Qed.

Lemma C4_trace_file_round_trip_witness :
  0 <= 4194304
  /\ Forall (fun e => TraceLog.well_formed (is_cgc Scenario.cgc) e = true)
       Scenario.two_blocks
  /\ QEMUTracerBow.read_trace Scenario.cgc
       (TraceLog.trace_file (is_cgc Scenario.cgc) 1 Scenario.fmt0x 4194304
          Scenario.two_blocks)
     = Ok (4194304, [4198400; 4198416]).
Proof.
  assert (Hes : Forall (fun e => TraceLog.well_formed (is_cgc Scenario.cgc) e = true)
                  Scenario.two_blocks).
  { repeat constructor. }
  split; [lia|]. split; [exact Hes|].
  exact (proj1 (C4_trace_file_round_trip Scenario.cgc 1 Scenario.fmt0x 4194304
                  Scenario.two_blocks TraceResults_new ltac:(lia) Hes)).
Defined.

(** ** The specification on the magic page *)

(** C6. With the magic page requested, a retrieved buffer that is not
    4096 bytes long makes the magic stage raise [ArchrError], and the
    session returns no result; a buffer of 4096 bytes is stored as
    [magic_contents], in the stage and in every result of the session. *)
Theorem C6_magic_page_is_one_page
    (self : QEMUTracerBow.t) (o : FireOptions) (env : Env) (body : Body)
    (w : World) (c : bytes) :
  record_magic o = true ->
  target_files w !! (QEMUTracerBow.tmp_prefix env +:+ ".magic")%string = Some c ->
  (length c <> 4096%nat ->
   (forall r2,
      QEMUTracerBow.magic_stage (QEMUTracerBow.target_magic_filename o env) r2 w
      = (Raise (ArchrError
           "Magic content read from QEMU improper size, should be a page in length"),
         w))
   /\ is_ok (fst (QEMUTracerBow.fire_context self o env body w)) = false)
  /\ (length c = 4096%nat ->
      (forall r2,
         QEMUTracerBow.magic_stage (QEMUTracerBow.target_magic_filename o env) r2 w
         = (Ok (set_magic_contents r2 (Some c)), w))
      /\ (forall r w',
            QEMUTracerBow.fire_context self o env body w = (Ok r, w') ->
            magic_contents r = Some c)).
Proof.
  intros Ho Hf.
  destruct (SessionFacts.magic_filename_truthy o env Ho) as [Hmf Hty].
  assert (Hstage : forall r2,
    QEMUTracerBow.magic_stage (QEMUTracerBow.target_magic_filename o env) r2 w
    = if Nat.eqb (length c) 4096
      then (Ok (set_magic_contents r2 (Some c)), w)
      else (Raise (ArchrError
              "Magic content read from QEMU improper size, should be a page in length"),
            w)).
  { intros r2. rewrite Hmf, SessionFacts.magic_stage_on by exact Hty.
    rewrite Hf. reflexivity. }
  assert (Hsession : forall r w',
    QEMUTracerBow.fire_context self o env body w = (Ok r, w') ->
    length c = 4096%nat /\ magic_contents r = Some c).
  { intros r w' H.
    apply SessionFacts.fire_context_ok in H as (timed & _ & H).
    apply SessionFacts.conclude_ok in H as (r1 & r2 & Hc & _ & Hm).
    apply SessionFacts.core_stage_frame in Hc as [_ Htf].
    apply SessionFacts.magic_stage_ok in Hm as [_ Hm].
    destruct Hm as [[Hoff _]|(f & c' & Hf' & _ & Hc' & Hl & ->)].
    - rewrite Hmf in Hoff. cbn [Str.opt_truthy] in Hoff.
      rewrite Hty in Hoff. discriminate.
    - rewrite Hmf in Hf'. injection Hf' as <-.
      rewrite Htf, Hf in Hc'. injection Hc' as <-. auto. }
  split.
  - intros Hl. split.
    + intros r2. rewrite Hstage.
      destruct (Nat.eqb (length c) 4096) eqn:E; [|reflexivity].
      apply Nat.eqb_eq in E. contradiction.
    + destruct (QEMUTracerBow.fire_context self o env body w)
        as [[r|e] w'] eqn:E; [|reflexivity].
      destruct (Hsession r w' eq_refl) as [Hl' _]. contradiction.
  - intros Hl. split.
    + intros r2. rewrite Hstage, Hl. reflexivity.
    + intros r w' H. apply (Hsession r w' H).
Qed.

Lemma C6_magic_page_is_one_page_witness :
  record_magic Scenario.only_magic = true
  /\ target_files (Scenario.with_magic 4096)
       !! (QEMUTracerBow.tmp_prefix (Scenario.env (Some 0)) +:+ ".magic")%string
     = Some (repeat x00 4096)
  /\ length (repeat x00 4096) = 4096%nat
  /\ exists r w',
       QEMUTracerBow.fire_context Scenario.linux Scenario.only_magic
         (Scenario.env (Some 0)) Scenario.idle (Scenario.with_magic 4096)
       = (Ok r, w')
       /\ magic_contents r = Some (repeat x00 4096).
Proof.
  split; [reflexivity|]. split; [reflexivity|]. split; [reflexivity|].
  destruct (QEMUTracerBow.fire_context Scenario.linux Scenario.only_magic
              (Scenario.env (Some 0)) Scenario.idle (Scenario.with_magic 4096))
    as [[r|e] w'] eqn:E; [|vm_compute in E; discriminate].
  exists r, w'. split; [reflexivity|].
  exact (proj2 (proj2 (C6_magic_page_is_one_page Scenario.linux
                         Scenario.only_magic (Scenario.env (Some 0))
                         Scenario.idle (Scenario.with_magic 4096)
                         (repeat x00 4096) eq_refl eq_refl) eq_refl)
           r w' E).
Defined.

(** A page that is one byte short is refused. *)
Example magic_page_one_byte_short :
  fst (QEMUTracerBow.fire_context Scenario.linux Scenario.only_magic
         (Scenario.env (Some 0)) Scenario.idle (Scenario.with_magic 4095))
  = Raise (ArchrError
      "Magic content read from QEMU improper size, should be a page in length").
Proof. vm_compute. reflexivity. Qed.

(** ** The end-to-end scenario *)

(** C8, as the claim states it, fails: after a run that exits with status
    0 the crash flag is not [False]; it was never assigned and is [None]. *)
Lemma C8_crashed_is_unset_not_false :
  exists r w',
    QEMUTracerBow.fire_context Scenario.linux Scenario.only_trace
      (Scenario.env (Some 0)) Scenario.idle
      (Scenario.traced Scenario.linux Scenario.ten_blocks) = (Ok r, w')
    /\ length Scenario.ten_blocks = 10%nat
    /\ timeout Scenario.only_trace = 10
    /\ crashed r = None
    /\ crashed r <> Some false.
Proof.
  destruct (QEMUTracerBow.fire_context Scenario.linux Scenario.only_trace
              (Scenario.env (Some 0)) Scenario.idle
              (Scenario.traced Scenario.linux Scenario.ten_blocks))
    as [[r|e] w'] eqn:E; vm_compute in E; [|discriminate].
  exists r, w'. injection E as <- _.
  repeat split; try reflexivity. discriminate.
Qed.

(** C8, amended. A session that records a trace (and neither the magic
    page nor a core dump) under a budget of 10 seconds, whose target wrote
    a load-base line for 0x400000 and ten well-formed trace lines and
    exited with status 0, returns a result with [crashed] unset ([None],
    which tests false), [base_address = 0x400000], a trace of exactly
    those ten addresses, [timed_out = False] and [returncode = 0]. *)
Theorem C8_clean_run_of_ten_blocks
    (self : QEMUTracerBow.t) (o : FireOptions) (env : Env) (body : Body)
    (w : World) (blanks : nat) (f : TraceLog.hexfmt)
    (es : list TraceLog.entry) :
  record_trace o = true -> record_magic o = false -> save_core o = false ->
  timeout o = 10 ->
  QEMUTracerBow.body_outcome self o env body = None ->
  proc_returncode env = Some 0 ->
  length es = 10%nat ->
  Forall (fun e => TraceLog.well_formed (is_cgc self) e = true) es ->
  target_files w !! (QEMUTracerBow.tmp_prefix env +:+ ".trace")%string
  = Some (TraceLog.trace_file (is_cgc self) blanks f 4194304 es) ->
  exists r,
    QEMUTracerBow.fire_context self o env body w = (Ok r, w)
    /\ crashed r = None
    /\ optb_truthy (crashed r) = false
    /\ base_address r = Some 4194304
    /\ trace r = Some (map TraceLog.addr es)
    /\ length (map TraceLog.addr es) = 10%nat
    /\ timed_out r = Some false
    /\ returncode r = Some 0.
Proof.
  intros Ht Hm Hc _ Hb Hrc Hlen Hes Hf.
  rewrite SessionFacts.fire_context_eq. cbv zeta. rewrite Hb.
  unfold QEMUTracerBow.pep479. rewrite SessionFacts.conclude_eq.
  unfold QEMUTracerBow.local_core_filename, QEMUTracerBow.target_magic_filename.
  rewrite Hc, Hm, SessionFacts.core_stage_off.
  destruct (SessionFacts.trace_filename_truthy o env Ht) as [-> Hty].
  rewrite SessionFacts.trace_stage_on by exact Hty.
  rewrite Hf, ParseFacts.parse_trace_file by (assumption || lia).
  rewrite SessionFacts.status_stage_completed.
  cbn [QEMUTracerBow.reaped p_returncode]. rewrite Hrc.
  eexists. split; [reflexivity|].
  repeat split; try reflexivity.
  rewrite length_map. exact Hlen.
Qed.

Lemma C8_clean_run_of_ten_blocks_witness :
  exists r,
    QEMUTracerBow.fire_context Scenario.cgc Scenario.only_trace
      (Scenario.env (Some 0)) Scenario.idle
      (Scenario.traced Scenario.cgc Scenario.ten_blocks)
    = (Ok r, Scenario.traced Scenario.cgc Scenario.ten_blocks)
    /\ crashed r = None
    /\ optb_truthy (crashed r) = false
    /\ base_address r = Some 4194304
    /\ trace r = Some (map TraceLog.addr Scenario.ten_blocks)
    /\ length (map TraceLog.addr Scenario.ten_blocks) = 10%nat
    /\ timed_out r = Some false
    /\ returncode r = Some 0.
Proof.
  apply (C8_clean_run_of_ten_blocks Scenario.cgc Scenario.only_trace
           (Scenario.env (Some 0)) Scenario.idle
           (Scenario.traced Scenario.cgc Scenario.ten_blocks) 1 Scenario.fmt0x
           Scenario.ten_blocks);
    try reflexivity.
  repeat constructor.
Defined.

(** ** The command builder *)

Module CommandFacts.
Import QEMUTracerBow.
Local Open Scope string_scope.

Lemma variant_of_cgc self b :
  is_cgc self = true -> Str.contains "cgc" (qemu_variant self b) = true.
Proof.
  unfold is_cgc, qemu_variant. intros ->. destruct b; reflexivity.
Qed.

Lemma variant_of_other self b :
  is_cgc self = false ->
  Str.contains "cgc" (qemu_variant self b)
  = Str.contains "cgc" (target_arch (target self)).
Proof.
  unfold is_cgc, qemu_variant. intros ->. reflexivity.
Qed.

Lemma magic_file_truthy env : Str.truthy (tmp_prefix env +:+ ".magic") = true.
Proof. reflexivity. Qed.

(** The command is its front, then the flags of the trace, then the
    rest, whatever the other options are. *)
Ltac split_command :=
  match goal with
  | |- context [Str.contains ?a ?v] => destruct (Str.contains a v)
  end;
  cbn [negb andb];
  repeat match goal with
         | |- context [match ?x with Some _ => _ | None => _ end] =>
             destruct x
         | |- context [if ?c then _ else _] => destruct c
         end;
  rewrite <- ?app_assoc; cbn [app]; reflexivity.

End CommandFacts.

(** The builder decides by the name of the variant, not by the family: an
    architecture tag that held "cgc" (no emulator build has one) would get
    the plain flag. *)
Example exec_flag_for_an_arch_tag_with_cgc :
  is_cgc Scenario.odd_arch = false
  /\ record_trace Scenario.only_trace = true
  /\ QEMUTracerBow.target_cmd Scenario.odd_arch Scenario.only_trace
       (Scenario.env None)
     = [ "/tmp/shellphish_qemu/fire"; "shellphish-qemu-linux-cgc";
         "-C"; "/tmp/tracer_k3v_9qza";
         "-d"; "exec"; "-D"; "/tmp/tracer-x0h2m_ab.trace";
         "-m"; "8G"; "/bin/target" ]%string.
Proof. repeat split; reflexivity. Qed.

(** Behind the launcher, the variant and the core-dump directory, the
    builder puts: with trace recording, [-d exec -D <trace file>] when the
    name of the chosen variant holds "cgc" and [-d nochain,exec,page -D
    <trace file>] when it does not; without trace recording,
    [-enable_double_empty_exiting] in their place. The other options
    follow. *)
Lemma trace_flags_by_variant
    (self : QEMUTracerBow.t) (o : FireOptions) (env : Env) :
  let cmd := QEMUTracerBow.target_cmd self o env in
  let variant := QEMUTracerBow.qemu_variant self (record_trace o) in
  let front := [ "/tmp/shellphish_qemu/fire"%string; variant;
                 "-C"%string; QEMUTracerBow.target_tmpdir env ] in
  let trace_file := (QEMUTracerBow.tmp_prefix env +:+ ".trace")%string in
  let rest := QEMUTracerBow.later_options self o env in
  (record_trace o = true ->
   cmd = front
         ++ (if Str.contains "cgc" variant
             then [ "-d"; "exec"; "-D"; trace_file ]%string
             else [ "-d"; "nochain,exec,page"; "-D"; trace_file ]%string)
         ++ rest)
  /\ (record_trace o = false ->
      cmd = front ++ [ "-enable_double_empty_exiting"%string ] ++ rest).
Proof.
  cbv zeta. split.
  - intros Ho.
    unfold QEMUTracerBow.target_cmd, QEMUTracerBow._build_command,
      QEMUTracerBow.later_options.
    rewrite (proj1 (SessionFacts.trace_filename_truthy o env Ho)).
    rewrite (proj2 (SessionFacts.trace_filename_truthy o env Ho)).
    unfold QEMUTracerBow.target_magic_filename.
    rewrite Ho. cbn [QEMUTracerBow.is_some].
    destruct (record_magic o); rewrite ?CommandFacts.magic_file_truthy;
      CommandFacts.split_command.
  - intros Ho.
    unfold QEMUTracerBow.target_cmd, QEMUTracerBow._build_command,
      QEMUTracerBow.later_options.
    unfold QEMUTracerBow.target_trace_filename,
      QEMUTracerBow.target_magic_filename.
    rewrite Ho. cbn [QEMUTracerBow.is_some].
    destruct (record_magic o); rewrite ?CommandFacts.magic_file_truthy;
      CommandFacts.split_command.
Qed.

(** C9. For a target of the CGC family, and for a target of another family
    whose architecture tag names an emulator build (no such tag holds
    "cgc"), and for all tracing options: with trace recording the builder
    puts, behind the launcher, the variant and the core-dump directory,
    [-d exec -D <trace file>] for the CGC family and [-d nochain,exec,page
    -D <trace file>] for every other; without trace recording it puts
    [-enable_double_empty_exiting] in their place. The other options
    follow. The variant is the tracer or the base build of the CGC
    emulator, by whether the trace is recorded, and else the Linux build
    for the architecture. *)
Theorem C9_trace_flags_by_os_family
    (self : QEMUTracerBow.t) (o : FireOptions) (env : Env) :
  (is_cgc self = false ->
   Str.contains "cgc" (target_arch (QEMUTracerBow.target self)) = false) ->
  let cmd := QEMUTracerBow.target_cmd self o env in
  let variant := QEMUTracerBow.qemu_variant self (record_trace o) in
  let front := [ "/tmp/shellphish_qemu/fire"%string; variant;
                 "-C"%string; QEMUTracerBow.target_tmpdir env ] in
  let trace_file := (QEMUTracerBow.tmp_prefix env +:+ ".trace")%string in
  let rest := QEMUTracerBow.later_options self o env in
  (record_trace o = true -> is_cgc self = true ->
   variant = "shellphish-qemu-cgc-tracer"%string
   /\ cmd = front ++ [ "-d"; "exec"; "-D"; trace_file ]%string ++ rest)
  /\ (record_trace o = true -> is_cgc self = false ->
      variant
      = ("shellphish-qemu-linux-"
         +:+ target_arch (QEMUTracerBow.target self))%string
      /\ cmd = front ++ [ "-d"; "nochain,exec,page"; "-D"; trace_file ]%string
                 ++ rest)
  /\ (record_trace o = false ->
      variant
      = (if is_cgc self then "shellphish-qemu-cgc-base"%string
         else ("shellphish-qemu-linux-"
               +:+ target_arch (QEMUTracerBow.target self))%string)
      /\ cmd = front ++ [ "-enable_double_empty_exiting"%string ] ++ rest).
Proof.
  intros Harch. cbv zeta.
  destruct (trace_flags_by_variant self o env) as [Hon Hoff].
  cbv zeta in Hon, Hoff.
  split; [|split].
  - intros Ho Hc. split.
    + unfold QEMUTracerBow.qemu_variant. unfold is_cgc in Hc.
      rewrite Hc, Ho. reflexivity.
    + rewrite (Hon Ho), (CommandFacts.variant_of_cgc self _ Hc). reflexivity.
  - intros Ho Hc. split.
    + unfold QEMUTracerBow.qemu_variant. unfold is_cgc in Hc.
      rewrite Hc. reflexivity.
    + rewrite (Hon Ho), (CommandFacts.variant_of_other self _ Hc), (Harch Hc).
      reflexivity.
  - intros Ho. split; [|exact (Hoff Ho)].
    unfold QEMUTracerBow.qemu_variant, is_cgc. rewrite Ho.
    destruct (String.eqb _ _); reflexivity.
Qed.

Lemma C9_trace_flags_by_os_family_witness :
  QEMUTracerBow.target_cmd Scenario.cgc Scenario.only_trace (Scenario.env None)
  = [ "/tmp/shellphish_qemu/fire"; "shellphish-qemu-cgc-tracer";
      "-C"; "/tmp/tracer_k3v_9qza" ]%string
    ++ [ "-d"; "exec"; "-D"; "/tmp/tracer-x0h2m_ab.trace" ]%string
    ++ [ "-m"; "8G"; "/bin/challenge" ]%string
  /\ QEMUTracerBow.target_cmd Scenario.linux Scenario.only_trace
       (Scenario.env None)
     = [ "/tmp/shellphish_qemu/fire"; "shellphish-qemu-linux-x86_64";
         "-C"; "/tmp/tracer_k3v_9qza" ]%string
       ++ [ "-d"; "nochain,exec,page"; "-D"; "/tmp/tracer-x0h2m_ab.trace" ]%string
       ++ [ "-E"; "LD_BIND_NOW=1"; "/bin/target"; "-v" ]%string
  /\ QEMUTracerBow.target_cmd Scenario.linux Scenario.no_trace
       (Scenario.env None)
     = [ "/tmp/shellphish_qemu/fire"; "shellphish-qemu-linux-x86_64";
         "-C"; "/tmp/tracer_k3v_9qza" ]%string
       ++ [ "-enable_double_empty_exiting" ]%string
       ++ [ "-E"; "LD_BIND_NOW=1"; "/bin/target"; "-v" ]%string.
Proof.
  split; [|split].
  - exact (proj2 (proj1 (C9_trace_flags_by_os_family Scenario.cgc
                           Scenario.only_trace (Scenario.env None)
                           (fun H => ltac:(discriminate H)))
                    eq_refl eq_refl)).
  - exact (proj2 (proj1 (proj2 (C9_trace_flags_by_os_family Scenario.linux
                                  Scenario.only_trace (Scenario.env None)
                                  (fun _ => eq_refl)))
                    eq_refl eq_refl)).
  - exact (proj2 (proj2 (proj2 (C9_trace_flags_by_os_family Scenario.linux
                                  Scenario.no_trace (Scenario.env None)
                                  (fun _ => eq_refl)))
                    eq_refl)).
Defined.

(** The two commands of an x86_64 Linux target. *)
Example command_with_trace :
  QEMUTracerBow.target_cmd Scenario.linux Scenario.only_trace (Scenario.env None)
  = [ "/tmp/shellphish_qemu/fire"; "shellphish-qemu-linux-x86_64";
      "-C"; "/tmp/tracer_k3v_9qza";
      "-d"; "nochain,exec,page"; "-D"; "/tmp/tracer-x0h2m_ab.trace";
      "-E"; "LD_BIND_NOW=1"; "/bin/target"; "-v" ]%string.
Proof. reflexivity. Qed.

Example command_without_trace :
  QEMUTracerBow.target_cmd Scenario.linux Scenario.no_trace (Scenario.env None)
  = [ "/tmp/shellphish_qemu/fire"; "shellphish-qemu-linux-x86_64";
      "-C"; "/tmp/tracer_k3v_9qza"; "-enable_double_empty_exiting";
      "-E"; "LD_BIND_NOW=1"; "/bin/target"; "-v" ]%string.
Proof. reflexivity. Qed.

(** ** Feeding the test case *)

Module FireFacts.
Import QEMUTracerBow.

(** Every item is written, in order, to a stream that is open. *)
Lemma write_all_ok l : forall p ds,
  p_stdin_closed p = false ->
  encoded_all l = Ok ds ->
  write_all l p
  = (mkProcess (p_args p) (p_stdin p ++ ds) false (p_returncode p), None).
Proof.
  induction l as [|x l IH]; intros p ds Hp Hl; simpl in *.
  - injection Hl as <-. rewrite app_nil_r.
    destruct p; simpl in *; subst; reflexivity.
  - destruct (encoded x) as [d|]; [|discriminate].
    destruct (encoded_all l) as [ds'|]; [|discriminate].
    injection Hl as <-.
    unfold stdin_write. rewrite Hp.
    rewrite (IH (mkProcess (p_args p) (p_stdin p ++ [d]) false (p_returncode p))
               ds' eq_refl eq_refl). simpl.
    rewrite <- app_assoc. reflexivity.
Qed.

Lemma fire_body_ok l cmd ds :
  encoded_all l = Ok ds ->
  fire_body l (started cmd) = (mkProcess cmd ds true None, None).
Proof.
  intros Hl. unfold fire_body.
  rewrite (write_all_ok l (started cmd) ds eq_refl Hl). reflexivity.
Qed.

Lemma status_stage_process p r0 : process (status_stage p r0) = process r0.
Proof.
  unfold status_stage. destruct (negb _); [|reflexivity].
  destruct (StatusFacts.classify_cases (set_returncode r0 (p_returncode p)))
    as [[_ ->]|[_ ->]]; reflexivity.
Qed.

(** A session that retrieves nothing: its result is the status of the
    handle it was left with. *)
Lemma conclude_plain self o env tmpdir p r0 w :
  record_trace o = false -> record_magic o = false -> save_core o = false ->
  QEMUTracerBow.conclude self o env tmpdir p r0 w
  = (Ok (QEMUTracerBow.status_stage p r0), w).
Proof.
  intros Ht Hm Hc. rewrite SessionFacts.conclude_eq.
  unfold QEMUTracerBow.local_core_filename, QEMUTracerBow.target_trace_filename,
    QEMUTracerBow.target_magic_filename.
  rewrite Ht, Hm, Hc. reflexivity.
Qed.

(** [fire] on a test case that can be encoded, by what the session does
    once the body has written it. *)
Lemma fire_fed self o env l ds w :
  QEMUTracerBow.encoded_all l = Ok ds ->
  let p := mkProcess (QEMUTracerBow.target_cmd self o env) ds true None in
  QEMUTracerBow.fire self o env (Many l) w
  = QEMUTracerBow.pep479
      (QEMUTracerBow.conclude self o env (QEMUTracerBow.target_tmpdir env)
         (QEMUTracerBow.reaped env p) (QEMUTracerBow.at_exit env p false)) w.
Proof.
  intros Hl. cbv zeta. unfold QEMUTracerBow.fire.
  cbn [QEMUTracerBow.as_list].
  rewrite SessionFacts.fire_context_eq. cbv zeta.
  unfold QEMUTracerBow.body_outcome.
  rewrite (FireFacts.fire_body_ok l _ ds Hl). reflexivity.
Qed.

Lemma fire_fed_plain self o env l ds w :
  QEMUTracerBow.encoded_all l = Ok ds ->
  record_trace o = false -> record_magic o = false -> save_core o = false ->
  exists r,
    QEMUTracerBow.fire self o env (Many l) w = (Ok r, w)
    /\ timed_out r = Some false
    /\ returncode r = proc_returncode env
    /\ process r
       = Some (mkProcess (QEMUTracerBow.target_cmd self o env) ds true
                 (proc_returncode env)).
Proof.
  intros Hl Ht Hm Hc.
  rewrite (fire_fed self o env l ds w Hl). cbv zeta.
  unfold QEMUTracerBow.pep479.
  rewrite (conclude_plain self o env _ _ _ w Ht Hm Hc).
  eexists. split; [reflexivity|].
  rewrite SessionFacts.status_stage_completed.
  destruct (StatusFacts.classify_cases
              (set_returncode
                 (QEMUTracerBow.at_exit env
                    (mkProcess (QEMUTracerBow.target_cmd self o env) ds true None)
                    false)
                 (p_returncode
                    (QEMUTracerBow.reaped env
                       (mkProcess (QEMUTracerBow.target_cmd self o env) ds true
                          None)))))
    as [[_ ->]|[_ ->]]; repeat split; reflexivity.
Qed.

End FireFacts.

(** C10. [fire] on a single [str] or [bytes] is [fire] on the list of that
    one value. Its body writes the value to the standard input of the
    started process, a [str] as its UTF-8 encoding and a [bytes] as it is,
    then closes the stream and returns; the session goes on from the handle
    with that one write and the stream closed, and what [fire] gives is
    what the session concludes from it. Where no artefact is asked for,
    [fire] returns a result, which shows that handle; and so does every
    result that [fire] returns. *)
Theorem C10_single_testcase_is_a_singleton
    (self : QEMUTracerBow.t) (o : FireOptions) (env : Env) (x : pyitem)
    (w : World) (data : bytes) :
  QEMUTracerBow.encoded x = Ok data ->
  let cmd := QEMUTracerBow.target_cmd self o env in
  let left_with := mkProcess cmd [data] true None in
  QEMUTracerBow.fire self o env (One x) w
  = QEMUTracerBow.fire self o env (Many [x]) w
  /\ QEMUTracerBow.fire_body (QEMUTracerBow.as_list (One x))
       (QEMUTracerBow.started cmd)
     = (left_with, None)
  /\ QEMUTracerBow.fire self o env (One x) w
     = QEMUTracerBow.pep479
         (QEMUTracerBow.conclude self o env (QEMUTracerBow.target_tmpdir env)
            (QEMUTracerBow.reaped env left_with)
            (QEMUTracerBow.at_exit env left_with false)) w
  /\ (record_trace o = false -> record_magic o = false ->
      save_core o = false ->
      exists r,
        QEMUTracerBow.fire self o env (One x) w = (Ok r, w)
        /\ timed_out r = Some false
        /\ returncode r = proc_returncode env
        /\ process r = Some (mkProcess cmd [data] true (proc_returncode env)))
  /\ (forall r w',
        QEMUTracerBow.fire self o env (One x) w = (Ok r, w') ->
        timed_out r = Some false
        /\ process r = Some (mkProcess cmd [data] true (proc_returncode env))).
Proof.
  intros Hx. cbv zeta.
  assert (Hl : QEMUTracerBow.encoded_all [x] = Ok [data]).
  { simpl. rewrite Hx. reflexivity. }
  assert (Hb : QEMUTracerBow.fire_body [x]
                 (QEMUTracerBow.started (QEMUTracerBow.target_cmd self o env))
               = (mkProcess (QEMUTracerBow.target_cmd self o env) [data] true None,
                  None)).
  { apply FireFacts.fire_body_ok. exact Hl. }
  split; [reflexivity|]. split; [exact Hb|].
  split; [exact (FireFacts.fire_fed self o env [x] [data] w Hl)|].
  split; [exact (FireFacts.fire_fed_plain self o env [x] [data] w Hl)|].
  intros r w' H. unfold QEMUTracerBow.fire in H.
  cbn [QEMUTracerBow.as_list] in H.
  pose proof (StatusFacts.fire_context_status _ _ _ _ _ _ _ H)
    as (timed & Ho & Ht & _).
  unfold QEMUTracerBow.body_outcome in Ho. rewrite Hb in Ho.
  destruct timed; [discriminate|]. split; [exact Ht|].
  apply SessionFacts.fire_context_ok in H as (timed & _ & H).
  apply StatusFacts.conclude_status in H. cbv zeta in H.
  destruct H as (_ & _ & _ & _ & ->).
  rewrite FireFacts.status_stage_process, Hb. reflexivity.
Qed.

Lemma C10_single_testcase_is_a_singleton_witness :
  QEMUTracerBow.encoded (PStr [104%N; 233%N; 8364%N])
  = Ok [x68; xc3; xa9; xe2; x82; xac]
  /\ exists r,
       QEMUTracerBow.fire Scenario.linux Scenario.no_trace
         (Scenario.env (Some 0)) (One (PStr [104%N; 233%N; 8364%N]))
         (mkWorld ∅ ∅)
       = (Ok r, mkWorld ∅ ∅)
       /\ timed_out r = Some false
       /\ returncode r = Some 0
       /\ process r
          = Some (mkProcess
                    (QEMUTracerBow.target_cmd Scenario.linux Scenario.no_trace
                       (Scenario.env (Some 0)))
                    [[x68; xc3; xa9; xe2; x82; xac]] true (Some 0)).
Proof.
  split; [reflexivity|].
  exact (proj1 (proj2 (proj2 (proj2
           (C10_single_testcase_is_a_singleton Scenario.linux
              Scenario.no_trace (Scenario.env (Some 0))
              (PStr [104%N; 233%N; 8364%N]) (mkWorld ∅ ∅)
              [x68; xc3; xa9; xe2; x82; xac] eq_refl))))
           eq_refl eq_refl eq_refl).
Defined.

(** A [bytes] test case goes out unchanged, and the stream is closed. *)
Example fire_bytes :
  option_map (fun p => (p_stdin p, p_stdin_closed p))
    (match fst (QEMUTracerBow.fire Scenario.linux Scenario.no_trace
                  (Scenario.env (Some 0)) (One (PBytes (B "AAAA")))
                  (mkWorld ∅ ∅)) with
     | Ok r => process r
     | Raise _ => None
     end)
  = Some ([B "AAAA"], true).
Proof. vm_compute. reflexivity. Qed.

(** A [str] with a lone surrogate has no UTF-8 encoding: [fire] raises
    before anything is written. *)
Example fire_lone_surrogate :
  fst (QEMUTracerBow.fire Scenario.linux Scenario.no_trace
         (Scenario.env (Some 0)) (One (PStr [56448%N])) (mkWorld ∅ ∅))
  = Raise UnicodeEncodeError.
Proof. vm_compute. reflexivity. Qed.

(** ** Paths *)

Module PathFacts.
Import Str.
Local Open Scope string_scope.

Lemma sapp_cons (x : ascii) (a c : string) :
  String x a +:+ c = String x (a +:+ c).
Proof. reflexivity. Qed.

Lemma sapp_nil_l (c : string) : "" +:+ c = c.
Proof. reflexivity. Qed.

Lemma sapp_assoc (a c d : string) : (a +:+ c) +:+ d = a +:+ (c +:+ d).
Proof.
  induction a as [|x a IH]; [reflexivity|].
  rewrite !sapp_cons, IH. reflexivity.
Qed.

Lemma sapp_nil_r (a : string) : a +:+ "" = a.
Proof.
  induction a as [|x a IH]; [reflexivity|].
  rewrite sapp_cons, IH. reflexivity.
Qed.

Lemma ascii_eqb_refl (c : ascii) : Ascii.eqb c c = true.
Proof. apply Ascii.eqb_refl. Qed.

Lemma strip_prefix_app p s : strip_prefix p (p +:+ s) = Some s.
Proof.
  induction p as [|x p IH]; [reflexivity|].
  rewrite sapp_cons. cbn [strip_prefix]. rewrite ascii_eqb_refl. exact IH.
Qed.

Lemma strip_prefix_inv p s n : strip_prefix p s = Some n -> s = p +:+ n.
Proof.
  revert s. induction p as [|x p IH]; intros s H; cbn [strip_prefix] in H.
  - rewrite sapp_nil_l. congruence.
  - destruct s as [|c s]; [discriminate|].
    destruct (Ascii.eqb x c) eqn:E; [|discriminate].
    apply Ascii.eqb_eq in E. subst c.
    rewrite sapp_cons, (IH s H). reflexivity.
Qed.

Lemma no_slash_no_root n : has_slash n = false -> startswith "/" n = false.
Proof.
  destruct n as [|c n]; [reflexivity|]. cbn [has_slash startswith].
  intros H. apply orb_false_iff in H as [H _].
  rewrite Ascii.eqb_sym. fold SLASH. rewrite H. reflexivity.
Qed.

(** A name joined to a directory is the directory with its slash, then
    the name. *)
Lemma join_entry d n :
  has_slash n = false -> os_path_join d n = os_path_join d "" +:+ n.
Proof.
  intros Hn. unfold os_path_join.
  rewrite (no_slash_no_root n Hn). cbn [startswith].
  destruct (negb (truthy d) || endswith_slash d).
  - rewrite sapp_nil_r. reflexivity.
  - rewrite !sapp_assoc. reflexivity.
Qed.

Lemma has_slash_app a c : has_slash (a +:+ c) = has_slash a || has_slash c.
Proof.
  induction a as [|x a IH]; [reflexivity|].
  rewrite sapp_cons. cbn [has_slash]. rewrite IH, orb_assoc. reflexivity.
Qed.

Lemma endswith_has_slash a : endswith_slash a = true -> has_slash a = true.
Proof.
  induction a as [|x a IH]; [discriminate|]. simpl.
  destruct a as [|y a].
  - intros ->. reflexivity.
  - intros H. rewrite (IH H), orb_true_r. reflexivity.
Qed.

Lemma no_slash_no_end a : has_slash a = false -> endswith_slash a = false.
Proof.
  intros H. destruct (endswith_slash a) eqn:E; [|reflexivity].
  rewrite (endswith_has_slash a E) in H. discriminate.
Qed.

Lemma endswith_slash_dir d : endswith_slash (d +:+ "/") = true.
Proof.
  induction d as [|c d IH]; [reflexivity|].
  rewrite sapp_cons. destruct d as [|y d]; [reflexivity|].
  rewrite sapp_cons in *. exact IH.
Qed.

Lemma join_empty_slashed d : slashed (os_path_join d "").
Proof.
  unfold os_path_join, slashed. cbn [startswith].
  destruct d as [|c d]; [left; reflexivity|].
  cbn [truthy negb orb].
  destruct (endswith_slash (String c d)) eqn:E.
  - right. rewrite sapp_nil_r. exact E.
  - right. rewrite sapp_nil_r. apply endswith_slash_dir.
Qed.

Lemma split_last_name x n :
  slashed x -> has_slash n = false -> split_last (x +:+ n) = (x, n).
Proof.
  intros Hx Hn. induction x as [|c x IH].
  - rewrite sapp_nil_l. destruct n as [|y n]; [reflexivity|].
    cbn [has_slash] in Hn. apply orb_false_iff in Hn as [Hy Hn].
    cbn [split_last]. rewrite Hn, Hy. reflexivity.
  - destruct Hx as [Hx|Hx]; [discriminate|].
    rewrite sapp_cons.
    cbn [split_last]. rewrite has_slash_app, Hn, orb_false_r.
    destruct x as [|y x].
    + cbn [endswith_slash] in Hx. cbn [has_slash]. rewrite Hx, sapp_nil_l.
      reflexivity.
    + assert (Hx' : endswith_slash (String y x) = true) by exact Hx.
      rewrite (endswith_has_slash _ Hx'), (IH (or_intror Hx')). reflexivity.
Qed.

(** The name of a path made by joining a name to a directory. *)
Lemma basename_join d n :
  has_slash n = false -> os_path_basename (os_path_join d n) = n.
Proof.
  intros Hn. unfold os_path_basename.
  rewrite (join_entry d n Hn), (split_last_name _ n (join_empty_slashed d) Hn).
  reflexivity.
Qed.

Lemma rstrip_slash_dir d :
  truthy d = true -> endswith_slash d = false -> rstrip_slash (d +:+ "/") = d.
Proof.
  induction d as [|c d IH]; [discriminate|]. intros _ He.
  rewrite sapp_cons.
  cbn [rstrip_slash]. destruct d as [|y d].
  - cbn [endswith_slash] in He. rewrite sapp_nil_l. cbn [rstrip_slash].
    rewrite ascii_eqb_refl, He. reflexivity.
  - rewrite (IH eq_refl He). reflexivity.
Qed.

Lemma all_slash_dir d :
  truthy d = true -> endswith_slash d = false -> all_slash (d +:+ "/") = false.
Proof.
  induction d as [|c d IH]; [discriminate|]. intros _ He.
  rewrite sapp_cons.
  cbn [all_slash]. destruct d as [|y d].
  - cbn [endswith_slash] in He. rewrite He. reflexivity.
  - rewrite (IH eq_refl He), andb_false_r. reflexivity.
Qed.

(** A pattern joined to a directory splits back into the two. *)
Lemma split_join d n :
  truthy d = true -> endswith_slash d = false -> has_slash n = false ->
  os_path_split (os_path_join d n) = (d, n).
Proof.
  intros Hd He Hn. rewrite (join_entry d n Hn).
  unfold os_path_split.
  rewrite (split_last_name _ n (join_empty_slashed d) Hn).
  unfold os_path_join. cbn [startswith]. rewrite Hd, He. cbn [negb orb].
  rewrite sapp_nil_r.
  assert (Ht : truthy (d +:+ "/") = true) by (destruct d; [discriminate|reflexivity]).
  rewrite Ht, (all_slash_dir d Hd He), (rstrip_slash_dir d Hd He). reflexivity.
Qed.

(** The temporary directories: their names end in a suffix without a
    slash. *)
Lemma tracer_dir sfx :
  has_slash sfx = false ->
  truthy ("/tmp/tracer_" +:+ sfx) = true
  /\ endswith_slash ("/tmp/tracer_" +:+ sfx) = false.
Proof.
  intros H. split; [reflexivity|].
  destruct sfx as [|c sfx]; [reflexivity|].
  apply (no_slash_no_end (String c sfx)) in H. exact H.
Qed.

End PathFacts.

(** ** Directories and globs in a file system *)

Module FSFacts.
Import PathFacts.
Local Open Scope string_scope.
Local Open Scope list_scope.

Lemma entry_name_join d n :
  Str.truthy n = true -> Str.has_slash n = false ->
  FS.entry_name d (Str.os_path_join d n) = Some n.
Proof.
  intros Ht Hs. unfold FS.entry_name.
  rewrite (join_entry d n Hs), strip_prefix_app, Ht, Hs. reflexivity.
Qed.

Lemma entry_name_inv d k n :
  FS.entry_name d k = Some n ->
  k = Str.os_path_join d n /\ Str.truthy n = true /\ Str.has_slash n = false.
Proof.
  unfold FS.entry_name.
  destruct (Str.strip_prefix _ k) as [m|] eqn:E; [|discriminate].
  destruct (Str.truthy m) eqn:Ht; [|discriminate].
  destruct (Str.has_slash m) eqn:Hs; [discriminate|].
  intros [= <-]. apply strip_prefix_inv in E.
  rewrite (join_entry d m Hs). auto.
Qed.

(** An entry of a directory is a file of the file system. *)
Lemma listdir_elem (fs : gmap string bytes) d n :
  n ∈ FS.listdir fs d ->
  exists c, fs !! Str.os_path_join d n = Some c
            /\ Str.truthy n = true /\ Str.has_slash n = false.
Proof.
  unfold FS.listdir. intros H.
  apply list_elem_of_omap in H as (k & Hk & He).
  apply list_elem_of_fmap in Hk as ([k' c] & -> & Hk).
  apply elem_of_map_to_list in Hk. simpl in He.
  apply entry_name_inv in He as (-> & Ht & Hs).
  exists c. auto.
Qed.

(** A file put into an empty directory is its only entry. *)
Lemma listdir_insert_fresh (fs : gmap string bytes) d n c :
  FS.listdir fs d = [] ->
  Str.truthy n = true -> Str.has_slash n = false ->
  FS.listdir (<[Str.os_path_join d n := c]> fs) d = [n].
Proof.
  intros Hfresh Ht Hs.
  assert (Hnone : fs !! Str.os_path_join d n = None).
  { destruct (fs !! Str.os_path_join d n) as [c0|] eqn:E; [|reflexivity].
    exfalso.
    assert (Hin : n ∈ FS.listdir fs d).
    { unfold FS.listdir. apply list_elem_of_omap.
      exists (Str.os_path_join d n). split.
      - apply list_elem_of_fmap. exists (Str.os_path_join d n, c0).
        split; [reflexivity|]. apply elem_of_map_to_list. exact E.
      - apply entry_name_join; assumption. }
    rewrite Hfresh in Hin. inversion Hin. }
  apply Permutation_singleton_r.
  unfold FS.listdir in *.
  rewrite (map_to_list_insert fs _ c Hnone).
  cbn [fmap list_fmap omap list_omap fst].
  rewrite (entry_name_join d n Ht Hs).
  cbn [fmap] in Hfresh. rewrite Hfresh. reflexivity.
Qed.

(** What a glob that resolves to one path has found. *)
Lemma glob_single_inv (fs : gmap string bytes) d pat p :
  Str.os_path_split (Str.os_path_join d pat) = (d, pat) ->
  FS.glob fs (Str.os_path_join d pat) = [p] ->
  exists n c,
    p = Str.os_path_join d n /\ fs !! p = Some c
    /\ Str.truthy n = true /\ Str.has_slash n = false
    /\ FS.fnmatch n pat = true.
Proof.
  intros Hsp. unfold FS.glob. rewrite Hsp. intros H.
  destruct (filter _ (FS.listdir fs d)) as [|n [|n' l]] eqn:E;
    try discriminate.
  injection H as <-.
  assert (Hin : n ∈ filter (fun name => FS.fnmatch name pat = true)
                     (FS.listdir fs d)).
  { rewrite E. apply list_elem_of_here. }
  apply list_elem_of_filter in Hin as [Hm Hin].
  apply listdir_elem in Hin as (c & Hc & Ht & Hs).
  exists n, c. auto.
Qed.

(** The glob over a directory that holds one matching file. *)
Lemma glob_insert_fresh (fs : gmap string bytes) d pat n c :
  Str.os_path_split (Str.os_path_join d pat) = (d, pat) ->
  FS.listdir fs d = [] ->
  Str.truthy n = true -> Str.has_slash n = false ->
  FS.fnmatch n pat = true ->
  FS.glob (<[Str.os_path_join d n := c]> fs) (Str.os_path_join d pat)
  = [Str.os_path_join d n].
Proof.
  intros Hsp Hfresh Ht Hs Hm. unfold FS.glob. rewrite Hsp.
  rewrite (listdir_insert_fresh fs d n c Hfresh Ht Hs).
  rewrite filter_cons_True by exact Hm. reflexivity.
Qed.

End FSFacts.

(** ** The core dump *)

Module CoreFacts.
Import QEMUTracerBow CoreDump PathFacts FSFacts SessionFacts.
Local Open Scope string_scope.
Local Open Scope list_scope.

Lemma split_pattern sfx :
  Str.has_slash sfx = false ->
  Str.os_path_split (Str.os_path_join ("/tmp/tracer_" +:+ sfx) PATTERN)
  = ("/tmp/tracer_" +:+ sfx, PATTERN).
Proof.
  intros H. destruct (tracer_dir sfx H) as [Ht He].
  apply split_join; [exact Ht|exact He|reflexivity].
Qed.

(** The block on the one core file. *)
Lemma core_block_one env p f r w n c :
  Str.has_slash (local_tmpdir_suffix env) = false ->
  FS.listdir (local_files w) (local_tmpdir env) = [] ->
  target_files w !! p = Some c ->
  Str.os_path_basename p = n ->
  Str.truthy n = true -> Str.has_slash n = false ->
  FS.fnmatch n PATTERN = true ->
  _local_mk_tmpdir (local_tmpdir env) (core_block [p] f r) w
  = (Ok (set_core_path r (Some f)),
     set_local w (relocated env p f c (local_files w))).
Proof.
  intros Hl Hfresh Hc Hb Ht Hs Hm.
  unfold _local_mk_tmpdir, finally, core_block.
  unfold mbind, M_bind, bind, lift, mret, M_ret, ret.
  cbn [Py.index nth_error].
  unfold Target.retrieve_into. rewrite Hc.
  unfold Local.glob. cbn [local_files set_local].
  rewrite Hb.
  fold PATTERN.
  rewrite (glob_insert_fresh (local_files w) (local_tmpdir env) PATTERN n c
             (split_pattern _ Hl) Hfresh Ht Hs Hm).
  cbn [Py.index nth_error].
  unfold Local.move. cbn [local_files set_local target_files].
  rewrite lookup_insert_eq.
  unfold Local.rmtree, relocated. cbn [local_files set_local target_files].
  rewrite Hb. reflexivity.
Qed.

Lemma core_file_not_below env :
  FS.below (local_tmpdir env) (tmp_prefix env +:+ ".core") = false.
Proof. reflexivity. Qed.

Lemma relocated_core env p f c fs :
  FS.below (local_tmpdir env) f = false ->
  relocated env p f c fs !! f = Some c.
Proof.
  intros Hb. unfold relocated, FS.rmtree.
  apply map_lookup_filter_Some. split; [apply lookup_insert_eq|exact Hb].
Qed.

Lemma relocated_tmpdir env p f c fs k :
  FS.below (local_tmpdir env) k = true ->
  relocated env p f c fs !! k = None.
Proof.
  intros Hb. unfold relocated, FS.rmtree.
  apply map_lookup_filter_None. right. intros x _. simpl. rewrite Hb.
  discriminate.
Qed.

End CoreFacts.

(** C7. With the core dump requested: when the glob for the emulator's
    core files in the scratch directory resolves to no path or to more
    than one, the session raises [ArchrError] with the number found; when
    it resolves to exactly one path, the core stage fetches that file into
    the new local directory, moves it to the requested core path, removes
    the directory, and records the path as [core_path], which every result
    of the session then shows. *)
Theorem C7_exactly_one_core_file
    (self : QEMUTracerBow.t) (o : FireOptions) (env : Env) (body : Body)
    (w : World) :
  save_core o = true ->
  QEMUTracerBow.body_outcome self o env body = None
  \/ QEMUTracerBow.body_outcome self o env body = Some TimeoutExpired ->
  let cores :=
    FS.glob (target_files w)
      (Str.os_path_join (QEMUTracerBow.target_tmpdir env) "qemu_*.core") in
  let f := (QEMUTracerBow.tmp_prefix env +:+ ".core")%string in
  (length cores <> 1%nat ->
   QEMUTracerBow.fire_context self o env body w
   = (Raise (ArchrError ("expected 1 core file but found "
                         +:+ Str.of_nat (length cores))), w))
  /\ (forall p,
        cores = [p] ->
        Str.has_slash (tmpdir_suffix env) = false ->
        Str.has_slash (local_tmpdir_suffix env) = false ->
        FS.listdir (local_files w) (QEMUTracerBow.local_tmpdir env) = [] ->
        exists c,
          target_files w !! p = Some c
          /\ let w1 := set_local w (CoreDump.relocated env p f c (local_files w)) in
             (forall r,
                QEMUTracerBow.core_stage env (QEMUTracerBow.target_tmpdir env)
                  (QEMUTracerBow.local_core_filename o env) r w
                = (Ok (set_core_path r (Some f)), w1))
             /\ local_files w1 !! f = Some c
             /\ (forall k,
                   FS.below (QEMUTracerBow.local_tmpdir env) k = true ->
                   local_files w1 !! k = None)
             /\ (forall r' w',
                   QEMUTracerBow.fire_context self o env body w = (Ok r', w') ->
                   core_path r' = Some f /\ w' = w1)).
Proof.
  intros Ho Hbody. cbv zeta.
  destruct (SessionFacts.core_filename_truthy o env Ho) as [Hcf Hty].
  split.
  - intros Hlen.
    assert (Hstage : forall r,
      QEMUTracerBow.core_stage env (QEMUTracerBow.target_tmpdir env)
        (QEMUTracerBow.local_core_filename o env) r w
      = (Raise (ArchrError ("expected 1 core file but found "
           +:+ Str.of_nat (length (FS.glob (target_files w)
                 (Str.os_path_join (QEMUTracerBow.target_tmpdir env) "qemu_*.core"))))),
         w)).
    { intros r. rewrite Hcf, SessionFacts.core_stage_on by exact Hty.
      cbv zeta. apply Nat.eqb_neq in Hlen. rewrite Hlen. reflexivity. }
    rewrite SessionFacts.fire_context_eq. cbv zeta.
    destruct Hbody as [-> | ->]; unfold QEMUTracerBow.pep479;
      rewrite SessionFacts.conclude_eq, Hstage; reflexivity.
  - intros p Hp Hts Hls Hfresh.
    destruct (FSFacts.glob_single_inv (target_files w)
                (QEMUTracerBow.target_tmpdir env) CoreDump.PATTERN p
                (CoreFacts.split_pattern _ Hts) Hp)
      as (n & c & -> & Hc & Hn & Hs & Hm).
    exists c. split; [exact Hc|].
    assert (Hstage : forall r,
      QEMUTracerBow.core_stage env (QEMUTracerBow.target_tmpdir env)
        (QEMUTracerBow.local_core_filename o env) r w
      = (Ok (set_core_path r (Some (QEMUTracerBow.tmp_prefix env +:+ ".core")%string)),
         set_local w
           (CoreDump.relocated env
              (Str.os_path_join (QEMUTracerBow.target_tmpdir env) n)
              (QEMUTracerBow.tmp_prefix env +:+ ".core")%string c (local_files w)))).
    { intros r. rewrite Hcf, SessionFacts.core_stage_on by exact Hty.
      cbv zeta. rewrite Hp. cbn [length Nat.eqb].
      apply (CoreFacts.core_block_one env _ _ r w n c); try assumption.
      apply PathFacts.basename_join. exact Hs. }
    split; [exact Hstage|]. split; [|split].
    + apply CoreFacts.relocated_core, CoreFacts.core_file_not_below.
    + intros k Hk. apply CoreFacts.relocated_tmpdir. exact Hk.
    + intros r' w' H.
      apply SessionFacts.fire_context_ok in H as (timed & _ & H).
      apply SessionFacts.conclude_ok in H as (r1 & r2 & Hcs & Ht & Hmg).
      rewrite Hstage in Hcs. injection Hcs as <- <-.
      split; [|reflexivity].
      apply SessionFacts.trace_stage_ok in Ht as [_ Ht].
      apply SessionFacts.magic_stage_ok in Hmg as [_ Hmg].
      assert (E2 : core_path r' = core_path r2).
      { destruct Hmg as [[_ ->]|(f' & c' & _ & _ & _ & _ & ->)]; reflexivity. }
      rewrite E2.
      destruct Ht as [[_ ->]|(f' & c' & base & es & _ & _ & _ & _ & Ht)];
        [reflexivity|].
      destruct Ht as [[_ ->]|(last & _ & _ & ->)]; reflexivity.
Qed.

Lemma C7_exactly_one_core_file_witness :
  save_core Scenario.only_core = true
  /\ QEMUTracerBow.body_outcome Scenario.linux Scenario.only_core
       (Scenario.env (Some 139)) Scenario.idle = None
  /\ FS.glob (target_files (Scenario.with_cores ["qemu_target_1234.core"%string]))
       (Str.os_path_join (QEMUTracerBow.target_tmpdir (Scenario.env (Some 139)))
          "qemu_*.core")
     = ["/tmp/tracer_k3v_9qza/qemu_target_1234.core"%string]
  /\ exists r' w',
       QEMUTracerBow.fire_context Scenario.linux Scenario.only_core
         (Scenario.env (Some 139)) Scenario.idle
         (Scenario.with_cores ["qemu_target_1234.core"%string]) = (Ok r', w')
       /\ core_path r' = Some "/tmp/tracer-x0h2m_ab.core"%string
       /\ local_files w' !! "/tmp/tracer-x0h2m_ab.core"%string = Some (B "CORE").
Proof.
  assert (Hg : FS.glob (target_files (Scenario.with_cores ["qemu_target_1234.core"%string]))
       (Str.os_path_join (QEMUTracerBow.target_tmpdir (Scenario.env (Some 139)))
          "qemu_*.core")
     = ["/tmp/tracer_k3v_9qza/qemu_target_1234.core"%string]).
  { vm_compute. reflexivity. }
  split; [reflexivity|]. split; [reflexivity|]. split; [exact Hg|].
  destruct (QEMUTracerBow.fire_context Scenario.linux Scenario.only_core
              (Scenario.env (Some 139)) Scenario.idle
              (Scenario.with_cores ["qemu_target_1234.core"%string]))
    as [[r'|e] w'] eqn:E; [|vm_compute in E; discriminate].
  exists r', w'. split; [reflexivity|].
  destruct (proj2 (C7_exactly_one_core_file Scenario.linux Scenario.only_core
                     (Scenario.env (Some 139)) Scenario.idle
                     (Scenario.with_cores ["qemu_target_1234.core"%string])
                     eq_refl (or_introl eq_refl))
              "/tmp/tracer_k3v_9qza/qemu_target_1234.core"%string
              Hg eq_refl eq_refl eq_refl)
    as (c & Hc & _ & Hf & _ & Hsession).
  destruct (Hsession r' w' E) as [Hcp ->].
  split; [exact Hcp|].
  vm_compute in Hc. injection Hc as <-. exact Hf.
Defined.

(** No core file, and two of them. *)
Example no_core_file :
  fst (QEMUTracerBow.fire_context Scenario.linux Scenario.only_core
         (Scenario.env (Some 139)) Scenario.idle (Scenario.with_cores []))
  = Raise (ArchrError "expected 1 core file but found 0").
Proof. vm_compute. reflexivity. Qed.

Example two_core_files :
  fst (QEMUTracerBow.fire_context Scenario.linux Scenario.only_core
         (Scenario.env (Some 139)) Scenario.idle
         (Scenario.with_cores ["qemu_a.core"%string; "qemu_b.core"%string]))
  = Raise (ArchrError "expected 1 core file but found 2").
Proof. vm_compute. reflexivity. Qed.

(** A file of another name in the scratch directory is not counted. *)
Example other_file_is_ignored :
  FS.glob (target_files (Scenario.with_cores
                           ["qemu_a.core"%string; "core"%string; "qemu_a.core.gz"%string]))
    "/tmp/tracer_k3v_9qza/qemu_*.core"
  = ["/tmp/tracer_k3v_9qza/qemu_a.core"%string].
Proof. vm_compute. reflexivity. Qed.

(** * Further properties of the tracer *)

(** ** The result record *)

Module ResultFacts.
Import QEMUTracerBow SessionFacts StatusFacts TraceFacts.
Local Open Scope string_scope.
Local Open Scope list_scope.

Lemma classify_core_path r0 :
  core_path (classify r0) = core_path r0 /\ socket (classify r0) = socket r0.
Proof. destruct (classify_cases r0) as [[_ ->]|[_ ->]]; auto. Qed.

Lemma status_stage_core_path p env p' timed :
  core_path (status_stage p (at_exit env p' timed)) = None
  /\ socket (status_stage p (at_exit env p' timed)) = None.
Proof.
  destruct timed.
  - rewrite status_stage_timed. auto.
  - rewrite status_stage_completed.
    destruct (classify_core_path
                (set_returncode (at_exit env p' false) (p_returncode p)))
      as [-> ->].
    auto.
Qed.

(** What the trace and magic stages leave alone. *)
Lemma later_stages_keep self o env r1 r w :
  (exists r2,
     trace_stage self (target_trace_filename o env) r1 w = (Ok r2, w)
     /\ magic_stage (target_magic_filename o env) r2 w = (Ok r, w)) ->
  core_path r = core_path r1 /\ socket r = socket r1.
Proof.
  intros (r2 & Ht & Hm).
  apply trace_stage_ok in Ht as [_ Ht].
  apply magic_stage_ok in Hm as [_ Hm].
  assert (E2 : core_path r = core_path r2 /\ socket r = socket r2).
  { destruct Hm as [[_ ->]|(f & c & _ & _ & _ & _ & ->)]; auto. }
  destruct E2 as [-> ->].
  destruct Ht as [[_ ->]|(f & c & base & es & _ & _ & _ & _ & Ht)];
    [auto|].
  destruct Ht as [[_ ->]|(last & _ & _ & ->)]; auto.
Qed.

Lemma core_stage_core_path o env tmpdir r w r1 w1 :
  core_stage env tmpdir (local_core_filename o env) r w = (Ok r1, w1) ->
  core_path r1
  = if save_core o then Some (tmp_prefix env +:+ ".core") else core_path r.
Proof.
  unfold local_core_filename. destruct (save_core o).
  - rewrite core_stage_on by reflexivity. cbv zeta.
    destruct (Nat.eqb _ 1); [|discriminate].
    unfold _local_mk_tmpdir, finally.
    destruct (core_block _ _ r (local_tmpdir env) w) as [x w2] eqn:E.
    intros [= -> <-]. apply core_block_frame in E. subst r1. reflexivity.
  - rewrite core_stage_off. intros [= <- _]. reflexivity.
Qed.

Lemma magic_of_result self o env body w r w' :
  fire_context self o env body w = (Ok r, w') ->
  if record_magic o
  then exists c,
         target_files w !! (tmp_prefix env +:+ ".magic") = Some c
         /\ length c = 4096%nat /\ magic_contents r = Some c
  else magic_contents r = None.
Proof.
  intros H. apply fire_context_ok in H as (timed & _ & H).
  apply conclude_ok in H as (r1 & r2 & Hc & Ht & Hm).
  pose proof (status_stage_keeps
                (reaped env (fst (body (started (target_cmd self o env)))))
                env (fst (body (started (target_cmd self o env)))) timed) as Hs.
  cbv zeta in Hs. destruct Hs as (_ & _ & _ & Hs).
  apply core_stage_frame in Hc as [Hc Htf].
  assert (K1 : magic_contents r1 = None) by (rewrite Hc; exact Hs).
  apply trace_stage_ok in Ht as [_ Ht].
  assert (K2 : magic_contents r2 = None).
  { destruct Ht as [[_ ->]|(f & c & base & es & _ & _ & _ & _ & Ht)];
      [exact K1|].
    destruct Ht as [[_ ->]|(last & _ & _ & ->)]; exact K1. }
  apply magic_stage_ok in Hm as [_ Hm].
  unfold target_magic_filename in Hm.
  destruct (record_magic o).
  - destruct Hm as [[Hoff _]|(f & c & Hf & _ & Hc' & Hl & ->)];
      [discriminate|].
    injection Hf as <-. rewrite Htf in Hc'. exists c. auto.
  - destruct Hm as [[_ ->]|(f & c & Hf & _)]; [exact K2|discriminate].
Qed.

Lemma core_path_of_result self o env body w r w' :
  fire_context self o env body w = (Ok r, w') ->
  core_path r
  = if save_core o then Some (tmp_prefix env +:+ ".core") else None.
Proof.
  intros H. apply fire_context_ok in H as (timed & _ & H).
  apply conclude_ok in H as (r1 & r2 & Hc & Ht & Hm).
  destruct (later_stages_keep self o env r1 r w') as [-> _]; [eauto|].
  rewrite (core_stage_core_path _ _ _ _ _ _ _ Hc).
  destruct (save_core o); [reflexivity|].
  apply status_stage_core_path.
Qed.

Lemma socket_of_result self o env body w r w' :
  fire_context self o env body w = (Ok r, w') -> socket r = None.
Proof.
  intros H. apply fire_context_ok in H as (timed & _ & H).
  apply conclude_ok in H as (r1 & r2 & Hc & Ht & Hm).
  destruct (later_stages_keep self o env r1 r w') as [_ ->]; [eauto|].
  apply core_stage_frame in Hc as [-> _]. simpl.
  apply status_stage_core_path.
Qed.

End ResultFacts.

(** ** What a session touches *)

Module FootprintFacts.
Import QEMUTracerBow SessionFacts PathFacts FSFacts.
Local Open Scope string_scope.
Local Open Scope list_scope.

Lemma startswith_sapp p s : Str.startswith p (p +:+ s) = true.
Proof.
  induction p as [|c p IH]; [reflexivity|].
  rewrite sapp_cons. simpl. rewrite ascii_eqb_refl. exact IH.
Qed.

Lemma split_last_no_slash p : Str.has_slash (snd (Str.split_last p)) = false.
Proof.
  induction p as [|c p IH]; [reflexivity|].
  simpl. destruct (Str.has_slash p) eqn:Hp.
  - destruct (Str.split_last p) as [h t]. exact IH.
  - destruct (Ascii.eqb c Str.SLASH) eqn:Hc; simpl; [exact Hp|].
    rewrite Hc, Hp. reflexivity.
Qed.

(** What [os.path.join] puts under a directory lies below it. *)
Lemma below_join d n :
  Str.truthy d = true -> Str.endswith_slash d = false ->
  Str.has_slash n = false ->
  FS.below d (Str.os_path_join d n) = true.
Proof.
  intros Hd He Hn. unfold FS.below, Str.os_path_join.
  rewrite (no_slash_no_root n Hn), Hd, He. simpl.
  rewrite <- sapp_assoc, startswith_sapp. apply orb_true_r.
Qed.

Lemma rmtree_lookup (fs : gmap string bytes) d k :
  FS.rmtree fs d !! k = if FS.below d k then None else fs !! k.
Proof.
  unfold FS.rmtree. destruct (FS.below d k) eqn:E.
  - apply map_lookup_filter_None. right. intros x _. simpl. congruence.
  - destruct (fs !! k) as [x|] eqn:Hk.
    + apply map_lookup_filter_Some. split; [exact Hk|exact E].
    + apply map_lookup_filter_None. left. exact Hk.
Qed.

Lemma glob_elem (fs : gmap string bytes) d pat p :
  Str.os_path_split (Str.os_path_join d pat) = (d, pat) ->
  p ∈ FS.glob fs (Str.os_path_join d pat) ->
  exists n, p = Str.os_path_join d n /\ Str.has_slash n = false.
Proof.
  intros Hs. unfold FS.glob. rewrite Hs.
  intros H. apply list_elem_of_fmap in H as (n & -> & H).
  apply list_elem_of_filter in H as [_ H].
  apply listdir_elem in H as (c & _ & _ & Hn).
  exists n. auto.
Qed.

Lemma index_elem {A : Type} (l : list A) i x : Py.index l i = Ok x -> x ∈ l.
Proof.
  unfold Py.index. destruct (nth_error l i) as [y|] eqn:E; [|discriminate].
  intros [= <-]. apply list_elem_of_In. eapply nth_error_In, E.
Qed.

(** The block of the core stage changes local files only below its
    directory and at the core path. *)
Lemma core_block_local cores f r d w k :
  Str.truthy d = true -> Str.endswith_slash d = false ->
  Str.os_path_split (Str.os_path_join d "qemu_*.core") = (d, "qemu_*.core") ->
  k <> f -> FS.below d k = false ->
  local_files (snd (core_block cores f r d w)) !! k = local_files w !! k.
Proof.
  intros Hd He Hs Hkf Hk.
  unfold core_block, mbind, M_bind, bind, lift, mret, M_ret, ret.
  destruct (Py.index cores 0) as [core|]; [|reflexivity].
  assert (Hins : k <> Str.os_path_join d (Str.os_path_basename core)).
  { intros ->. rewrite below_join in Hk; [discriminate|assumption..|].
    apply split_last_no_slash. }
  unfold Target.retrieve_into.
  destruct (target_files w !! core) as [c|]; [|reflexivity].
  unfold Local.glob. cbn [local_files set_local].
  set (fs1 := <[_ := c]> (local_files w)).
  assert (H1 : fs1 !! k = local_files w !! k).
  { unfold fs1. apply lookup_insert_ne. congruence. }
  destruct (Py.index (FS.glob fs1 _) 0) as [src|] eqn:Ei; [|exact H1].
  apply index_elem, (glob_elem _ _ _ _ Hs) in Ei as (n & -> & Hn).
  unfold Local.move. cbn [local_files set_local].
  destruct (fs1 !! Str.os_path_join d n) as [c'|]; [|exact H1].
  cbn [snd local_files set_local].
  rewrite lookup_insert_ne by congruence.
  rewrite lookup_delete_ne; [exact H1|].
  intros E. rewrite <- E, below_join in Hk; [discriminate|assumption..].
Qed.

Lemma core_stage_local env tmpdir lcf r w k :
  Str.has_slash (local_tmpdir_suffix env) = false ->
  Some k <> lcf -> FS.below (local_tmpdir env) k = false ->
  local_files (snd (core_stage env tmpdir lcf r w)) !! k = local_files w !! k.
Proof.
  intros Hsfx Hkf Hk.
  destruct lcf as [f|]; [|reflexivity].
  destruct (Str.truthy f) eqn:Hf.
  - rewrite core_stage_on by exact Hf. cbv zeta.
    destruct (Nat.eqb _ 1); [|reflexivity].
    unfold _local_mk_tmpdir, finally.
    pose proof (core_block_local
                  (FS.glob (target_files w) (Str.os_path_join tmpdir "qemu_*.core"))
                  f r (local_tmpdir env) w k) as H.
    destruct (core_block _ f r (local_tmpdir env) w) as [x w1].
    cbn [snd] in *. unfold Local.rmtree. cbn [local_files set_local].
    rewrite rmtree_lookup, Hk. apply H.
    + apply (tracer_dir _ Hsfx).
    + apply (tracer_dir _ Hsfx).
    + apply (CoreFacts.split_pattern _ Hsfx).
    + congruence.
    + exact Hk.
  - unfold core_stage. rewrite Hf. reflexivity.
Qed.

Lemma core_stage_below env tmpdir lcf r w k :
  FS.below (local_tmpdir env) k = true ->
  local_files w !! k = None ->
  local_files (snd (core_stage env tmpdir lcf r w)) !! k = None.
Proof.
  intros Hb Hk.
  destruct lcf as [f|]; [|exact Hk].
  destruct (Str.truthy f) eqn:Hf.
  - rewrite core_stage_on by exact Hf. cbv zeta.
    destruct (Nat.eqb _ 1); [|exact Hk].
    unfold _local_mk_tmpdir, finally.
    destruct (core_block _ f r (local_tmpdir env) w) as [x w1].
    cbn [snd]. unfold Local.rmtree. cbn [local_files set_local].
    rewrite rmtree_lookup, Hb. reflexivity.
  - unfold core_stage. rewrite Hf. exact Hk.
Qed.

(** Only the core stage changes the world. *)
Lemma conclude_world self o env tmpdir p r w :
  snd (conclude self o env tmpdir p r w)
  = snd (core_stage env tmpdir (local_core_filename o env) (status_stage p r) w).
Proof.
  rewrite conclude_eq.
  destruct (core_stage _ _ _ _ w) as [[r1|] w1]; [|reflexivity].
  pose proof (trace_stage_world self (target_trace_filename o env) r1 w1) as E1.
  destruct (trace_stage _ _ r1 w1) as [[r2|] w2]; cbn [snd] in *; subst w2;
    [|reflexivity].
  apply magic_stage_world.
Qed.

Lemma fire_context_world self o env body w :
  snd (fire_context self o env body w) = w
  \/ exists p r,
       snd (fire_context self o env body w)
       = snd (core_stage env (target_tmpdir env) (local_core_filename o env)
                (status_stage p r) w).
Proof.
  rewrite fire_context_eq. cbv zeta.
  destruct (body_outcome self o env body) as [[|e]|].
  - right. eexists _, _. rewrite pep479_world. apply conclude_world.
  - left. reflexivity.
  - right. eexists _, _. rewrite pep479_world. apply conclude_world.
Qed.

End FootprintFacts.

(** ** The items of a test case *)

Module FeedFacts.
Import QEMUTracerBow.

Lemma encoded_all_length l : forall ds,
  encoded_all l = Ok ds -> length ds = length l.
Proof.
  induction l as [|x l IH]; intros ds H; simpl in H.
  - injection H as <-. reflexivity.
  - destruct (encoded x) as [d|]; [|discriminate].
    destruct (encoded_all l) as [ds'|]; [|discriminate].
    injection H as <-. simpl. rewrite (IH ds' eq_refl). reflexivity.
Qed.

Lemma encoded_all_lookup l : forall ds,
  encoded_all l = Ok ds ->
  forall (i : nat) x, l !! i = Some x ->
    exists d, ds !! i = Some d /\ encoded x = Ok d.
Proof.
  induction l as [|y l IH]; intros ds H i x Hi; [discriminate|].
  simpl in H.
  destruct (encoded y) as [d|] eqn:Hy; [|discriminate].
  destruct (encoded_all l) as [ds'|]; [|discriminate].
  injection H as <-.
  destruct i as [|i].
  - injection Hi as <-. exists d. auto.
  - apply (IH ds' eq_refl i x Hi).
Qed.

Lemma write_all_app l1 l2 : forall p,
  write_all (l1 ++ l2) p
  = match write_all l1 p with
    | (p', None) => write_all l2 p'
    | stopped => stopped
    end.
Proof.
  induction l1 as [|x l1 IH]; intros p; [reflexivity|].
  cbn [app write_all].
  destruct (encoded x) as [d|]; [|reflexivity].
  destruct (stdin_write d p) as [p'|]; [apply IH|reflexivity].
Qed.

Lemma utf8_raises s e : Utf8.encode s = Raise e -> e = UnicodeEncodeError.
Proof.
  induction s as [|cp s IH]; [discriminate|].
  simpl. destruct (Utf8.encode_cp cp); [|congruence].
  destruct (Utf8.encode s); [discriminate|].
  intros [= <-]. apply IH. reflexivity.
Qed.

(** Only a [str] can fail to encode. *)
Lemma encoded_raises x e :
  encoded x = Raise e -> e = UnicodeEncodeError /\ exists s, x = PStr s.
Proof.
  destruct x as [s|c]; [|discriminate].
  simpl. intros H. split; [eapply utf8_raises, H|eauto].
Qed.

End FeedFacts.

(** ** Every result of a session *)

(** X1. The status fields of every result a session returns: [timed_out]
    is [True] exactly when the body ran into [TimeoutExpired] and [False]
    exactly when it returned; the return code is absent after a timeout and
    else the one of the process; [crashed] is [True] exactly for the return
    codes 139 and -11 and is never [False]; [signal] is [SIGSEGV] exactly
    when [crashed] is [True], and is never [SIGILL]. *)
Theorem result_status_invariant
    (self : QEMUTracerBow.t) (o : FireOptions) (env : Env) (body : Body)
    (w w' : World) (r : TraceResults) :
  QEMUTracerBow.fire_context self o env body w = (Ok r, w') ->
  (timed_out r = Some true
   <-> QEMUTracerBow.body_outcome self o env body = Some TimeoutExpired)
  /\ (timed_out r = Some false
      <-> QEMUTracerBow.body_outcome self o env body = None)
  /\ returncode r
     = (if optb_truthy (timed_out r) then None else proc_returncode env)
  /\ (crashed r = Some true <-> QEMUTracerBow.segv (returncode r))
  /\ crashed r <> Some false
  /\ (signal r = Some SIGSEGV <-> crashed r = Some true)
  /\ signal r <> Some SIGILL.
Proof.
  intros H.
  apply StatusFacts.fire_context_status in H as (timed & Hb & Ht & Hy & Hn).
  rewrite Hb, Ht. destruct timed.
  - destruct (Hy eq_refl) as (-> & -> & ->). simpl.
    repeat split; try discriminate; try reflexivity.
    intros [E|E]; discriminate.
  - destruct (Hn eq_refl) as (-> & [(Hs & -> & ->)|(Hs & -> & ->)]); simpl;
      repeat split; try discriminate; try reflexivity; try (intros; exact Hs);
      intros; contradiction.
Qed.

Lemma result_status_invariant_witness :
  exists r w',
    QEMUTracerBow.fire_context Scenario.linux Scenario.only_trace
      (Scenario.env (Some (-11))) Scenario.idle
      (Scenario.traced Scenario.linux Scenario.two_blocks) = (Ok r, w')
    /\ (crashed r = Some true <-> QEMUTracerBow.segv (returncode r))
    /\ signal r <> Some SIGILL.
Proof.
  destruct (QEMUTracerBow.fire_context Scenario.linux Scenario.only_trace
              (Scenario.env (Some (-11))) Scenario.idle
              (Scenario.traced Scenario.linux Scenario.two_blocks))
    as [[r|e] w'] eqn:E; [|vm_compute in E; discriminate].
  exists r, w'. split; [reflexivity|].
  pose proof (result_status_invariant Scenario.linux Scenario.only_trace
                (Scenario.env (Some (-11))) Scenario.idle
                (Scenario.traced Scenario.linux Scenario.two_blocks) w' r E)
    as (_ & _ & _ & H4 & _ & _ & H7).
  split; assumption.
Defined.

(** X2. The fields a session fills on request. In every result,
    [crash_address] is set exactly when a crash was detected and the trace
    was recorded; [core_path] is the requested core path when a core dump
    was asked for and unset otherwise; [magic_contents] is, when the magic
    page was asked for, the 4096 bytes of the magic file on the target,
    and unset otherwise; [socket] is never set. *)
Theorem result_fields_as_requested
    (self : QEMUTracerBow.t) (o : FireOptions) (env : Env) (body : Body)
    (w w' : World) (r : TraceResults) :
  QEMUTracerBow.fire_context self o env body w = (Ok r, w') ->
  (crash_address r <> None
   <-> crashed r = Some true /\ record_trace o = true)
  /\ core_path r
     = (if save_core o
        then Some (QEMUTracerBow.tmp_prefix env +:+ ".core")%string else None)
  /\ (if record_magic o
      then exists c,
             target_files w !! (QEMUTracerBow.tmp_prefix env +:+ ".magic")%string
             = Some c
             /\ length c = 4096%nat /\ magic_contents r = Some c
      else magic_contents r = None)
  /\ socket r = None.
Proof.
  intros H. split; [|split; [|split]].
  - pose proof (StatusFacts.fire_context_status _ _ _ _ _ _ _ H)
      as (timed & _ & _ & Hy & Hn).
    apply TraceFacts.fire_context_trace in H
      as [(Ho & _ & _ & ->)|(c & base & es & Ho & _ & _ & _ & _ & Ha)].
    + rewrite Ho. split; [congruence|intros [_ E]; discriminate].
    + rewrite Ho.
      assert (Hc : crashed r = Some true \/ crashed r = None).
      { destruct timed.
        - right. apply (Hy eq_refl).
        - destruct (Hn eq_refl) as (_ & [(_ & E & _)|(_ & E & _)]); auto. }
      destruct Ha as [[Hf ->]|(last & Ht & _ & ->)].
      * split; [congruence|]. intros [E _]. rewrite E in Hf. discriminate.
      * split; [|discriminate]. intros _. split; [|reflexivity].
        destruct Hc as [E|E]; [exact E|]. rewrite E in Ht. discriminate.
  - apply ResultFacts.core_path_of_result in H. exact H.
  - apply ResultFacts.magic_of_result in H. exact H.
  - apply ResultFacts.socket_of_result in H. exact H.
Qed.

Lemma result_fields_as_requested_witness :
  exists r w',
    QEMUTracerBow.fire_context Scenario.cgc Scenario.only_magic
      (Scenario.env (Some 0)) Scenario.idle (Scenario.with_magic 4096)
    = (Ok r, w')
    /\ crash_address r = None /\ core_path r = None /\ socket r = None
    /\ exists c, length c = 4096%nat /\ magic_contents r = Some c.
Proof.
  destruct (QEMUTracerBow.fire_context Scenario.cgc Scenario.only_magic
              (Scenario.env (Some 0)) Scenario.idle (Scenario.with_magic 4096))
    as [[r|e] w'] eqn:E; [|vm_compute in E; discriminate].
  exists r, w'. split; [reflexivity|].
  pose proof (result_fields_as_requested Scenario.cgc Scenario.only_magic
                (Scenario.env (Some 0)) Scenario.idle (Scenario.with_magic 4096)
                w' r E) as (H1 & H2 & H3 & H4).
  cbn [record_magic save_core record_trace Scenario.only_magic] in H1, H2, H3.
  destruct H3 as (c & _ & Hl & Hc).
  split; [|split; [exact H2|split; [exact H4|exists c; auto]]].
  destruct (crash_address r) as [a|]; [|reflexivity].
  destruct (proj1 H1 ltac:(discriminate)) as [_ F]. discriminate F.
Defined.

(** ** What a session touches *)

(** X3. What a session leaves of the two file systems, however it ends
    (with a result or with an exception): the files of the target are as
    they were; without a core dump requested the local files are too; with
    one, no local file is changed other than the core path and what lies
    below the session's own temporary directory, and a directory that held
    nothing before holds nothing afterwards. *)
Theorem session_footprint
    (self : QEMUTracerBow.t) (o : FireOptions) (env : Env) (body : Body)
    (w : World) :
  Str.has_slash (local_tmpdir_suffix env) = false ->
  let w' := snd (QEMUTracerBow.fire_context self o env body w) in
  target_files w' = target_files w
  /\ (save_core o = false -> w' = w)
  /\ (forall k,
        k <> (QEMUTracerBow.tmp_prefix env +:+ ".core")%string ->
        FS.below (QEMUTracerBow.local_tmpdir env) k = false ->
        local_files w' !! k = local_files w !! k)
  /\ (forall k,
        FS.below (QEMUTracerBow.local_tmpdir env) k = true ->
        local_files w !! k = None -> local_files w' !! k = None).
Proof.
  intros Hsfx. cbv zeta.
  destruct (FootprintFacts.fire_context_world self o env body w)
    as [-> | (p & r & ->)]; [auto|].
  split; [apply SessionFacts.core_stage_target|]. split; [|split].
  - unfold QEMUTracerBow.local_core_filename. intros ->. reflexivity.
  - intros k Hk Hb. apply FootprintFacts.core_stage_local; [exact Hsfx| |exact Hb].
    unfold QEMUTracerBow.local_core_filename.
    destruct (save_core o); congruence.
  - intros k Hb Hk. apply FootprintFacts.core_stage_below; assumption.
Qed.

Lemma session_footprint_witness :
  let w := mkWorld (target_files (Scenario.with_cores ["qemu_a.core"%string]))
             {[ "/home/user/notes"%string := B "keep" ]} in
  let w' := snd (QEMUTracerBow.fire_context Scenario.linux Scenario.only_core
                   (Scenario.env (Some 0)) Scenario.idle w) in
  target_files w' = target_files w
  /\ local_files w' !! "/home/user/notes"%string = Some (B "keep").
Proof.
  cbv zeta.
  pose proof (session_footprint Scenario.linux Scenario.only_core
                (Scenario.env (Some 0)) Scenario.idle
                (mkWorld (target_files (Scenario.with_cores ["qemu_a.core"%string]))
                   {[ "/home/user/notes"%string := B "keep" ]})
                eq_refl) as (H1 & _ & H3 & _).
  split; [exact H1|].
  rewrite H3; [reflexivity| |reflexivity].
  intros E. vm_compute in E. discriminate E.
Defined.

(** X4. The context manager for the local temporary directory: whatever
    the block under it does, and whether it returns or raises, its outcome
    is passed on as it is, nothing is left at or below the directory, no
    entry of the directory is left to list, and every other local file and
    every file of the target is as the block left it. *)
Theorem local_tmpdir_is_removed
    (A : Type) (tmpdir : string) (block : string -> M A) (w : World) :
  let after_block := block tmpdir w in
  let after := QEMUTracerBow._local_mk_tmpdir tmpdir block w in
  fst after = fst after_block
  /\ target_files (snd after) = target_files (snd after_block)
  /\ (forall k,
        local_files (snd after) !! k
        = if FS.below tmpdir k then None
          else local_files (snd after_block) !! k)
  /\ (Str.truthy tmpdir = true -> Str.endswith_slash tmpdir = false ->
      FS.listdir (local_files (snd after)) tmpdir = []).
Proof.
  cbv zeta. unfold QEMUTracerBow._local_mk_tmpdir, finally.
  destruct (block tmpdir w) as [res w1]. cbn [fst snd].
  split; [reflexivity|]. split; [reflexivity|]. split.
  - intros k. apply FootprintFacts.rmtree_lookup.
  - intros Hd He. unfold Local.rmtree. cbn [local_files set_local].
    destruct (FS.listdir (FS.rmtree (local_files w1) tmpdir) tmpdir)
      as [|n ns] eqn:E; [reflexivity|].
    assert (Hn : n ∈ FS.listdir (FS.rmtree (local_files w1) tmpdir) tmpdir)
      by (rewrite E; left).
    apply FSFacts.listdir_elem in Hn as (c & Hc & _ & Hs).
    rewrite FootprintFacts.rmtree_lookup in Hc.
    rewrite (FootprintFacts.below_join tmpdir n Hd He Hs) in Hc.
    discriminate.
Qed.

Lemma local_tmpdir_is_removed_witness :
  FS.listdir
    (local_files
       (snd (QEMUTracerBow._local_mk_tmpdir "/tmp/tracer_ab"%string
               (fun d => Target.retrieve_into "/cores/qemu_x.core"%string d)
               (mkWorld {[ "/cores/qemu_x.core"%string := B "CORE" ]} ∅))))
    "/tmp/tracer_ab"%string
  = [].
Proof.
  exact (proj2 (proj2 (proj2
           (local_tmpdir_is_removed unit "/tmp/tracer_ab"%string
              (fun d => Target.retrieve_into "/cores/qemu_x.core"%string d)
              (mkWorld {[ "/cores/qemu_x.core"%string := B "CORE" ]} ∅))))
           eq_refl eq_refl).
Defined.

(** ** Feeding the test case *)

(** X5. [fire] on a list of items that all can be encoded: its body writes
    the data of every item, in the order of the list, to the standard
    input of the started process and then closes the stream; the session
    goes on from the handle with these writes, one per item, and the
    stream closed, and what [fire] gives is what the session concludes
    from it. Where no artefact is asked for, [fire] returns a result,
    which shows that handle and [timed_out = False]; and so does every
    result that [fire] returns. For the empty test case, the default,
    nothing is written and the stream is closed. *)
Theorem fire_writes_every_item
    (self : QEMUTracerBow.t) (o : FireOptions) (env : Env)
    (l : list pyitem) (ds : list bytes) (w : World) :
  QEMUTracerBow.encoded_all l = Ok ds ->
  let cmd := QEMUTracerBow.target_cmd self o env in
  let left_with := mkProcess cmd ds true None in
  QEMUTracerBow.fire_body l (QEMUTracerBow.started cmd) = (left_with, None)
  /\ length ds = length l
  /\ (forall i x, l !! i = Some x ->
        exists d, ds !! i = Some d /\ QEMUTracerBow.encoded x = Ok d)
  /\ QEMUTracerBow.fire self o env (Many l) w
     = QEMUTracerBow.pep479
         (QEMUTracerBow.conclude self o env (QEMUTracerBow.target_tmpdir env)
            (QEMUTracerBow.reaped env left_with)
            (QEMUTracerBow.at_exit env left_with false)) w
  /\ (record_trace o = false -> record_magic o = false ->
      save_core o = false ->
      exists r,
        QEMUTracerBow.fire self o env (Many l) w = (Ok r, w)
        /\ timed_out r = Some false
        /\ returncode r = proc_returncode env
        /\ process r = Some (mkProcess cmd ds true (proc_returncode env)))
  /\ (forall r w',
        QEMUTracerBow.fire self o env (Many l) w = (Ok r, w') ->
        timed_out r = Some false
        /\ process r = Some (mkProcess cmd ds true (proc_returncode env))).
Proof.
  intros Hl. cbv zeta.
  pose proof (FireFacts.fire_body_ok l (QEMUTracerBow.target_cmd self o env)
                ds Hl) as Hb.
  split; [exact Hb|]. split; [|split; [|split; [|split]]].
  - apply (FeedFacts.encoded_all_length l ds Hl).
  - apply (FeedFacts.encoded_all_lookup l ds Hl).
  - exact (FireFacts.fire_fed self o env l ds w Hl).
  - exact (FireFacts.fire_fed_plain self o env l ds w Hl).
  - intros r w' H. unfold QEMUTracerBow.fire in H.
    cbn [QEMUTracerBow.as_list] in H.
    pose proof (StatusFacts.fire_context_status _ _ _ _ _ _ _ H)
      as (timed & Ho & Ht & _).
    unfold QEMUTracerBow.body_outcome in Ho. rewrite Hb in Ho.
    destruct timed; [discriminate|]. split; [exact Ht|].
    apply SessionFacts.fire_context_ok in H as (timed & _ & H).
    apply StatusFacts.conclude_status in H. cbv zeta in H.
    destruct H as (_ & _ & _ & _ & ->).
    rewrite FireFacts.status_stage_process, Hb. reflexivity.
Qed.

Lemma fire_writes_every_item_witness :
  exists r,
    QEMUTracerBow.fire Scenario.linux Scenario.no_trace (Scenario.env (Some 0))
      (Many [PBytes (B "AA"); PStr [233%N]; PBytes []]) (mkWorld ∅ ∅)
    = (Ok r, mkWorld ∅ ∅)
    /\ timed_out r = Some false
    /\ returncode r = Some 0
    /\ process r
       = Some (mkProcess
                 (QEMUTracerBow.target_cmd Scenario.linux Scenario.no_trace
                    (Scenario.env (Some 0)))
                 [B "AA"; [xc3; xa9]; []] true (Some 0)).
Proof.
  exact (proj1 (proj2 (proj2 (proj2 (proj2
           (fire_writes_every_item Scenario.linux Scenario.no_trace
              (Scenario.env (Some 0))
              [PBytes (B "AA"); PStr [233%N]; PBytes []]
              [B "AA"; [xc3; xa9]; []] (mkWorld ∅ ∅) eq_refl)))))
           eq_refl eq_refl eq_refl).
Defined.

(** X6. [fire] on a test case with an item that cannot be encoded (a [str]
    with a lone surrogate): the items before it are written, in order, then
    the encoding raises [UnicodeEncodeError]; the stream is not closed, the
    items behind it are never looked at, and [fire] raises that exception
    without retrieving anything: no result, and the files as they were. *)
Theorem fire_stops_at_a_bad_item
    (self : QEMUTracerBow.t) (o : FireOptions) (env : Env)
    (l1 l2 : list pyitem) (bad : pyitem) (ds : list bytes) (e : exn)
    (w : World) :
  QEMUTracerBow.encoded_all l1 = Ok ds ->
  QEMUTracerBow.encoded bad = Raise e ->
  let cmd := QEMUTracerBow.target_cmd self o env in
  e = UnicodeEncodeError
  /\ QEMUTracerBow.fire_body (l1 ++ bad :: l2) (QEMUTracerBow.started cmd)
     = (mkProcess cmd ds false None, Some (Other e))
  /\ QEMUTracerBow.fire self o env (Many (l1 ++ bad :: l2)) w = (Raise e, w).
Proof.
  intros Hl Hbad. cbv zeta.
  assert (Hb : QEMUTracerBow.fire_body (l1 ++ bad :: l2)
                 (QEMUTracerBow.started (QEMUTracerBow.target_cmd self o env))
               = (mkProcess (QEMUTracerBow.target_cmd self o env) ds false None,
                  Some (Other e))).
  { unfold QEMUTracerBow.fire_body. rewrite FeedFacts.write_all_app.
    rewrite (FireFacts.write_all_ok l1
               (QEMUTracerBow.started (QEMUTracerBow.target_cmd self o env))
               ds eq_refl Hl).
    cbn [QEMUTracerBow.write_all]. rewrite Hbad. reflexivity. }
  split; [apply (FeedFacts.encoded_raises bad e Hbad)|]. split; [exact Hb|].
  unfold QEMUTracerBow.fire. cbn [QEMUTracerBow.as_list].
  rewrite SessionFacts.fire_context_eq. cbv zeta.
  unfold QEMUTracerBow.body_outcome. rewrite Hb. reflexivity.
Qed.

Lemma fire_stops_at_a_bad_item_witness :
  QEMUTracerBow.fire Scenario.linux Scenario.only_trace (Scenario.env (Some 0))
    (Many ([PBytes (B "AA")] ++ PStr [56448%N] :: [PBytes (B "BB")]))
    (Scenario.traced Scenario.linux Scenario.two_blocks)
  = (Raise UnicodeEncodeError,
     Scenario.traced Scenario.linux Scenario.two_blocks).
Proof.
  exact (proj2 (proj2 (fire_stops_at_a_bad_item Scenario.linux
                         Scenario.only_trace (Scenario.env (Some 0))
                         [PBytes (B "AA")] [PBytes (B "BB")] (PStr [56448%N])
                         [B "AA"] UnicodeEncodeError
                         (Scenario.traced Scenario.linux Scenario.two_blocks)
                         eq_refl eq_refl))).
Defined.

(** ** What a match tells about the text *)

Module MatchFacts.
Section Facts.

Context {C : Type}.
Variable ceq : C -> C -> bool.
Variable dot : C -> bool.
Hypothesis ceq_eq : forall a c, ceq a c = true <-> a = c.

Abbreviation rmatch := (Re.rmatch ceq dot).
Abbreviation dotstar := (Re.dotstar (C:=C) dot).

(** Where a star finds nothing, the continuation fails behind every run
    of characters the star could have taken. *)
Lemma dotstar_none k s :
  dotstar k s = None ->
  forall x y, s = x ++ y -> forallb dot x = true -> k y = None.
Proof.
  induction s as [|c s IH]; intros H x y E Hx; simpl in H.
  - destruct x; [|discriminate]. simpl in E. subst y.
    destruct (k []); [discriminate|reflexivity].
  - assert (Hk : k (c :: s) = None).
    { destruct (dot c); [destruct (dotstar k s) as [[? ?]|]; [discriminate|]|];
        destruct (k (c :: s)); (discriminate || reflexivity). }
    destruct x as [|a x]; simpl in E; [subst y; exact Hk|].
    injection E as <- E. simpl in Hx. apply andb_true_iff in Hx as [Ha Hx].
    rewrite Ha in H.
    destruct (dotstar k s) as [[? ?]|] eqn:Es; [discriminate|].
    eapply IH; eauto.
Qed.

(** A star matches wherever the continuation accepts some rest behind
    characters the star can take. *)
Lemma dotstar_some k u v :
  forallb dot u = true -> k v <> None -> dotstar k (u ++ v) <> None.
Proof.
  intros Hu Hk E. apply Hk. eapply dotstar_none; eauto.
Qed.

(** What a star took: characters it can take, as many as leave the
    continuation a match. *)
Lemma dotstar_longest k s cap gs :
  dotstar k s = Some (cap, gs) ->
  exists s',
    s = cap ++ s' /\ k s' = Some gs /\ forallb dot cap = true
    /\ (forall x y, s' = x ++ y -> x <> [] -> forallb dot x = true ->
          k y = None).
Proof.
  revert cap. induction s as [|c s IH]; intros cap H; simpl in H.
  - destruct (k []) eqn:E; simpl in H; [|discriminate].
    injection H as <- <-. exists []. repeat split; auto.
    intros x y Exy Hx. destruct x; [contradiction|discriminate].
  - assert (Hstop : (dot c = true -> dotstar k s = None) ->
                    option_map (pair []) (k (c :: s)) = Some (cap, gs) ->
                    exists s',
                      c :: s = cap ++ s' /\ k s' = Some gs
                      /\ forallb dot cap = true
                      /\ (forall x y, s' = x ++ y -> x <> [] ->
                            forallb dot x = true -> k y = None)).
    { intros Hn. destruct (k (c :: s)) eqn:E; simpl; [|discriminate].
      intros [= <- <-]. exists (c :: s). repeat split; auto.
      intros x y Exy Hne Hx. destruct x as [|a x]; [contradiction|].
      injection Exy as <- Exy. simpl in Hx.
      apply andb_true_iff in Hx as [Ha Hx].
      eapply dotstar_none; eauto. }
    destruct (dot c) eqn:Hc; [|apply Hstop; [discriminate|exact H]].
    destruct (dotstar k s) as [[cap' gs']|] eqn:E;
      [|apply Hstop; [reflexivity|exact H]].
    injection H as <- <-.
    destruct (IH _ eq_refl) as (s' & -> & Hk & Hd & Hmax).
    exists s'. simpl. rewrite Hc, Hd. auto.
Qed.

Lemma rmatch_lit_inv l p s gs :
  rmatch (Re.Lit l :: p) s = Some gs ->
  exists s', s = l ++ s' /\ rmatch p s' = Some gs.
Proof.
  simpl. destruct (Re.strip ceq l s) as [s'|] eqn:E; [|discriminate].
  intros H. exists s'. split; [|exact H].
  eapply ReFacts.strip_inv; eauto.
Qed.

Lemma rmatch_star_inv g p s gs :
  rmatch (Re.DotStar g :: p) s = Some gs ->
  exists cap s' gs',
    s = cap ++ s' /\ rmatch p s' = Some gs'
    /\ gs = match g with Some name => (name, cap) :: gs' | None => gs' end
    /\ forallb dot cap = true
    /\ (forall x y, s' = x ++ y -> x <> [] -> forallb dot x = true ->
          rmatch p y = None).
Proof.
  simpl. destruct (dotstar (rmatch p) s) as [[cap gs']|] eqn:E; [|discriminate].
  intros [= <-]. apply dotstar_longest in E as (s' & -> & Hk & Hd & Hmax).
  exists cap, s', gs'. auto.
Qed.

Lemma rmatch_star_some g p u v :
  forallb dot u = true -> rmatch p v <> None ->
  rmatch (Re.DotStar g :: p) (u ++ v) <> None.
Proof.
  intros Hu Hk. simpl.
  pose proof (dotstar_some (rmatch p) u v Hu Hk) as H.
  destruct (dotstar (rmatch p) (u ++ v)) as [[? ?]|]; [discriminate|contradiction].
Qed.

Lemma rmatch_lit_some l p s :
  rmatch p s <> None -> rmatch (Re.Lit l :: p) (l ++ s) <> None.
Proof. rewrite (ReFacts.rmatch_lit ceq dot ceq_eq). auto. Qed.

End Facts.

(** *** Where a text can be cut *)

(** A text is cut at the last occurrence of a character in one way
    only. *)
Lemma last_cut {A : Type} (c : A) u : forall v u' v',
  u ++ c :: v = u' ++ c :: v' -> ~ In c v -> ~ In c v' ->
  u = u' /\ v = v'.
Proof.
  induction u as [|a u IH]; intros v u' v' E Hv Hv'.
  - destruct u' as [|a' u']; simpl in E.
    + injection E as <-. auto.
    + injection E as <- ->. exfalso. apply Hv, in_or_app. right. left.
      reflexivity.
  - destruct u' as [|a' u']; simpl in E.
    + injection E as <- <-. exfalso. apply Hv', in_or_app. right. left.
      reflexivity.
    + injection E as <- E. destruct (IH _ _ _ E Hv Hv') as [-> ->]. auto.
Qed.

(** The same for the last occurrence of two characters in a row. *)
Lemma last_cut2 {A : Type} (c d : A) g : forall a g' a',
  c <> d ->
  g ++ c :: d :: a = g' ++ c :: d :: a' ->
  (forall x y, a <> x ++ c :: d :: y) ->
  (forall x y, a' <> x ++ c :: d :: y) ->
  g = g' /\ a = a'.
Proof.
  induction g as [|h g IH]; intros a g' a' Hcd E Ha Ha'.
  - destruct g' as [|h' g']; simpl in E.
    + injection E as <-. auto.
    + injection E as <- E. exfalso.
      destruct g' as [|h2 g']; simpl in E.
      * injection E as E _. apply Hcd. congruence.
      * injection E as <- E. exact (Ha _ _ E).
  - destruct g' as [|h' g']; simpl in E.
    + injection E as <- E. exfalso.
      destruct g as [|h2 g]; simpl in E.
      * injection E as E _. apply Hcd. congruence.
      * injection E as <- E. exact (Ha' _ _ (eq_sym E)).
    + injection E as <- E.
      destruct (IH _ _ _ Hcd E Ha Ha') as [-> ->]. auto.
Qed.

(** *** On bytes *)

Import BytesFacts.

Abbreviation brmatch := (Re.rmatch Byte.eqb bytes_dot).

Lemma line_dot t : ~ In Py.NL t -> forallb bytes_dot t = true.
Proof.
  intros H. apply forallb_forall. intros c Hc. unfold bytes_dot.
  destruct (Byte.eqb c Py.NL) eqn:E; [|reflexivity].
  apply byte_eqb_eq in E. subst c. contradiction.
Qed.

Lemma not_In_app {A : Type} (c : A) u v : ~ In c (u ++ v) -> ~ In c u /\ ~ In c v.
Proof. intros H. split; intros Hin; apply H, in_or_app; auto. Qed.

(** The tail of both patterns accepts exactly what starts with the closing
    bracket. *)
Lemma tail_some rest : brmatch tail_re (B "]" ++ rest) <> None.
Proof.
  unfold tail_re. apply rmatch_lit_some; [apply byte_eqb_eq|].
  apply (rmatch_star_some Byte.eqb bytes_dot None [] [] rest); [reflexivity|].
  discriminate.
Qed.

Lemma tail_inv s gs :
  brmatch tail_re s = Some gs -> gs = [] /\ exists rest, s = B "]" ++ rest.
Proof.
  unfold tail_re. intros H.
  apply (rmatch_lit_inv Byte.eqb bytes_dot byte_eqb_eq) in H as (s' & -> & H).
  apply rmatch_star_inv in H as (cap & s2 & gs' & _ & H & -> & _).
  injection H as <-. split; [reflexivity|]. eauto.
Qed.

(** Behind the bracket the longest match closes on, no other one follows
    on the line. *)
Lemma last_bracket s4 :
  ~ In Py.NL s4 ->
  (forall x y, s4 = x ++ y -> x <> [] -> forallb bytes_dot x = true ->
     brmatch tail_re y = None) ->
  forall rest, s4 = B "]" ++ rest -> ~ In "]"%byte rest.
Proof.
  intros Hnl Hmax rest -> Hin.
  apply in_split in Hin as (r1 & r2 & ->).
  apply (tail_some r2).
  apply (Hmax (B "]" ++ r1) (B "]" ++ r2)).
  - change (B "]") with ["]"%byte]. simpl. reflexivity.
  - discriminate.
  - apply line_dot. intros Hi. apply Hnl.
    change (B "]") with ["]"%byte] in *. simpl in *.
    destruct Hi as [Hi|Hi]; [discriminate|].
    right. apply in_or_app. left. exact Hi.
Qed.

End MatchFacts.

(** ** The two patterns on any line *)

(** X7. The pattern for CGC traces on a line (a text without a newline, as
    [splitlines] yields them): it matches exactly the lines of the shape
    [Trace g [a]rest] with a blank before the opening bracket; and where
    it matches, the group [addr] is the [a] of the one such reading of the
    line in which no closing bracket follows the one after [a] and [a]
    holds no blank followed by an opening bracket: greedy matching closes
    on the last bracket of the line and opens on the last that can precede
    it. *)
Theorem old_pattern_on_a_line (t : bytes) :
  ~ In Py.NL t ->
  (re_match _trace_old_re t <> None
   <-> exists g a rest, t = B "Trace " ++ g ++ B " [" ++ a ++ B "]" ++ rest)
  /\ (forall m,
        re_match _trace_old_re t = Some m ->
        exists g a rest,
          t = B "Trace " ++ g ++ B " [" ++ a ++ B "]" ++ rest
          /\ Re.group "1" m = Some g
          /\ Re.group "addr" m = Some a
          /\ ~ In "]"%byte rest
          /\ (forall x y, a <> x ++ B " [" ++ y))
  /\ (forall g a rest,
        t = B "Trace " ++ g ++ B " [" ++ a ++ B "]" ++ rest ->
        ~ In "]"%byte rest ->
        (forall x y, a <> x ++ B " [" ++ y) ->
        exists m,
          re_match _trace_old_re t = Some m
          /\ Re.group "1" m = Some g /\ Re.group "addr" m = Some a).
Proof.
  intros Hnl.
  assert (Hinv : forall m,
            re_match _trace_old_re t = Some m ->
            exists g a rest,
              t = B "Trace " ++ g ++ B " [" ++ a ++ B "]" ++ rest
              /\ Re.group "1" m = Some g
              /\ Re.group "addr" m = Some a
              /\ ~ In "]"%byte rest
              /\ (forall x y, a <> x ++ B " [" ++ y)).
  { intros m H. unfold re_match, _trace_old_re in H.
    apply (MatchFacts.rmatch_lit_inv _ _ BytesFacts.byte_eqb_eq) in H
      as (s1 & -> & H).
    apply MatchFacts.rmatch_star_inv in H
      as (g & s2 & gs1 & -> & H & -> & Hg & Hmax1).
    apply (MatchFacts.rmatch_lit_inv _ _ BytesFacts.byte_eqb_eq) in H
      as (s3 & -> & H).
    apply MatchFacts.rmatch_star_inv in H
      as (a & s4 & gs2 & -> & H & -> & Ha & Hmax2).
    fold tail_re in H, Hmax2.
    apply MatchFacts.tail_inv in H as (-> & rest & ->).
    exists g, a, rest.
    split; [reflexivity|]. split; [reflexivity|]. split; [reflexivity|].
    apply MatchFacts.not_In_app in Hnl as [_ Hnl].
    apply MatchFacts.not_In_app in Hnl as [_ Hnl].
    apply MatchFacts.not_In_app in Hnl as [_ Hnl].
    split.
    - apply MatchFacts.not_In_app in Hnl as [_ Hnl].
      eapply MatchFacts.last_bracket; eauto.
    - intros x y ->.
      rewrite !forallb_app in Ha.
      apply andb_true_iff in Ha as [Hx Ha].
      apply andb_true_iff in Ha as [_ Ha].
      assert (Hx' : forallb bytes_dot (B " [" ++ x) = true).
      { rewrite forallb_app, Hx. reflexivity. }
      specialize (Hmax1 (B " [" ++ x) (B " [" ++ y ++ B "]" ++ rest)).
      apply (MatchFacts.rmatch_lit_some _ bytes_dot BytesFacts.byte_eqb_eq
               (B " [")
               [Re.DotStar (Some "addr"%string); Re.Lit (B "]"); Re.DotStar None]
               (y ++ B "]" ++ rest)).
      + apply MatchFacts.rmatch_star_some; [exact Ha|].
        apply MatchFacts.tail_some.
      + apply Hmax1; [|discriminate|exact Hx'].
        rewrite <- !app_assoc. reflexivity. }
  assert (Hsome : forall g a rest,
            t = B "Trace " ++ g ++ B " [" ++ a ++ B "]" ++ rest ->
            re_match _trace_old_re t <> None).
  { intros g a rest ->.
    apply MatchFacts.not_In_app in Hnl as [_ Hnl].
    apply MatchFacts.not_In_app in Hnl as [Hg Hnl].
    apply MatchFacts.not_In_app in Hnl as [_ Hnl].
    apply MatchFacts.not_In_app in Hnl as [Ha _].
    unfold re_match, _trace_old_re.
    apply MatchFacts.rmatch_lit_some; [apply BytesFacts.byte_eqb_eq|].
    apply MatchFacts.rmatch_star_some; [apply MatchFacts.line_dot, Hg|].
    apply MatchFacts.rmatch_lit_some; [apply BytesFacts.byte_eqb_eq|].
    apply MatchFacts.rmatch_star_some; [apply MatchFacts.line_dot, Ha|].
    apply MatchFacts.tail_some. }
  split; [|split; [exact Hinv|]].
  - split.
    + intros H. destruct (re_match _trace_old_re t) as [m|] eqn:E;
        [|contradiction].
      destruct (Hinv m eq_refl) as (g & a & rest & Ht & _). eauto.
    + intros (g & a & rest & Ht). eapply Hsome, Ht.
  - intros g a rest Ht Hrest Ha.
    destruct (re_match _trace_old_re t) as [m|] eqn:E;
      [|exfalso; exact (Hsome g a rest Ht eq_refl)].
    exists m. split; [reflexivity|].
    destruct (Hinv m eq_refl) as (g' & a' & rest' & Ht' & Hg' & Hm & Hrest' & Ha').
    rewrite Ht in Ht'. apply app_inv_head in Ht'.
    change (g ++ B " [" ++ a ++ B "]" ++ rest)
      with (g ++ B " [" ++ a ++ "]"%byte :: rest) in Ht'.
    change (g' ++ B " [" ++ a' ++ B "]" ++ rest')
      with (g' ++ B " [" ++ a' ++ "]"%byte :: rest') in Ht'.
    rewrite !(app_assoc _ _ (_ :: _)) in Ht'.
    apply MatchFacts.last_cut in Ht' as [Ht' _]; [|assumption..].
    apply (MatchFacts.last_cut2 " "%byte "["%byte) in Ht' as [<- <-];
      [auto|discriminate|exact Ha|exact Ha'].
Qed.

Lemma old_pattern_on_a_line_witness :
  exists g rest,
    B "Trace 0: [0804aabc] [x]y"
    = B "Trace " ++ g ++ B " [" ++ B "x" ++ B "]" ++ rest
    /\ option_map (Re.group "addr")
         (re_match _trace_old_re (B "Trace 0: [0804aabc] [x]y"))
       = Some (Some (B "x")).
Proof.
  destruct (re_match _trace_old_re (B "Trace 0: [0804aabc] [x]y"))
    as [m|] eqn:E; [|vm_compute in E; discriminate].
  destruct (proj1 (proj2 (old_pattern_on_a_line (B "Trace 0: [0804aabc] [x]y")
                     (BytesFacts.absent_not_In Py.NL
                        (B "Trace 0: [0804aabc] [x]y") eq_refl))) m E)
    as (g & a & rest & Ht & _ & Ha & _).
  assert (Ea : a = B "x").
  { vm_compute in E. injection E as <-. vm_compute in Ha.
    injection Ha as <-. reflexivity. }
  subst a. exists g, rest. split; [exact Ht|].
  simpl. rewrite Ha. reflexivity.
Defined.

(** X8. The pattern for the traces of the other targets on a line: it
    matches exactly the lines of the shape [Trace g [s/a/f]rest]; and where
    it matches, the group [addr] is the [a] of the one such reading in
    which no closing bracket follows the one after [f] and neither [a] nor
    [f] holds a slash: the address is what stands between the last two
    slashes in front of the last closing bracket of the line. *)
Theorem new_pattern_on_a_line (t : bytes) :
  ~ In Py.NL t ->
  (re_match _trace_new_re t <> None
   <-> exists g s a f rest,
         t = B "Trace " ++ g ++ B " [" ++ s ++ B "/" ++ a ++ B "/" ++ f
               ++ B "]" ++ rest)
  /\ (forall m,
        re_match _trace_new_re t = Some m ->
        exists g s a f rest,
          t = B "Trace " ++ g ++ B " [" ++ s ++ B "/" ++ a ++ B "/" ++ f
                ++ B "]" ++ rest
          /\ Re.group "something1" m = Some s
          /\ Re.group "addr" m = Some a
          /\ Re.group "flags" m = Some f
          /\ ~ In "]"%byte rest
          /\ ~ In "/"%byte a /\ ~ In "/"%byte f)
  /\ (forall g s a f rest,
        t = B "Trace " ++ g ++ B " [" ++ s ++ B "/" ++ a ++ B "/" ++ f
              ++ B "]" ++ rest ->
        ~ In "]"%byte rest -> ~ In "/"%byte a -> ~ In "/"%byte f ->
        exists m,
          re_match _trace_new_re t = Some m
          /\ Re.group "addr" m = Some a /\ Re.group "flags" m = Some f).
Proof.
  intros Hnl.
  assert (Hinv : forall m,
            re_match _trace_new_re t = Some m ->
            exists g s a f rest,
              t = B "Trace " ++ g ++ B " [" ++ s ++ B "/" ++ a ++ B "/" ++ f
                    ++ B "]" ++ rest
              /\ Re.group "something1" m = Some s
              /\ Re.group "addr" m = Some a
              /\ Re.group "flags" m = Some f
              /\ ~ In "]"%byte rest
              /\ ~ In "/"%byte a /\ ~ In "/"%byte f).
  { intros m H. unfold re_match, _trace_new_re in H.
    apply (MatchFacts.rmatch_lit_inv _ _ BytesFacts.byte_eqb_eq) in H
      as (s1 & -> & H).
    apply MatchFacts.rmatch_star_inv in H
      as (g & s2 & gs1 & -> & H & -> & Hg & _).
    apply (MatchFacts.rmatch_lit_inv _ _ BytesFacts.byte_eqb_eq) in H
      as (s3 & -> & H).
    apply MatchFacts.rmatch_star_inv in H
      as (s & s4 & gs2 & -> & H & -> & Hs & Hmax_s).
    apply (MatchFacts.rmatch_lit_inv _ _ BytesFacts.byte_eqb_eq) in H
      as (s5 & -> & H).
    apply MatchFacts.rmatch_star_inv in H
      as (a & s6 & gs3 & -> & H & -> & Ha & Hmax_a).
    apply (MatchFacts.rmatch_lit_inv _ _ BytesFacts.byte_eqb_eq) in H
      as (s7 & -> & H).
    apply MatchFacts.rmatch_star_inv in H
      as (f & s8 & gs4 & -> & H & -> & Hf & Hmax_f).
    fold tail_re in H, Hmax_f.
    apply MatchFacts.tail_inv in H as (-> & rest & ->).
    exists g, s, a, f, rest.
    do 4 (split; [reflexivity|]).
    split; [|split].
    - do 8 (apply MatchFacts.not_In_app in Hnl as [_ Hnl]).
      eapply MatchFacts.last_bracket; eauto.
    - intros Hin. apply in_split in Hin as (a1 & a2 & ->).
      rewrite forallb_app in Ha. apply andb_true_iff in Ha as [Ha1 Ha2].
      simpl in Ha2.
      apply (MatchFacts.rmatch_lit_some _ bytes_dot BytesFacts.byte_eqb_eq
               (B "/")
               [Re.DotStar (Some "addr"%string); Re.Lit (B "/");
                Re.DotStar (Some "flags"%string); Re.Lit (B "]");
                Re.DotStar None]
               (a2 ++ B "/" ++ f ++ B "]" ++ rest)).
      + apply MatchFacts.rmatch_star_some; [exact Ha2|].
        apply MatchFacts.rmatch_lit_some; [apply BytesFacts.byte_eqb_eq|].
        apply MatchFacts.rmatch_star_some; [exact Hf|].
        apply MatchFacts.tail_some.
      + apply (Hmax_s (B "/" ++ a1)); [|discriminate|].
        * rewrite <- !app_assoc. reflexivity.
        * rewrite forallb_app, Ha1. reflexivity.
    - intros Hin. apply in_split in Hin as (f1 & f2 & ->).
      rewrite forallb_app in Hf. apply andb_true_iff in Hf as [Hf1 Hf2].
      simpl in Hf2.
      apply (MatchFacts.rmatch_lit_some _ bytes_dot BytesFacts.byte_eqb_eq
               (B "/")
               [Re.DotStar (Some "flags"%string); Re.Lit (B "]");
                Re.DotStar None]
               (f2 ++ B "]" ++ rest)).
      + apply MatchFacts.rmatch_star_some; [exact Hf2|].
        apply MatchFacts.tail_some.
      + apply (Hmax_a (B "/" ++ f1)); [|discriminate|].
        * rewrite <- !app_assoc. reflexivity.
        * rewrite forallb_app, Hf1. reflexivity. }
  assert (Hsome : forall g s a f rest,
            t = B "Trace " ++ g ++ B " [" ++ s ++ B "/" ++ a ++ B "/" ++ f
                  ++ B "]" ++ rest ->
            re_match _trace_new_re t <> None).
  { intros g s a f rest ->.
    apply MatchFacts.not_In_app in Hnl as [_ Hnl].
    apply MatchFacts.not_In_app in Hnl as [Hg Hnl].
    apply MatchFacts.not_In_app in Hnl as [_ Hnl].
    apply MatchFacts.not_In_app in Hnl as [Hs Hnl].
    apply MatchFacts.not_In_app in Hnl as [_ Hnl].
    apply MatchFacts.not_In_app in Hnl as [Ha Hnl].
    apply MatchFacts.not_In_app in Hnl as [_ Hnl].
    apply MatchFacts.not_In_app in Hnl as [Hf _].
    unfold re_match, _trace_new_re.
    apply MatchFacts.rmatch_lit_some; [apply BytesFacts.byte_eqb_eq|].
    apply MatchFacts.rmatch_star_some; [apply MatchFacts.line_dot, Hg|].
    apply MatchFacts.rmatch_lit_some; [apply BytesFacts.byte_eqb_eq|].
    apply MatchFacts.rmatch_star_some; [apply MatchFacts.line_dot, Hs|].
    apply MatchFacts.rmatch_lit_some; [apply BytesFacts.byte_eqb_eq|].
    apply MatchFacts.rmatch_star_some; [apply MatchFacts.line_dot, Ha|].
    apply MatchFacts.rmatch_lit_some; [apply BytesFacts.byte_eqb_eq|].
    apply MatchFacts.rmatch_star_some; [apply MatchFacts.line_dot, Hf|].
    apply MatchFacts.tail_some. }
  split; [|split; [exact Hinv|]].
  - split.
    + intros H. destruct (re_match _trace_new_re t) as [m|] eqn:E;
        [|contradiction].
      destruct (Hinv m eq_refl) as (g & s & a & f & rest & Ht & _).
      exists g, s, a, f, rest. exact Ht.
    + intros (g & s & a & f & rest & Ht). eapply Hsome, Ht.
  - intros g s a f rest Ht Hrest Ha Hf.
    destruct (re_match _trace_new_re t) as [m|] eqn:E;
      [|exfalso; exact (Hsome g s a f rest Ht eq_refl)].
    exists m. split; [reflexivity|].
    destruct (Hinv m eq_refl)
      as (g' & s' & a' & f' & rest' & Ht' & _ & Hma & Hmf & Hrest' & Ha' & Hf').
    rewrite Ht in Ht'. apply app_inv_head in Ht'.
    change (g ++ B " [" ++ s ++ B "/" ++ a ++ B "/" ++ f ++ B "]" ++ rest)
      with (g ++ B " [" ++ s ++ "/"%byte :: a ++ "/"%byte :: f
              ++ "]"%byte :: rest) in Ht'.
    change (g' ++ B " [" ++ s' ++ B "/" ++ a' ++ B "/" ++ f' ++ B "]" ++ rest')
      with (g' ++ B " [" ++ s' ++ "/"%byte :: a' ++ "/"%byte :: f'
              ++ "]"%byte :: rest') in Ht'.
    assert (R : forall (g s a f rest : bytes),
              g ++ B " [" ++ s ++ "/"%byte :: a ++ "/"%byte :: f
                ++ "]"%byte :: rest
              = (((g ++ B " [" ++ s) ++ "/"%byte :: a) ++ "/"%byte :: f)
                  ++ "]"%byte :: rest).
    { intros. rewrite <- !app_assoc. reflexivity. }
    rewrite !R in Ht'.
    apply MatchFacts.last_cut in Ht' as [Ht' _]; [|assumption..].
    apply MatchFacts.last_cut in Ht' as [Ht' <-]; [|assumption..].
    apply MatchFacts.last_cut in Ht' as [_ <-]; [|assumption..].
    auto.
Qed.

Lemma new_pattern_on_a_line_witness :
  re_match _trace_new_re
    (B "Trace 0: 0x7f00 [0000/000000000040b0/0x40b0] main") <> None.
Proof.
  apply (proj1 (new_pattern_on_a_line
                  (B "Trace 0: 0x7f00 [0000/000000000040b0/0x40b0] main")
                  (BytesFacts.absent_not_In Py.NL
                     (B "Trace 0: 0x7f00 [0000/000000000040b0/0x40b0] main")
                     eq_refl))).
  exists (B "0: 0x7f00"), (B "0000"), (B "000000000040b0"), (B "0x40b0"),
    (B " main").
  reflexivity.
Defined.

(** ** The parser on any text *)

Module ReadFacts.
Import QEMUTracerBow.

(** The lines the two comprehensions select. *)
Abbreviation is_start_code := (Py.startswith (B "start_code")).
Abbreviation is_trace := (Py.startswith (B "Trace ")).

Lemma next_start_code_skip pre l :
  Forall (fun t => is_start_code t = false) pre ->
  next_start_code (pre ++ l) = next_start_code l.
Proof.
  induction 1 as [|t pre Ht _ IH]; [reflexivity|].
  cbn [app next_start_code]. rewrite Ht. exact IH.
Qed.

Lemma next_start_code_inv l field rest :
  next_start_code l = Ok (field, rest) ->
  exists pre t,
    l = pre ++ t :: rest
    /\ Forall (fun t => is_start_code t = false) pre
    /\ is_start_code t = true
    /\ Py.index (Py.split t) 1 = Ok field.
Proof.
  induction l as [|t l IH]; [discriminate|].
  cbn [next_start_code]. destruct (is_start_code t) eqn:Ht.
  - destruct (Py.index (Py.split t) 1) as [fld|] eqn:Ei; [|discriminate].
    intros [= <- <-]. exists [], t. auto.
  - intros H. destruct (IH H) as (pre & t' & -> & Hpre & Ht' & Hi).
    exists (t :: pre), t'. auto.
Qed.

Lemma next_start_code_raises l e :
  next_start_code l = Raise e ->
  (e = StopIteration /\ Forall (fun t => is_start_code t = false) l)
  \/ (e = IndexError
      /\ exists pre t rest,
           l = pre ++ t :: rest
           /\ Forall (fun t => is_start_code t = false) pre
           /\ is_start_code t = true
           /\ Py.index (Py.split t) 1 = Raise IndexError).
Proof.
  induction l as [|t l IH].
  - intros [= <-]. left. auto.
  - cbn [next_start_code]. destruct (is_start_code t) eqn:Ht.
    + unfold Py.index. destruct (nth_error (Py.split t) 1) eqn:Ei;
        [discriminate|].
      intros [= <-]. right. split; [reflexivity|].
      exists [], t, l. unfold Py.index. rewrite Ei. auto.
    + intros H. destruct (IH H) as [[-> Hl]|(-> & pre & t' & rest & -> & Hp & Ht' & Hi)].
      * left. auto.
      * right. split; [reflexivity|]. exists (t :: pre), t', rest. auto.
Qed.

(** Only the lines that start with the marker count. *)
Lemma trace_entries_filter re l :
  trace_entries re l = trace_entries re (List.filter is_trace l).
Proof.
  induction l as [|t l IH]; [reflexivity|].
  cbn [trace_entries List.filter].
  destruct (is_trace t) eqn:Ht; [|exact IH].
  cbn [trace_entries]. rewrite Ht, IH. reflexivity.
Qed.

Lemma filter_idem {A : Type} (f : A -> bool) l :
  List.filter f (List.filter f l) = List.filter f l.
Proof.
  induction l as [|a l IH]; [reflexivity|].
  simpl. destruct (f a) eqn:E; [|exact IH].
  simpl. rewrite E, IH. reflexivity.
Qed.

(** Every address of the trace is read from a line of its own. *)
Lemma trace_entries_inv re l : forall es,
  trace_entries re l = Ok es ->
  Forall2 (fun t a =>
             exists m g,
               re_match re t = Some m /\ Re.group "addr" m = Some g
               /\ Py.int16 g = Ok a)
    (List.filter is_trace l) es.
Proof.
  induction l as [|t l IH]; intros es H.
  - injection H as <-. constructor.
  - cbn [trace_entries] in H. cbn [List.filter].
    destruct (is_trace t) eqn:Ht; [|apply IH, H].
    + destruct (re_match re t) as [m|] eqn:Em; [|discriminate].
      destruct (Re.group "addr" m) as [g|] eqn:Eg; [|discriminate].
      destruct (Py.int16 g) as [v|] eqn:Ev; [|discriminate].
      destruct (trace_entries re l) as [vs|]; [|discriminate].
      injection H as <-. constructor; [|apply IH; reflexivity].
      exists m, g. auto.
Qed.

Lemma int16_raises s e : Py.int16 s = Raise e -> e = ValueError.
Proof.
  unfold Py.int16. destruct (Py.take_sign _) as [neg s1].
  destruct (Py.int16_magnitude s1); [discriminate|congruence].
Qed.

(** Both patterns have the group the parser asks for. *)
Lemma addr_group self t m :
  re_match (select_trace_re self) t = Some m -> Re.group "addr" m <> None.
Proof.
  unfold select_trace_re, re_match.
  destruct (String.eqb _ _); unfold _trace_old_re, _trace_new_re; intros H.
  - apply (MatchFacts.rmatch_lit_inv _ _ BytesFacts.byte_eqb_eq) in H
      as (s1 & -> & H).
    apply MatchFacts.rmatch_star_inv in H as (g & s2 & gs1 & -> & H & -> & _).
    apply (MatchFacts.rmatch_lit_inv _ _ BytesFacts.byte_eqb_eq) in H
      as (s3 & -> & H).
    apply MatchFacts.rmatch_star_inv in H as (a & s4 & gs2 & -> & H & -> & _).
    discriminate.
  - apply (MatchFacts.rmatch_lit_inv _ _ BytesFacts.byte_eqb_eq) in H
      as (s1 & -> & H).
    apply MatchFacts.rmatch_star_inv in H as (g & s2 & gs1 & -> & H & -> & _).
    apply (MatchFacts.rmatch_lit_inv _ _ BytesFacts.byte_eqb_eq) in H
      as (s3 & -> & H).
    apply MatchFacts.rmatch_star_inv in H as (s & s4 & gs2 & -> & H & -> & _).
    apply (MatchFacts.rmatch_lit_inv _ _ BytesFacts.byte_eqb_eq) in H
      as (s5 & -> & H).
    apply MatchFacts.rmatch_star_inv in H as (a & s6 & gs3 & -> & H & -> & _).
    discriminate.
Qed.

(** The parser, by its steps. *)
Lemma read_trace_eq self c :
  read_trace self c
  = match next_start_code (Py.splitlines c) with
    | Ok (field, rest) =>
        match Py.int16 field with
        | Ok base =>
            match trace_entries (select_trace_re self) rest with
            | Ok es => Ok (base, es)
            | Raise e => Raise e
            end
        | Raise e => Raise e
        end
    | Raise e => Raise e
    end.
Proof.
  unfold read_trace, mbind, result_bind, rbind, mret, result_ret.
  destruct (next_start_code _) as [[field rest]|]; [|reflexivity].
  destruct (Py.int16 field); [|reflexivity].
  destruct (trace_entries _ rest); reflexivity.
Qed.

(** What was kept by a filter passes the test. *)
Lemma filter_parts {A : Type} (f : A -> bool) l good bad rest :
  List.filter f l = good ++ bad :: rest ->
  Forall (fun x => f x = true) good /\ f bad = true.
Proof.
  intros E.
  assert (H : forall x, In x (good ++ bad :: rest) -> f x = true).
  { intros x Hx. rewrite <- E in Hx. apply List.filter_In in Hx. tauto. }
  split.
  - apply List.Forall_forall. intros x Hx. apply H, in_or_app. auto.
  - apply H, in_or_app. right. left. reflexivity.
Qed.

(** The first line that fails decides. *)
Lemma trace_entries_behind re good l e :
  Forall (fun t => is_trace t = true) good ->
  Forall (fun t =>
            exists m g a,
              re_match re t = Some m /\ Re.group "addr" m = Some g
              /\ Py.int16 g = Ok a) good ->
  trace_entries re l = Raise e ->
  trace_entries re (good ++ l) = Raise e.
Proof.
  intros Ht Hg Hl. induction Ht as [|t good Htt _ IH]; [exact Hl|].
  apply Forall_cons in Hg as [(m & g & a & Hm & Hgr & Ha) Hg].
  cbn [app trace_entries]. rewrite Htt, Hm, Hgr, Ha, (IH Hg). reflexivity.
Qed.

Lemma trace_entries_first_bad re l e :
  trace_entries re l = Raise e ->
  exists good bad rest,
    List.filter is_trace l = good ++ bad :: rest
    /\ Forall (fun t =>
                 exists m g a,
                   re_match re t = Some m /\ Re.group "addr" m = Some g
                   /\ Py.int16 g = Ok a) good
    /\ ((e = AttributeError /\ re_match re bad = None)
        \/ (e = IndexError
            /\ exists m, re_match re bad = Some m /\ Re.group "addr" m = None)
        \/ (e = ValueError
            /\ exists m g, re_match re bad = Some m
                           /\ Re.group "addr" m = Some g
                           /\ Py.int16 g = Raise ValueError)).
Proof.
  induction l as [|t l IH]; [discriminate|].
  cbn [trace_entries List.filter].
  destruct (is_trace t) eqn:Ht; [|exact IH].
  destruct (re_match re t) as [m|] eqn:Em.
  - destruct (Re.group "addr" m) as [g|] eqn:Eg.
    + destruct (Py.int16 g) as [v|] eqn:Ev.
      * destruct (trace_entries re l) as [vs|] eqn:El; [discriminate|].
        intros [= <-].
        destruct (IH eq_refl) as (good & bad & rest & -> & Hgood & Hbad).
        exists (t :: good), bad, rest. split; [reflexivity|].
        split; [|exact Hbad]. constructor; [|exact Hgood].
        exists m, g, v. auto.
      * intros [= <-]. exists [], t, (List.filter is_trace l).
        split; [reflexivity|]. split; [constructor|]. right. right.
        pose proof (int16_raises _ _ Ev) as ->.
        split; [reflexivity|]. exists m, g. auto.
    + intros [= <-]. exists [], t, (List.filter is_trace l).
      split; [reflexivity|]. split; [constructor|]. right. left.
      split; [reflexivity|]. eauto.
  - intros [= <-]. exists [], t, (List.filter is_trace l).
    split; [reflexivity|]. split; [constructor|]. left. auto.
Qed.

(** The load-base line, found. *)
Lemma next_start_code_found pre t post :
  Forall (fun l => is_start_code l = false) pre ->
  is_start_code t = true ->
  next_start_code (pre ++ t :: post)
  = match Py.index (Py.split t) 1 with
    | Ok field => Ok (field, post)
    | Raise e => Raise e
    end.
Proof.
  intros Hpre Ht. rewrite (next_start_code_skip pre _ Hpre).
  cbn [next_start_code]. rewrite Ht. reflexivity.
Qed.

Lemma next_start_code_none l :
  Forall (fun t => is_start_code t = false) l ->
  next_start_code l = Raise StopIteration.
Proof.
  induction 1 as [|t l Ht _ IH]; [reflexivity|].
  cbn [next_start_code]. rewrite Ht. exact IH.
Qed.

(** A parse that fails fails the session that asked for it: with what the
    parser raised, or, where that is the [StopIteration] of [next], with
    the [RuntimeError] that the generator makes of it. *)
Lemma session_parse_fails self o env body w c e :
  read_trace self c = Raise e ->
  record_trace o = true -> save_core o = false ->
  body_outcome self o env body = None
  \/ body_outcome self o env body = Some TimeoutExpired ->
  target_files w !! (tmp_prefix env +:+ ".trace")%string = Some c ->
  fire_context self o env body w
  = (Raise (match e with StopIteration => RuntimeError | _ => e end), w).
Proof.
  intros Hr Ht Hc Hb Hf.
  assert (Hcon : forall p r0,
            conclude self o env (target_tmpdir env) p r0 w = (Raise e, w)).
  { intros p r0. rewrite SessionFacts.conclude_eq.
    unfold local_core_filename. rewrite Hc, SessionFacts.core_stage_off.
    destruct (SessionFacts.trace_filename_truthy o env Ht) as [-> Hty].
    rewrite SessionFacts.trace_stage_on by exact Hty. rewrite Hf.
    unfold parse_trace, mbind, result_bind, rbind. rewrite Hr. reflexivity. }
  rewrite SessionFacts.fire_context_eq. cbv zeta.
  destruct Hb as [-> | ->]; apply SessionFacts.pep479_raise, Hcon.
Qed.

End ReadFacts.

(** ** The parser on any trace file *)

(** X9. What the parser reads of a trace file: the lines in front of the
    first line that starts with [start_code] are passed over, also those
    that start with [Trace ], and of the lines behind it only those that
    start with [Trace ] count. The file parses as the file of just that
    load-base line and the trace lines behind it, to the same result or
    the same exception. *)
Theorem parser_reads_behind_the_load_base
    (self : QEMUTracerBow.t) (pre post : list bytes) (t : bytes) :
  Forall (fun l => TraceLog.one_line l = true) (pre ++ t :: post) ->
  Forall (fun l => Py.startswith (B "start_code") l = false) pre ->
  Py.startswith (B "start_code") t = true ->
  QEMUTracerBow.read_trace self (TraceLog.unlines (pre ++ t :: post))
  = QEMUTracerBow.read_trace self
      (TraceLog.unlines (t :: List.filter (Py.startswith (B "Trace ")) post)).
Proof.
  intros Hl Hpre Ht.
  assert (Hl' : Forall (fun l => TraceLog.one_line l = true)
                  (t :: List.filter (Py.startswith (B "Trace ")) post)).
  { apply Forall_app in Hl as [_ Hl]. apply Forall_cons in Hl as [H1 H2].
    constructor; [exact H1|].
    apply List.Forall_forall. intros l Hin. apply List.filter_In in Hin as [Hin _].
    rewrite List.Forall_forall in H2. apply H2, Hin. }
  rewrite !ReadFacts.read_trace_eq.
  rewrite (LineFacts.splitlines_unlines _ Hl), (LineFacts.splitlines_unlines _ Hl').
  rewrite (ReadFacts.next_start_code_skip pre _ Hpre).
  cbn [QEMUTracerBow.next_start_code]. rewrite Ht.
  destruct (Py.index (Py.split t) 1) as [field|]; [|reflexivity].
  destruct (Py.int16 field) as [base|]; [|reflexivity].
  rewrite (ReadFacts.trace_entries_filter _ post).
  rewrite (ReadFacts.trace_entries_filter _ (List.filter _ post)).
  rewrite ReadFacts.filter_idem. reflexivity.
Qed.

Lemma parser_reads_behind_the_load_base_witness :
  QEMUTracerBow.read_trace Scenario.linux
    (TraceLog.unlines
       ([B "Trace 0: 0x7f00 [0000/000000000040a0/0x40b0] early";
         B "host mmu: ok"]
        ++ B "start_code  0x400000"
        :: [B "end_code 0x401000";
            B "Trace 0: 0x7f00 [0000/000000000040b0/0x40b0] main"]))
  = Ok (4194304, [16560]).
Proof.
  rewrite (parser_reads_behind_the_load_base Scenario.linux
             [B "Trace 0: 0x7f00 [0000/000000000040a0/0x40b0] early";
              B "host mmu: ok"]
             [B "end_code 0x401000";
              B "Trace 0: 0x7f00 [0000/000000000040b0/0x40b0] main"]
             (B "start_code  0x400000")).
  - vm_compute. reflexivity.
  - repeat constructor.
  - repeat constructor.
  - reflexivity.
Defined.

(** X10. Every parse that succeeds went this way: the lines of the file
    are some lines that do not start with [start_code], then one that
    does, whose second field read in base 16 is the base address, then
    the rest; and the trace is, in order, one address for each line of
    that rest that starts with [Trace ], read in base 16 from the group
    [addr] of the match of the target's pattern on that line. So the
    trace is as long as the number of such lines. *)
Theorem every_address_has_its_line
    (self : QEMUTracerBow.t) (c : bytes) (base : Z) (es : list Z) :
  QEMUTracerBow.read_trace self c = Ok (base, es) ->
  exists pre t post field,
    Py.splitlines c = pre ++ t :: post
    /\ Forall (fun l => Py.startswith (B "start_code") l = false) pre
    /\ Py.startswith (B "start_code") t = true
    /\ Py.index (Py.split t) 1 = Ok field
    /\ Py.int16 field = Ok base
    /\ Forall2 (fun l a =>
                  exists m g,
                    re_match (QEMUTracerBow.select_trace_re self) l = Some m
                    /\ Re.group "addr" m = Some g /\ Py.int16 g = Ok a)
         (List.filter (Py.startswith (B "Trace ")) post) es
    /\ length es = length (List.filter (Py.startswith (B "Trace ")) post).
Proof.
  rewrite ReadFacts.read_trace_eq.
  destruct (QEMUTracerBow.next_start_code (Py.splitlines c))
    as [[field rest]|] eqn:En; [|discriminate].
  destruct (Py.int16 field) as [b|] eqn:Eb; [|discriminate].
  destruct (QEMUTracerBow.trace_entries _ rest) as [vs|] eqn:Et; [|discriminate].
  intros [= <- <-].
  apply ReadFacts.next_start_code_inv in En as (pre & t & -> & Hpre & Ht & Hi).
  apply ReadFacts.trace_entries_inv in Et.
  exists pre, t, rest, field. repeat (split; [first [assumption|reflexivity]|]).
  symmetry. eapply Forall2_length, Et.
Qed.

Lemma every_address_has_its_line_witness :
  exists pre t post,
    Py.splitlines
      (TraceLog.trace_file false 1 Scenario.fmt0x 4194304 Scenario.two_blocks)
    = pre ++ t :: post
    /\ Py.startswith (B "start_code") t = true
    /\ length (List.filter (Py.startswith (B "Trace ")) post) = 2%nat.
Proof.
  destruct (every_address_has_its_line Scenario.linux
              (TraceLog.trace_file false 1 Scenario.fmt0x 4194304
                 Scenario.two_blocks)
              4194304 [4198400; 4198416] eq_refl)
    as (pre & t & post & field & H1 & _ & H3 & _ & _ & _ & H7).
  exists pre, t, post. split; [exact H1|]. split; [exact H3|].
  symmetry. exact H7.
Defined.

(** X11. How the parser fails, and only so. [next] raises [StopIteration]
    exactly when no line starts with [start_code]. Otherwise the first
    such line decides: [IndexError] when it has no second field,
    [ValueError] when that field is no number in base 16. Otherwise the
    first line behind it that starts with [Trace ] and gives no address
    decides, the lines that start with [Trace ] in front of it all giving
    one: [AttributeError] when the target's pattern does not match it,
    [ValueError] when its group [addr] is no number in base 16. A session
    that asked for the trace ends with the same exception, but for the
    [StopIteration]: raised inside the generator, it reaches the caller as
    [RuntimeError]. *)
Theorem how_the_parser_fails
    (self : QEMUTracerBow.t) (c : bytes) (e : exn) :
  let lines := Py.splitlines c in
  let re := QEMUTracerBow.select_trace_re self in
  let no_start := fun l => Py.startswith (B "start_code") l = false in
  let gives_address := fun l =>
    exists m g a,
      re_match re l = Some m /\ Re.group "addr" m = Some g
      /\ Py.int16 g = Ok a in
  (QEMUTracerBow.read_trace self c = Raise e
   <-> (e = StopIteration /\ Forall no_start lines)
       \/ exists pre t post,
            lines = pre ++ t :: post
            /\ Forall no_start pre
            /\ Py.startswith (B "start_code") t = true
            /\ ((e = IndexError /\ (length (Py.split t) < 2)%nat)
                \/ exists field,
                     Py.index (Py.split t) 1 = Ok field
                     /\ ((e = ValueError /\ Py.int16 field = Raise ValueError)
                         \/ exists base good bad rest,
                              Py.int16 field = Ok base
                              /\ List.filter (Py.startswith (B "Trace ")) post
                                 = good ++ bad :: rest
                              /\ Forall gives_address good
                              /\ ((e = AttributeError
                                   /\ re_match re bad = None)
                                  \/ (e = ValueError
                                      /\ exists m g,
                                           re_match re bad = Some m
                                           /\ Re.group "addr" m = Some g
                                           /\ Py.int16 g = Raise ValueError)))))
  /\ (QEMUTracerBow.read_trace self c = Raise e ->
      forall (o : FireOptions) (env : Env) (body : Body) (w : World),
        record_trace o = true -> save_core o = false ->
        QEMUTracerBow.body_outcome self o env body = None
        \/ QEMUTracerBow.body_outcome self o env body = Some TimeoutExpired ->
        target_files w !! (QEMUTracerBow.tmp_prefix env +:+ ".trace")%string
        = Some c ->
        QEMUTracerBow.fire_context self o env body w
        = (Raise (match e with StopIteration => RuntimeError | _ => e end), w)).
Proof.
  cbv zeta. split.
  2: { intros Hr o env body w. apply ReadFacts.session_parse_fails, Hr. }
  rewrite ReadFacts.read_trace_eq. split.
  - destruct (QEMUTracerBow.next_start_code (Py.splitlines c))
      as [[field rest]|e0] eqn:En.
    + apply ReadFacts.next_start_code_inv in En
        as (pre & t & Hlines & Hpre & Ht & Hi).
      intros H. right. exists pre, t, rest.
      repeat (split; [assumption|]).
      right. exists field. split; [exact Hi|].
      destruct (Py.int16 field) as [b|e1] eqn:Eb.
      * destruct (QEMUTracerBow.trace_entries _ rest) as [vs|e2] eqn:Et;
          [discriminate|].
        injection H as <-. right.
        apply ReadFacts.trace_entries_first_bad in Et
          as (good & bad & rest' & Hf & Hgood & Hbad).
        exists b, good, bad, rest'.
        repeat (split; [first [assumption|reflexivity]|]).
        destruct Hbad as [H|[(_ & m & Hm & Hg)|H]]; [auto| |auto].
        exfalso. exact (ReadFacts.addr_group self bad m Hm Hg).
      * injection H as <-. left.
        pose proof (ReadFacts.int16_raises _ _ Eb) as ->. auto.
    + intros [= <-].
      apply ReadFacts.next_start_code_raises in En
        as [[-> Hl]|(-> & pre & t & rest & Hlines & Hpre & Ht & Hi)].
      * left. auto.
      * right. exists pre, t, rest. repeat (split; [assumption|]).
        left. split; [reflexivity|].
        unfold Py.index in Hi.
        destruct (nth_error (Py.split t) 1) eqn:En'; [discriminate|].
        apply nth_error_None in En'. lia.
  - intros [[-> Hl]|(pre & t & post & -> & Hpre & Ht & H)].
    + rewrite (ReadFacts.next_start_code_none _ Hl). reflexivity.
    + rewrite (ReadFacts.next_start_code_found pre t post Hpre Ht).
      destruct H as [[-> Hlen]|(field & Hi & H)].
      * unfold Py.index.
        destruct (nth_error (Py.split t) 1) eqn:En'; [|reflexivity].
        exfalso. assert (nth_error (Py.split t) 1 <> None) as Hn by congruence.
        apply nth_error_Some in Hn. lia.
      * rewrite Hi.
        destruct H as [[-> ->]|(base & good & bad & rest & -> & Hf & Hgood & H)];
          [reflexivity|].
        rewrite (ReadFacts.trace_entries_filter _ post), Hf.
        destruct (ReadFacts.filter_parts _ _ _ _ _ Hf) as [Htg Htb].
        rewrite (ReadFacts.trace_entries_behind _ good (bad :: rest) e Htg Hgood);
          [reflexivity|].
        cbn [QEMUTracerBow.trace_entries]. rewrite Htb.
        destruct H as [[-> ->]|(-> & m & g & -> & -> & ->)]; reflexivity.
Qed.

Lemma how_the_parser_fails_witness :
  QEMUTracerBow.read_trace Scenario.linux (TraceLog.unlines [B "host mmu: ok"])
  = Raise StopIteration
  /\ QEMUTracerBow.fire_context Scenario.linux Scenario.only_trace
       (Scenario.env (Some 0)) Scenario.idle
       (mkWorld {[ "/tmp/tracer-x0h2m_ab.trace"%string
                   := TraceLog.unlines [B "host mmu: ok"] ]} ∅)
     = (Raise RuntimeError,
        mkWorld {[ "/tmp/tracer-x0h2m_ab.trace"%string
                   := TraceLog.unlines [B "host mmu: ok"] ]} ∅).
Proof.
  split.
  - apply (proj1 (how_the_parser_fails Scenario.linux
                    (TraceLog.unlines [B "host mmu: ok"]) StopIteration)).
    left. split; [reflexivity|]. repeat constructor.
  - exact (proj2 (how_the_parser_fails Scenario.linux
                    (TraceLog.unlines [B "host mmu: ok"]) StopIteration)
             eq_refl Scenario.only_trace (Scenario.env (Some 0)) Scenario.idle
             (mkWorld {[ "/tmp/tracer-x0h2m_ab.trace"%string
                         := TraceLog.unlines [B "host mmu: ok"] ]} ∅)
             eq_refl eq_refl (or_introl eq_refl) eq_refl).
Defined.

(** ** The Docker image target *)

Module DockerFacts.
Import DockerImageTarget.
Local Open Scope string_scope.
Local Open Scope list_scope.

(** The loop over the environment, in closed form. *)
Lemma env_flags_flat_map env : forall docker_args,
  env_flags env docker_args
  = docker_args ++ flat_map (fun e => ["-e"; e]) env.
Proof.
  unfold env_flags. induction env as [|e env IH]; intros acc; simpl.
  - rewrite app_nil_r. reflexivity.
  - rewrite IH, <- app_assoc. reflexivity.
Qed.

Lemma list_truthy_or_empty {A : Type} (x : option (list A)) :
  list_truthy x = false -> PyStr.or_empty x = [].
Proof. destruct x as [[|a l]|]; [reflexivity|discriminate|reflexivity]. Qed.

(** [run_command] on a target with a container, by what it is given. *)
Lemma run_command_eq {Handle : Type} (Popen : list string -> outcome Handle)
    self c args prefix suffix aslr :
  container self = Some c ->
  run_command Popen self args prefix suffix aslr
  = match PyStr.list_or args (target_args self), target_env self with
    | Some cmd, Some env =>
        Popen (["docker"; "exec"; "-i"] ++ flat_map (fun e => ["-e"; e]) env
               ++ [id c]
               ++ (if aslr then [] else ["setarch"; "x86_64"; "-R"])
               ++ PyStr.or_empty prefix ++ cmd ++ PyStr.or_empty suffix)
    | _, _ => Raises TypeError
    end.
Proof.
  intros Hc. unfold run_command. rewrite Hc.
  unfold mbind, result_bind, rbind.
  destruct (PyStr.list_or args (target_args self)) as [cmd|].
  - destruct (list_truthy prefix) eqn:Hp; cbn [list_add];
      destruct (list_truthy suffix) eqn:Hs; cbn [add_list];
      destruct aslr; cbn [negb list_add];
      destruct (target_env self) as [env|]; try reflexivity;
      rewrite env_flags_flat_map;
      rewrite ?(list_truthy_or_empty _ Hp), ?(list_truthy_or_empty _ Hs);
      cbn [app]; rewrite <- ?app_assoc, ?app_nil_r; cbn [app];
      reflexivity.
  - destruct (list_truthy prefix), (list_truthy suffix), aslr;
      cbn [list_add add_list negb];
      destruct (target_env self); reflexivity.
Qed.










End DockerFacts.

(** * Properties of the Docker image target *)

(** ** Commands in the container *)

(** X12. [run_command] on a target with a container, an environment and a
    command to run (the one it is given, or else the target's own) ends as
    [Popen] does on this argument vector: [docker exec -i], then [-e] and
    the variable for every variable of the environment, in order, then the
    container's id, then, with ASLR switched off, [setarch x86_64 -R],
    then the prefix, the command and the suffix. *)
Theorem run_command_argv
    (Handle : Type) (Popen : list string -> DockerImageTarget.outcome Handle)
    (self : DockerImageTarget.t) (c : DockerImageTarget.Container)
    (env cmd : list string) (args args_prefix args_suffix : option (list string))
    (aslr : bool) :
  DockerImageTarget.container self = Some c ->
  DockerImageTarget.target_env self = Some env ->
  PyStr.list_or args (DockerImageTarget.target_args self) = Some cmd ->
  DockerImageTarget.run_command Popen self args args_prefix args_suffix aslr
  = Popen
      ([ "docker"; "exec"; "-i" ]%string
       ++ flat_map (fun e => [ "-e"%string; e ]) env
       ++ [ DockerImageTarget.id c ]
       ++ (if aslr then [] else [ "setarch"; "x86_64"; "-R" ]%string)
       ++ PyStr.or_empty args_prefix ++ cmd ++ PyStr.or_empty args_suffix).
Proof.
  intros Hc He Ha.
  rewrite (DockerFacts.run_command_eq Popen self c _ _ _ _ Hc), Ha, He.
  reflexivity.
Qed.

Lemma run_command_argv_witness :
  DockerImageTarget.run_command (fun argv => DockerImageTarget.Returns argv)
    (DockerImageTarget.mk "img"%string (Some [ "/bin/target"; "-v" ]%string)
       (Some "/bin/target"%string) (Some [ "PATH=/bin"; "A=1" ]%string) None
       (Some (DockerImageTarget.mkContainer "c0ffee"%string)))
    (Some [ "mkdir"; "/tmp/tracer_x" ]%string) None None false
  = DockerImageTarget.Returns
      [ "docker"; "exec"; "-i"; "-e"; "PATH=/bin"; "-e"; "A=1"; "c0ffee";
        "setarch"; "x86_64"; "-R"; "mkdir"; "/tmp/tracer_x" ]%string.
Proof.
  exact (run_command_argv (list string)
           (fun argv => DockerImageTarget.Returns argv)
           (DockerImageTarget.mk "img"%string
              (Some [ "/bin/target"; "-v" ]%string)
              (Some "/bin/target"%string)
              (Some [ "PATH=/bin"; "A=1" ]%string) None
              (Some (DockerImageTarget.mkContainer "c0ffee"%string)))
           (DockerImageTarget.mkContainer "c0ffee"%string)
           [ "PATH=/bin"; "A=1" ]%string [ "mkdir"; "/tmp/tracer_x" ]%string
           (Some [ "mkdir"; "/tmp/tracer_x" ]%string) None None false
           eq_refl eq_refl eq_refl).
Defined.

(** X13. How [run_command] ends before it starts anything, and only so.
    Let [handed] be what it hands to [Popen], or how it ends before ([Popen]
    taken to return what it is given). Its [assert] fails exactly when the
    target has no container. With a container it raises nothing of its own
    but [TypeError], and that exactly when there is no command to run (none
    given, or an empty one, and the target has none) or the target has no
    environment. In every other case it calls [Popen], and whatever [Popen]
    is, [run_command] ends as [Popen] does on what it was handed: the
    exceptions of [Popen] are those of [run_command]. An empty list of
    arguments is taken like none at all: the target's own command runs. *)
Theorem run_command_outcome
    (self : DockerImageTarget.t)
    (args args_prefix args_suffix : option (list string)) (aslr : bool) :
  let handed :=
    DockerImageTarget.run_command (fun argv => DockerImageTarget.Returns argv)
      self args args_prefix args_suffix aslr in
  (handed = DockerImageTarget.AssertionError
   <-> DockerImageTarget.container self = None)
  /\ (forall e, handed = DockerImageTarget.Raises e -> e = TypeError)
  /\ (handed = DockerImageTarget.Raises TypeError
      <-> DockerImageTarget.container self <> None
          /\ (PyStr.list_or args (DockerImageTarget.target_args self) = None
              \/ DockerImageTarget.target_env self = None))
  /\ (forall (Handle : Type)
        (Popen : list string -> DockerImageTarget.outcome Handle),
        DockerImageTarget.run_command Popen self args args_prefix args_suffix
          aslr
        = match handed with
          | DockerImageTarget.Returns argv => Popen argv
          | DockerImageTarget.Raises e => DockerImageTarget.Raises e
          | DockerImageTarget.AssertionError => DockerImageTarget.AssertionError
          end)
  /\ (forall (Handle : Type)
        (Popen : list string -> DockerImageTarget.outcome Handle),
        DockerImageTarget.run_command Popen self (Some []) args_prefix
          args_suffix aslr
        = DockerImageTarget.run_command Popen self None args_prefix
            args_suffix aslr).
Proof.
  cbv zeta. split; [|split; [|split; [|split]]].
  - unfold DockerImageTarget.run_command.
    destruct (DockerImageTarget.container self) as [c|].
    + split; [|discriminate].
      match goal with |- context [match ?r with Ok _ => _ | Raise _ => _ end] =>
        destruct r end; discriminate.
    + split; reflexivity.
  - intros e. destruct (DockerImageTarget.container self) as [c|] eqn:Hc.
    + rewrite (DockerFacts.run_command_eq _ self c _ _ _ _ Hc).
      destruct (PyStr.list_or _ _); [destruct (DockerImageTarget.target_env self)|];
        congruence.
    + unfold DockerImageTarget.run_command. rewrite Hc. discriminate.
  - destruct (DockerImageTarget.container self) as [c|] eqn:Hc.
    + rewrite (DockerFacts.run_command_eq _ self c _ _ _ _ Hc).
      destruct (PyStr.list_or _ _) as [cmd|];
        [destruct (DockerImageTarget.target_env self) as [env|]|].
      * split; [discriminate|]. intros [_ [H|H]]; discriminate.
      * split; [|reflexivity]. intros _. split; [discriminate|auto].
      * split; [|reflexivity]. intros _. split; [discriminate|auto].
    + unfold DockerImageTarget.run_command. rewrite Hc.
      split; [discriminate|]. intros [H _]. contradiction.
  - intros Handle Popen.
    destruct (DockerImageTarget.container self) as [c|] eqn:Hc.
    + rewrite !(DockerFacts.run_command_eq _ self c _ _ _ _ Hc).
      destruct (PyStr.list_or _ _) as [cmd|];
        [destruct (DockerImageTarget.target_env self) as [env|]|];
        reflexivity.
    + unfold DockerImageTarget.run_command. rewrite Hc. reflexivity.
  - reflexivity.
Qed.


(** ** Printed numbers read back in base 10 *)

Module DecFacts.
Import Decimal.
Local Open Scope string_scope.

Abbreviation digits := NilEmpty.string_of_uint.

Lemma scan_digits_uint d : forall n acc,
  (0 < n + String.length (digits d))%nat ->
  PyStr.scan_digits false n (Z.of_nat acc) (digits d)
  = Some (Z.of_nat (Nat.of_uint_acc d acc), (n + String.length (digits d))%nat,
          EmptyString).
Proof.
  induction d as [|d IHd|d IHd|d IHd|d IHd|d IHd|d IHd|d IHd|d IHd|d IHd|d IHd];
    intros n acc Hn;
    cbn [NilEmpty.string_of_uint String.length Nat.of_uint_acc] in *.
  1: { rewrite Nat.add_0_r in *. destruct n as [|n]; [lia|reflexivity]. }
  all: cbn [PyStr.scan_digits];
    change (Ascii.eqb _ PyStr.UNDERSCORE) with false;
    match goal with
    | |- context [PyStr.digitval ?c] =>
        let v := eval vm_compute in (PyStr.digitval c) in
        change (PyStr.digitval c) with v
    end;
    cbv iota;
    match goal with
    | |- PyStr.scan_digits false _ ?v _ = Some (Z.of_nat (Nat.of_uint_acc _ ?a), _, _) =>
        replace v with (Z.of_nat a)
          by (rewrite ?Nat.tail_mul_spec; lia)
    end;
    rewrite (IHd (S n) _) by lia;
    rewrite Nat.add_succ_r; reflexivity.
Qed.

(** A printed number is made of digits: [int] takes it as it is. *)
Lemma transform_digits d : PyStr.transform (digits d) = digits d.
Proof.
  induction d as [|d IHd|d IHd|d IHd|d IHd|d IHd|d IHd|d IHd|d IHd|d IHd|d IHd];
    simpl; rewrite ?IHd; reflexivity.
Qed.

Lemma int_digits d :
  d <> Nil ->
  (String.length (digits d) <= PyStr.MAX_STR_DIGITS)%nat ->
  PyStr.int (digits d) = Ok (Z.of_nat (Nat.of_uint d)).
Proof.
  intros Hd Hl. unfold PyStr.int. rewrite transform_digits.
  assert (Hscan : PyStr.scan_digits false 0 0 (digits d)
                  = Some (Z.of_nat (Nat.of_uint d), String.length (digits d),
                          EmptyString)).
  { apply (scan_digits_uint d 0 0).
    destruct d; [contradiction|simpl; lia..]. }
  assert (Hm : PyStr.int_magnitude (digits d) = Some (Z.of_nat (Nat.of_uint d))).
  { unfold PyStr.int_magnitude. rewrite Hscan.
    apply Nat.ltb_ge in Hl. rewrite Hl.
    destruct d; [contradiction|reflexivity..]. }
  destruct d; [contradiction|..];
    cbn [NilEmpty.string_of_uint PyStr.lstrip] in *;
    change (PyStr.isspace _) with false; cbn [PyStr.take_sign];
    change (Ascii.eqb _ "+"%char) with false;
    change (Ascii.eqb _ "-"%char) with false;
    cbv iota; rewrite Hm; reflexivity.
Qed.

(** [int(str(n)) == n], as far as the digit limit lets it. *)
Lemma int_of_nat (p : nat) :
  (String.length (Str.of_nat p) <= PyStr.MAX_STR_DIGITS)%nat ->
  PyStr.int (Str.of_nat p) = Ok (Z.of_nat p).
Proof.
  unfold Str.of_nat, NilZero.string_of_uint.
  replace (Z.of_nat p) with (Z.of_nat (Nat.of_uint (Nat.to_uint p)))
    by (rewrite DecimalNat.Unsigned.of_to; reflexivity).
  generalize (Nat.to_uint p). intros d Hl.
  destruct d; [reflexivity|..]; apply int_digits; (discriminate || exact Hl).
Qed.

(** A printed number holds no slash: the first piece is the number. *)
Lemma split_digits d rest :
  exists pieces,
    PyStr.split Str.SLASH (digits d +:+ String Str.SLASH rest)
    = digits d :: pieces.
Proof.
  induction d as [|d IHd|d IHd|d IHd|d IHd|d IHd|d IHd|d IHd|d IHd|d IHd|d IHd];
    cbn [NilEmpty.string_of_uint];
    rewrite ?PathFacts.sapp_nil_l, ?PathFacts.sapp_cons.
  1: { cbn [PyStr.split]. rewrite PathFacts.ascii_eqb_refl. eauto. }
  all: destruct IHd as (pieces & IH); cbn [PyStr.split];
    change (Ascii.eqb _ Str.SLASH) with false; cbv iota;
    rewrite IH; eauto.
Qed.

(** Nor any letter: what is looked for in a key is found behind the
    number or not at all. *)
Lemma contains_digits c needle d rest :
  PyStr.digitval c = None ->
  Str.contains (String c needle) (digits d +:+ rest)
  = Str.contains (String c needle) rest.
Proof.
  intros Hc.
  induction d as [|d IHd|d IHd|d IHd|d IHd|d IHd|d IHd|d IHd|d IHd|d IHd|d IHd];
    cbn [NilEmpty.string_of_uint];
    rewrite ?PathFacts.sapp_nil_l, ?PathFacts.sapp_cons; [reflexivity|..].
  all: cbn [Str.contains Str.startswith]; rewrite IHd;
    match goal with
    | |- (Ascii.eqb ?c0 ?x && _) || _ = _ =>
        destruct (Ascii.eqb c0 x) eqn:E;
        [apply Ascii.eqb_eq in E; subst c0; vm_compute in Hc; discriminate Hc
        |reflexivity]
    end.
Qed.

End DecFacts.

(** ** Exposed ports and mounted paths *)

Module PortFacts.
Import DockerImageTarget.
Local Open Scope string_scope.
Local Open Scope list_scope.

(** [str(n)] is a run of digits that stands for [n]. *)
Lemma of_nat_digits (p : nat) :
  exists d, d <> Decimal.Nil /\ Str.of_nat p = DecFacts.digits d
            /\ Nat.of_uint d = p.
Proof.
  unfold Str.of_nat, NilZero.string_of_uint.
  pose proof (DecimalNat.Unsigned.of_to p) as H.
  destruct (Nat.to_uint p) as [|d|d|d|d|d|d|d|d|d|d] eqn:E.
  1: { exists (Decimal.D0 Decimal.Nil). repeat split; [discriminate|exact H]. }
  all: eexists; repeat split; [discriminate|exact H].
Qed.

Lemma key_first_piece e :
  exists pieces,
    PyStr.split Str.SLASH (PortKeys.key e) = Str.of_nat (fst e) :: pieces.
Proof.
  unfold PortKeys.key.
  destruct (of_nat_digits (fst e)) as (d & _ & -> & _).
  apply DecFacts.split_digits.
Qed.

Lemma key_contains c needle e :
  PyStr.digitval c = None ->
  Str.contains (String c needle) (PortKeys.key e)
  = Str.contains (String c needle) ("/" +:+ PortKeys.name (snd e)).
Proof.
  intros Hc. unfold PortKeys.key.
  destruct (of_nat_digits (fst e)) as (d & _ & -> & _).
  apply DecFacts.contains_digits, Hc.
Qed.

(** The ports of one kind among well-formed keys. *)
Lemma ports_keys proto_name kind es :
  (forall e, Str.contains proto_name (PortKeys.key e) = kind (snd e)) ->
  Forall (fun e => (String.length (Str.of_nat (fst e)) <= PyStr.MAX_STR_DIGITS)%nat)
    es ->
  ports proto_name (map PortKeys.key es) = Ok (PortKeys.numbers kind es).
Proof.
  intros Hk. induction 1 as [|e es He _ IH]; [reflexivity|].
  cbn [map ports]. rewrite Hk. unfold PortKeys.numbers. cbn [List.filter].
  destruct (kind (snd e)); [|exact IH].
  destruct (key_first_piece e) as (pieces & ->). cbn [Py.index nth_error].
  rewrite (DecFacts.int_of_nat _ He), IH. reflexivity.
Qed.

Lemma ports_raises proto keys e :
  ports proto keys = Raise e ->
  e = ValueError
  /\ exists k first,
       In k keys /\ Str.contains proto k = true
       /\ Py.index (PyStr.split Str.SLASH k) 0 = Ok first
       /\ PyStr.int first = Raise ValueError.
Proof.
  induction keys as [|k keys IH]; [discriminate|].
  cbn [ports].
  assert (Hrest : ports proto keys = Raise e ->
                  e = ValueError
                  /\ exists k0 first,
                       In k0 (k :: keys) /\ Str.contains proto k0 = true
                       /\ Py.index (PyStr.split Str.SLASH k0) 0 = Ok first
                       /\ PyStr.int first = Raise ValueError).
  { intros H. destruct (IH H) as (-> & k0 & first & Hin & H0).
    split; [reflexivity|]. exists k0, first. split; [right; exact Hin|exact H0]. }
  destruct (Str.contains proto k) eqn:Hc; [|exact Hrest].
  destruct (Py.index (PyStr.split Str.SLASH k) 0) as [first|e0] eqn:Ei.
  - destruct (PyStr.int first) as [n|e1] eqn:En.
    + destruct (ports proto keys) as [ns|e2]; [discriminate|].
      intros [= <-]. apply Hrest. reflexivity.
    + intros [= <-].
      assert (e1 = ValueError) as ->.
      { unfold PyStr.int in En. destruct (PyStr.take_sign _) as [neg s1].
        destruct (PyStr.int_magnitude s1); [discriminate|congruence]. }
      split; [reflexivity|]. exists k, first. split; [left; reflexivity|auto].
  - exfalso. unfold Py.index in Ei.
    destruct k as [|c k]; [discriminate|].
    cbn [PyStr.split] in Ei.
    destruct (Ascii.eqb c Str.SLASH); [discriminate|].
    destruct (PyStr.split Str.SLASH k); discriminate.
Qed.

(** What [os.path.join] makes of a path without its leading slashes
    starts with the directory. *)
Lemma lstrip_slash_relative s : Str.startswith "/" (PyStr.lstrip_slash s) = false.
Proof.
  induction s as [|c s IH]; [reflexivity|].
  cbn [PyStr.lstrip_slash].
  destruct (Ascii.eqb c Str.SLASH) eqn:E; [exact IH|].
  cbn [Str.startswith]. rewrite Ascii.eqb_sym. unfold Str.SLASH in E.
  rewrite E. reflexivity.
Qed.

Lemma join_under d s :
  Str.startswith d (Str.os_path_join d (PyStr.lstrip_slash s)) = true.
Proof.
  unfold Str.os_path_join. rewrite lstrip_slash_relative.
  destruct (negb (Str.truthy d) || Str.endswith_slash d);
    apply FootprintFacts.startswith_sapp.
Qed.

End PortFacts.

(** ** The exposed ports *)

(** X15. On an image whose exposed ports are named the way the Docker
    Engine names them, a number, a slash and [tcp], [udp] or [sctp]:
    [tcp_ports] is the list of the numbers of the TCP ports, in the order
    of the keys, and [udp_ports] that of the UDP ports; a port of another
    protocol is in neither. (A number is read back as long as it has no
    more digits than [int] accepts.) *)
Theorem ports_by_protocol
    (self : DockerImageTarget.t) (im : DockerImageTarget.Image)
    (es : list (nat * PortKeys.proto)) :
  DockerImageTarget.image self = Some im ->
  DockerImageTarget.exposed_ports im
  = DockerImageTarget.Keys (map PortKeys.key es) ->
  Forall (fun e =>
            (String.length (Str.of_nat (fst e)) <= PyStr.MAX_STR_DIGITS)%nat) es ->
  DockerImageTarget.tcp_ports self = Ok (PortKeys.numbers PortKeys.is_tcp es)
  /\ DockerImageTarget.udp_ports self = Ok (PortKeys.numbers PortKeys.is_udp es)
  /\ (forall p,
        In p (PortKeys.numbers PortKeys.is_tcp es)
        <-> exists n, p = Z.of_nat n /\ In (n, PortKeys.TCP) es)
  /\ (forall p,
        In p (PortKeys.numbers PortKeys.is_udp es)
        <-> exists n, p = Z.of_nat n /\ In (n, PortKeys.UDP) es).
Proof.
  intros Him Hk Hes.
  unfold DockerImageTarget.tcp_ports, DockerImageTarget.udp_ports,
    DockerImageTarget.exposed.
  rewrite Him, Hk.
  split; [|split; [|split]].
  - apply PortFacts.ports_keys; [|exact Hes].
    intros [n pr]. rewrite PortFacts.key_contains by reflexivity.
    destruct pr; reflexivity.
  - apply PortFacts.ports_keys; [|exact Hes].
    intros [n pr]. rewrite PortFacts.key_contains by reflexivity.
    destruct pr; reflexivity.
  - intros p. unfold PortKeys.numbers. rewrite in_map_iff. split.
    + intros ([n pr] & <- & Hin). apply List.filter_In in Hin as [Hin Hpr].
      destruct pr; try discriminate. eauto.
    + intros (n & -> & Hin). exists (n, PortKeys.TCP).
      split; [reflexivity|]. apply List.filter_In. auto.
  - intros p. unfold PortKeys.numbers. rewrite in_map_iff. split.
    + intros ([n pr] & <- & Hin). apply List.filter_In in Hin as [Hin Hpr].
      destruct pr; try discriminate. eauto.
    + intros (n & -> & Hin). exists (n, PortKeys.UDP).
      split; [reflexivity|]. apply List.filter_In. auto.
Qed.

Lemma ports_by_protocol_witness :
  let im :=
    DockerImageTarget.mkImage (DockerImageTarget.mkConfig None None None)
      (DockerImageTarget.Keys [ "80/tcp"; "53/udp"; "443/tcp"; "132/sctp" ]%string) in
  let self :=
    DockerImageTarget.mk "img"%string None None None (Some im) None in
  DockerImageTarget.tcp_ports self = Ok [80; 443]
  /\ DockerImageTarget.udp_ports self = Ok [53].
Proof.
  cbv zeta.
  pose (es := [ (80%nat, PortKeys.TCP); (53%nat, PortKeys.UDP);
                (443%nat, PortKeys.TCP); (132%nat, PortKeys.SCTP) ]).
  assert (Hk : DockerImageTarget.Keys
                 [ "80/tcp"; "53/udp"; "443/tcp"; "132/sctp" ]%string
               = DockerImageTarget.Keys (map PortKeys.key es))
    by (vm_compute; reflexivity).
  assert (Hes : Forall (fun e =>
                          (String.length (Str.of_nat (fst e))
                           <= PyStr.MAX_STR_DIGITS)%nat) es)
    by (unfold es;
        repeat (apply List.Forall_cons;
                [apply Nat.leb_le; vm_compute; reflexivity|]);
        apply List.Forall_nil).
  destruct (ports_by_protocol
              (DockerImageTarget.mk "img"%string None None None
                 (Some (DockerImageTarget.mkImage
                          (DockerImageTarget.mkConfig None None None)
                          (DockerImageTarget.Keys
                             [ "80/tcp"; "53/udp"; "443/tcp"; "132/sctp" ]%string)))
                 None)
              _ es eq_refl Hk Hes)
    as (H1 & H2 & _).
  split; [exact H1|exact H2].
Defined.

(** X16. How [tcp_ports] and [udp_ports] end otherwise. Where the image
    has no [ContainerConfig] or that has no [ExposedPorts], the [KeyError]
    is caught and the list is empty. Nothing else is caught: before
    [build], and where [ExposedPorts] is null, they raise
    [AttributeError]; where [ContainerConfig] is null, [TypeError]; and
    on a dict they raise nothing but [ValueError],
    which comes from a key that holds the protocol's name and whose text
    in front of the first slash is no number. *)
Theorem ports_without_keys
    (self : DockerImageTarget.t) (proto : string) :
  let out := DockerImageTarget.exposed proto self in
  DockerImageTarget.tcp_ports self = DockerImageTarget.exposed "tcp" self
  /\ DockerImageTarget.udp_ports self = DockerImageTarget.exposed "udp" self
  /\ (DockerImageTarget.image self = None -> out = Raise AttributeError)
  /\ (forall im,
        DockerImageTarget.image self = Some im ->
        match DockerImageTarget.exposed_ports im with
        | DockerImageTarget.NoContainerConfig
        | DockerImageTarget.NoExposedPorts => out = Ok []
        | DockerImageTarget.NullContainerConfig => out = Raise TypeError
        | DockerImageTarget.Null => out = Raise AttributeError
        | DockerImageTarget.Keys keys =>
            forall e,
              out = Raise e ->
              e = ValueError
              /\ exists k first,
                   In k keys /\ Str.contains proto k = true
                   /\ Py.index (PyStr.split Str.SLASH k) 0 = Ok first
                   /\ PyStr.int first = Raise ValueError
        end).
Proof.
  cbv zeta. split; [reflexivity|]. split; [reflexivity|].
  unfold DockerImageTarget.exposed. split.
  - intros ->. reflexivity.
  - intros im ->. destruct (DockerImageTarget.exposed_ports im) as [| | | |keys];
      try reflexivity.
    intros e. apply PortFacts.ports_raises.
Qed.

(** ** Paths under the mount *)

(** X17. [resolve_local_path] on a target with a container returns a path
    that starts with the mount point of the container, whatever the path
    it is given and however the file system resolves paths: what it hands
    to [os.path.realpath] starts with the mount point (the path itself
    when it does, else the path without its leading slashes, joined to the
    mount point), and what comes back is returned as it is when it starts
    with the mount point and else joined to it in the same way. Without a
    container the method raises [AttributeError]. *)
Theorem resolved_path_starts_with_the_mount
    (realpath : string -> string) (self : DockerImageTarget.t) (path : string) :
  match DockerImageTarget.container self with
  | None =>
      DockerImageTarget.resolve_local_path realpath self path
      = Raise AttributeError
  | Some c =>
      let mount := ("/tmp/archr_mounts/" +:+ DockerImageTarget.id c)%string in
      exists asked resolved,
        DockerImageTarget.resolve_local_path realpath self path = Ok resolved
        /\ Str.startswith mount asked = true
        /\ Str.startswith mount resolved = true
        /\ (Str.startswith mount path = true -> asked = path)
        /\ (Str.startswith mount path = false ->
            asked = Str.os_path_join mount (PyStr.lstrip_slash path))
        /\ (Str.startswith mount (realpath asked) = true ->
            resolved = realpath asked)
        /\ (Str.startswith mount (realpath asked) = false ->
            resolved
            = Str.os_path_join mount (PyStr.lstrip_slash (realpath asked)))
  end.
Proof.
  unfold DockerImageTarget.resolve_local_path, DockerImageTarget.local_path.
  destruct (DockerImageTarget.container self) as [c|]; [|reflexivity].
  cbv zeta. unfold mbind, result_bind, rbind.
  set (mount := ("/tmp/archr_mounts/" +:+ DockerImageTarget.id c)%string).
  assert (Hj : forall s,
            Str.startswith mount (Str.os_path_join mount (PyStr.lstrip_slash s))
            = true) by (intros s; apply PortFacts.join_under).
  destruct (Str.startswith mount path) eqn:Hp; cbn [negb].
  - destruct (Str.startswith mount (realpath path)) eqn:Hr; cbn [negb].
    + exists path, (realpath path).
      split; [reflexivity|]. split; [exact Hp|]. split; [exact Hr|].
      split; [reflexivity|]. split; [discriminate|].
      split; [reflexivity|congruence].
    + exists path, (Str.os_path_join mount (PyStr.lstrip_slash (realpath path))).
      split; [reflexivity|]. split; [exact Hp|]. split; [apply Hj|].
      split; [reflexivity|]. split; [discriminate|].
      split; [congruence|reflexivity].
  - set (asked := Str.os_path_join mount (PyStr.lstrip_slash path)).
    destruct (Str.startswith mount (realpath asked)) eqn:Hr; cbn [negb].
    + exists asked, (realpath asked).
      split; [reflexivity|]. split; [apply Hj|]. split; [exact Hr|].
      split; [discriminate|]. split; [reflexivity|].
      split; [reflexivity|congruence].
    + exists asked, (Str.os_path_join mount (PyStr.lstrip_slash (realpath asked))).
      split; [reflexivity|]. split; [apply Hj|]. split; [apply Hj|].
      split; [discriminate|]. split; [reflexivity|].
      split; [congruence|reflexivity].
Qed.
